(** * Job portal: application submission and application tracking

    A shallow embedding of the client components that make up the
    application workflow of the job portal,

    - [src/components/forms/ApplicationForm.tsx] (the Submitter),
    - [src/app/user/applications/page.tsx] (the Viewer), and
    - [src/components/ui/JobCard.tsx] (the job card),

    together with the fragment of the JavaScript runtime they rely on
    (UTF-16 strings, [trim], [includes], the regular expression used for
    e-mail addresses, JSON values with truthiness, property access and
    conversion to a string, [fetch] responses).  The second half of the file states and proves the
    properties of the workflow. *)

From Stdlib Require Import ZArith NArith String Ascii DecimalString SpecFloat.
From stdpp Require Import gmap list.

Set Warnings "-register-all".
Open Scope N_scope.

(** ** JavaScript strings *)

(** A JavaScript string is a sequence of UTF-16 code units. *)
Abbreviation jsstring := (list N).

(** A source literal (all literals of the two components are ASCII). *)
Definition lit (s : string) : jsstring :=
  List.map N_of_ascii (list_ascii_of_string s).

(** [a === b] on strings. *)
Definition str_eqb (a b : jsstring) : bool := bool_decide (a = b).

(** Truthiness of a string: every string but the empty one. *)
Definition str_truthy (s : jsstring) : bool :=
  match s with [] => false | _ :: _ => true end.

(** The code units that ECMAScript classifies as WhiteSpace or
    LineTerminator.  [String.prototype.trim] strips exactly these, and the
    regular-expression class [\s] matches exactly these ([\S] the rest). *)
Definition isWhiteSpace (c : N) : bool :=
  ((9 <=? c) && (c <=? 13))          (* TAB LF VT FF CR *)
  || (c =? 32)                       (* SPACE *)
  || (c =? 160)                      (* NO-BREAK SPACE *)
  || (c =? 5760)                     (* U+1680 *)
  || ((8192 <=? c) && (c <=? 8202))  (* U+2000 .. U+200A *)
  || (c =? 8232) || (c =? 8233)      (* LINE / PARAGRAPH SEPARATOR *)
  || (c =? 8239) || (c =? 8287)      (* U+202F, U+205F *)
  || (c =? 12288)                    (* U+3000 *)
  || (c =? 65279).                   (* U+FEFF *)

Fixpoint trimStart (s : jsstring) : jsstring :=
  match s with
  | [] => []
  | c :: s' => if isWhiteSpace c then trimStart s' else s
  end.

Definition trimEnd (s : jsstring) : jsstring :=
  reverse (trimStart (reverse s)).

(** [s.trim()] *)
Definition trim (s : jsstring) : jsstring := trimEnd (trimStart s).

(** [s.startsWith(q)] *)
Fixpoint startsWith (s q : jsstring) {struct q} : bool :=
  match q, s with
  | [], _ => true
  | _ :: _, [] => false
  | d :: q', c :: s' => (c =? d) && startsWith s' q'
  end.

(** [s.includes(q)]: [q] occurs in [s] at some offset. *)
Fixpoint includes (s q : jsstring) : bool :=
  startsWith s q ||
  match s with
  | [] => false
  | _ :: s' => includes s' q
  end.

(** [s.substring(0, n)] *)
Definition substring0 (n : nat) (s : jsstring) : jsstring := take n s.

(** Decimal rendering of a non-negative integer, as a template literal
    renders an integral number such as an HTTP status. *)
Definition decimal (n : N) : jsstring :=
  lit (NilZero.string_of_uint (N.to_uint n)).

(** ** Regular expressions *)

(** The fragment of the regular-expression syntax that the form uses. *)
Inductive regex : Type :=
| Void                          (* matches nothing *)
| Eps                           (* matches the empty string *)
| Chr (c : N)                   (* a literal code unit *)
| NonSpace                      (* \S *)
| Seq (r1 r2 : regex)
| Alt (r1 r2 : regex)
| Star (r : regex).

(** [r+] *)
Definition Plus (r : regex) : regex := Seq r (Star r).

Fixpoint nullable (r : regex) : bool :=
  match r with
  | Void => false
  | Eps => true
  | Chr _ => false
  | NonSpace => false
  | Seq r1 r2 => nullable r1 && nullable r2
  | Alt r1 r2 => nullable r1 || nullable r2
  | Star _ => true
  end.

(** What is left of [r] once the code unit [c] has been consumed. *)
Fixpoint deriv (c : N) (r : regex) : regex :=
  match r with
  | Void => Void
  | Eps => Void
  | Chr d => if c =? d then Eps else Void
  | NonSpace => if isWhiteSpace c then Void else Eps
  | Seq r1 r2 =>
      if nullable r1
      then Alt (Seq (deriv c r1) r2) (deriv c r2)
      else Seq (deriv c r1) r2
  | Alt r1 r2 => Alt (deriv c r1) (deriv c r2)
  | Star r1 => Seq (deriv c r1) (Star r1)
  end.

(** Some prefix of [s] is matched by [r]: a match attempt anchored at the
    start of [s]. *)
Fixpoint match_here (r : regex) (s : jsstring) : bool :=
  nullable r ||
  match s with
  | [] => false
  | c :: s' => match_here (deriv c r) s'
  end.

(** [RegExp.prototype.test] for a pattern without anchors or flags: the
    match is attempted at every offset of the subject in turn. *)
Fixpoint test (r : regex) (s : jsstring) : bool :=
  match_here r s ||
  match s with
  | [] => false
  | _ :: s' => test r s'
  end.

(** The declarative reading of a pattern: the strings it denotes. *)
Inductive denotes : regex -> jsstring -> Prop :=
| d_eps : denotes Eps []
| d_chr c : denotes (Chr c) [c]
| d_nonspace c : isWhiteSpace c = false -> denotes NonSpace [c]
| d_seq r1 r2 s1 s2 :
    denotes r1 s1 -> denotes r2 s2 -> denotes (Seq r1 r2) (s1 ++ s2)
| d_alt_l r1 r2 s : denotes r1 s -> denotes (Alt r1 r2) s
| d_alt_r r1 r2 s : denotes r2 s -> denotes (Alt r1 r2) s
| d_star_nil r : denotes (Star r) []
| d_star_cons r s1 s2 :
    denotes r s1 -> denotes (Star r) s2 -> denotes (Star r) (s1 ++ s2).

(** ** JSON values *)

(** What [JSON.parse] can produce.  A number is an IEEE-754 double; an
    object is the list of its own properties in insertion order (the keys
    of a parsed object are pairwise distinct). *)
Inductive json : Type :=
| JNull
| JBool (b : bool)
| JNum (x : spec_float)
| JStr (s : jsstring)
| JArr (elements : list json)
| JObj (fields : list (jsstring * json)).

(** ToBoolean. *)
Definition truthy (v : json) : bool :=
  match v with
  | JNull => false
  | JBool b => b
  | JNum (S754_zero _) => false
  | JNum S754_nan => false
  | JNum _ => true
  | JStr s => str_truthy s
  | JArr _ => true
  | JObj _ => true
  end.

(** ToBoolean of the result of a property read; [None] is [undefined]. *)
Definition truthy_opt (v : option json) : bool :=
  match v with None => false | Some v => truthy v end.

Fixpoint assoc (k : jsstring) (fields : list (jsstring * json)) : option json :=
  match fields with
  | [] => None
  | (k', v) :: rest => if str_eqb k' k then Some v else assoc k rest
  end.

(** [v.k] for a value [v] other than [null] and a property name [k] that
    no built-in prototype defines (this holds of every name the two
    components read: [application], [id], [error], [applications]).
    Reading a property of [null] raises a TypeError instead; the callers
    below make that case explicit. *)
Definition get (v : json) (k : jsstring) : option json :=
  match v with
  | JObj fields => assoc k fields
  | _ => None
  end.

(** [Array.isArray] *)
Definition isArray (v : json) : bool :=
  match v with JArr _ => true | _ => false end.

(** ** The runtime *)

(** The services of the JavaScript host, and of modules of the portal that
    the two components import, whose results the components pass along
    without inspecting them. *)
Class Runtime : Type := {
  (** [String.prototype.toLowerCase] (full Unicode case mapping) *)
  toLowerCase : jsstring -> jsstring;
  (** lower-casing maps every code point to at least one code point *)
  toLowerCase_empty : toLowerCase [] = [];
  toLowerCase_nonempty : forall s, s <> [] -> toLowerCase s <> [];
  (** [Number.prototype.toString] *)
  Number_toString : spec_float -> jsstring;
  (** [new Date(ms).toISOString()] *)
  toISOString : Z -> jsstring;
  (** [new Date(s).toLocaleDateString()] *)
  toLocaleDateString : jsstring -> jsstring;
  (** [isValidObjectId], imported from [app/uitlis/helpers/jobConverter] *)
  isValidObjectId : jsstring -> bool;
}.

(** ** Errors, responses and effects *)

(** A thrown [Error]; only its message is ever read. *)
Record Error : Type := mkError { message : jsstring }.

Definition msg_not_primitive : jsstring :=
  lit "Cannot convert object to primitive value".

(** ToString, as applied by template literals and by [new Error(v)].  An
    object is rendered by the [toString] it inherits, unless it has a
    property [toString] of its own: the value of a parsed property is never
    callable, [Object.prototype.valueOf] returns the object itself, and so
    the conversion ends in a TypeError. *)
Fixpoint ToString `{Runtime} (v : json) : Error + jsstring :=
  match v with
  | JNull => inr (lit "null")
  | JBool true => inr (lit "true")
  | JBool false => inr (lit "false")
  | JNum x => inr (Number_toString x)
  | JStr s => inr s
  | JArr elements =>
      (* Array.prototype.join(","): null elements render as "" *)
      let item x := match x with JNull => inr [] | _ => ToString x end in
      (fix join (l : list json) : Error + jsstring :=
         match l with
         | [] => inr []
         | [x] => item x
         | x :: rest =>
             match item x with
             | inl e => inl e
             | inr s =>
                 match join rest with
                 | inl e => inl e
                 | inr t => inr (s ++ lit "," ++ t)
                 end
             end
         end) elements
  | JObj fields =>
      match assoc (lit "toString") fields with
      | Some _ => inl (mkError msg_not_primitive)
      | None => inr (lit "[object Object]")
      end
  end.

Record Response : Type := mkResponse {
  status : N;
  statusText : jsstring;
  (** [headers.get('content-type')]; [None] is [null] *)
  content_type : option jsstring;
  (** the outcome of [await response.text()] *)
  text : Error + jsstring;
  (** the outcome of [await response.json()] *)
  json_body : Error + json;
}.

(** [response.ok] *)
Definition ok (r : Response) : bool := (200 <=? status r) && (status r <=? 299).

(** The second argument of [fetch]; [body] holds the value that the caller
    hands to [JSON.stringify]. *)
Record RequestInit : Type := mkRequestInit {
  method : option jsstring;
  headers : list (jsstring * jsstring);
  body : option json;
}.

(** The network: what a call of [fetch] does, given its two arguments. *)
Definition Network : Type := jsstring -> RequestInit -> Error + Response.

Inductive level : Type := Log | Warn | Err.

(** An argument of a console call. *)
Inductive arg : Type :=
| AStr (s : jsstring)
| ANum (n : N)
| ABool (b : bool)
| ANull
| AJson (v : json)
| AError (e : Error)
| AStack (e : Error).     (* [e.stack] *)

(** The observable effects of the two components. *)
Inductive event : Type :=
| PreventDefault
| Console (l : level) (args : list arg)
| Fetch (url : jsstring) (init : RequestInit)
| Alert (msg : jsstring)
| OnSuccess (applicationId : json)
| RouterPush (url : jsstring).

Definition is_fetch (e : event) : bool :=
  match e with Fetch _ _ => true | _ => false end.

(** ** Computations

    An asynchronous function of a component, run to completion: it reads
    and updates the component state, emits effects in order, and either
    returns or throws. *)
Definition M (St A : Type) : Type := St -> (Error + A) * St * list event.

Definition ret {St A} (a : A) : M St A := fun st => (inr a, st, []).

Definition bind {St A B} (c : M St A) (k : A -> M St B) : M St B :=
  fun st =>
    match c st with
    | (inl e, st', tr) => (inl e, st', tr)
    | (inr a, st', tr) =>
        let '(r, st'', tr') := k a st' in (r, st'', tr ++ tr')
    end.

Definition throw {St A} (e : Error) : M St A := fun st => (inl e, st, []).

Definition emit {St} (ev : event) : M St unit := fun st => (inr tt, st, [ev]).

Definition modify {St} (f : St -> St) : M St unit := fun st => (inr tt, f st, []).

Definition read {St} : M St St := fun st => (inr st, st, []).

(** [try { c } catch (e) { h e }] *)
Definition try_catch {St A} (c : M St A) (h : Error -> M St A) : M St A :=
  fun st =>
    match c st with
    | (inl e, st', tr) =>
        let '(r, st'', tr') := h e st' in (r, st'', tr ++ tr')
    | (inr a, st', tr) => (inr a, st', tr)
    end.

(** [try { c } finally { f }], for an [f] that completes normally. *)
Definition try_finally {St A} (c : M St A) (f : M St unit) : M St A :=
  fun st =>
    let '(r, st', tr) := c st in
    match f st' with
    | (inl e, st'', tr') => (inl e, st'', tr ++ tr')
    | (inr _, st'', tr') => (r, st'', tr ++ tr')
    end.

(** Awaiting a promise that has settled. *)
Definition await {St A} (p : Error + A) : M St A :=
  match p with inl e => throw e | inr a => ret a end.

Definition console {St} (l : level) (args : list arg) : M St unit :=
  emit (Console l args).

Declare Scope js_scope.
Delimit Scope js_scope with js.
Notation "'let*' x ':=' c 'in' k" := (bind c (fun x => k))
  (at level 10, x name, c at level 100, k at level 200) : js_scope.
Notation "c1 ';;;' c2" := (bind c1 (fun _ => c2))
  (at level 100, c2 at level 200, right associativity) : js_scope.

Definition trace {St A} (r : (Error + A) * St * list event) : list event := r.2.
Definition final {St A} (r : (Error + A) * St * list event) : St := r.1.2.
Definition outcome {St A} (r : (Error + A) * St * list event) : Error + A := r.1.1.

Definition fetch {St} (net : Network) (url : jsstring) (init : RequestInit)
  : M St Response :=
  (emit (Fetch url init) ;;; await (net url init))%js.

(** [contentType.includes('application/json')], guarded by [!contentType] *)
Definition is_json_type (contentType : option jsstring) : bool :=
  match contentType with
  | None => false
  | Some ct => str_truthy ct && includes ct (lit "application/json")
  end.

(** ** The Submitter: [components/forms/ApplicationForm.tsx] *)

Module ApplicationForm.

Record FormData : Type := mkFormData {
  fullName : jsstring;
  email : jsstring;
  phone : jsstring;
  resume : jsstring;
  coverLetter : jsstring;
}.

(** [JobPost], from [components/ui/JobCard.tsx]; the form reads [id] only. *)
Record JobPost : Type := mkJobPost {
  id : jsstring;
  title : jsstring;
  company : jsstring;
  location : jsstring;
}.

(** The props; [onSuccess] tells whether the optional callback is given. *)
Record Props : Type := mkProps {
  job : JobPost;
  onSuccess : bool;
}.

Record State : Type := mkState {
  formData : FormData;
  errors : gmap jsstring jsstring;
  isSubmitting : bool;
}.

Definition initial : State :=
  mkState (mkFormData [] [] [] [] []) ∅ false.

Definition setErrors (f : gmap jsstring jsstring -> gmap jsstring jsstring)
  : State -> State :=
  fun st => mkState (formData st) (f (errors st)) (isSubmitting st).

Definition setIsSubmitting (b : bool) : State -> State :=
  fun st => mkState (formData st) (errors st) b.

(** [/\S+@\S+\.\S+/] *)
Definition emailPattern : regex :=
  Seq (Plus NonSpace)
    (Seq (Chr 64) (Seq (Plus NonSpace) (Seq (Chr 46) (Plus NonSpace)))).

(** The object [newErrors] that [validateForm] builds. *)
Definition newErrors (fd : FormData) : gmap jsstring jsstring :=
  let e : gmap jsstring jsstring := ∅ in
  let e :=
    if negb (str_truthy (trim (fullName fd)))
    then <[lit "fullName" := lit "Full name is required"]> e else e in
  let e :=
    if negb (str_truthy (trim (email fd)))
    then <[lit "email" := lit "Email is required"]> e
    else if negb (test emailPattern (email fd))
    then <[lit "email" := lit "Email is invalid"]> e else e in
  let e :=
    if negb (str_truthy (trim (phone fd)))
    then <[lit "phone" := lit "Phone number is required"]> e else e in
  let e :=
    if negb (str_truthy (resume fd))
    then <[lit "resume" := lit "Resume is required"]> e else e in
  e.

Definition validateForm (fd : FormData) : M State bool :=
  (modify (setErrors (fun _ => newErrors fd)) ;;;
   ret (Nat.eqb (size (newErrors fd)) 0))%js.

(** [{ jobId: job.id, ...formData }], the value handed to [JSON.stringify] *)
Definition payload (j : JobPost) (fd : FormData) : json :=
  JObj [ (lit "jobId", JStr (id j));
         (lit "fullName", JStr (fullName fd));
         (lit "email", JStr (email fd));
         (lit "phone", JStr (phone fd));
         (lit "resume", JStr (resume fd));
         (lit "coverLetter", JStr (coverLetter fd)) ].

Definition request (j : JobPost) (fd : FormData) : RequestInit :=
  {| method := Some (lit "POST");
     headers := [ (lit "Content-Type", lit "application/json") ];
     body := Some (payload j fd) |}.

Definition primary_url : jsstring := lit "/api/applications".
Definition fallback_url : jsstring := lit "/api/test-application".

Definition msg_non_json (r : Response) : jsstring :=
  lit "Server returned non-JSON response (" ++ decimal (status r)
    ++ lit "). Please check server logs.".
Definition msg_parse : jsstring :=
  lit "Failed to parse server response. Please try again.".
Definition msg_status (r : Response) : jsstring :=
  lit "Server returned error (" ++ decimal (status r) ++ lit ")".
Definition msg_invalid : jsstring :=
  lit "Server returned invalid data. Please try again.".
Definition msg_failed : jsstring :=
  lit "Failed to submit application. Please try again.".
Definition msg_test_mode : jsstring :=
  lit "Your application was submitted in test mode. In a production environment, this would be saved to a database.".

(** The primary request and, when it throws, the fallback request; the
    result carries [usedFallback]. *)
Definition send (net : Network) (j : JobPost) (fd : FormData)
  : M State (Response * bool) :=
  (try_catch
     (console Log [AStr (lit "Trying primary API endpoint...")] ;;;
      let* response := fetch net primary_url (request j fd) in
      console Log [AStr (lit "Primary API response status:");
                   ANum (status response)] ;;;
      ret (response, false))
     (fun primaryError =>
      console Err [AStr (lit "Primary API endpoint failed:");
                   AError primaryError] ;;;
      console Log [AStr (lit "Trying fallback test API endpoint...")] ;;;
      let* response := fetch net fallback_url (request j fd) in
      console Log [AStr (lit "Fallback API response status:");
                   ANum (status response)] ;;;
      ret (response, true)))%js.

(** [data && data.error ? data.error : `Server returned error (...)`]
    (lines 171-173) *)
Definition errorMessage (r : Response) (data : json) : json :=
  match (if truthy data then get data (lit "error") else None) with
  | Some err => if truthy err then err else JStr (msg_status r)
  | None => JStr (msg_status r)
  end.

(** [new Error(v)]: the message is [ToString(v)]; when that conversion
    throws, no [Error] is built. *)
Definition new_Error `{Runtime} (v : json) : Error + Error :=
  match ToString v with
  | inl e => inl e
  | inr m => inr (mkError m)
  end.

(** Lines 149-175: content type, then parse, then status. *)
Definition check_response `{Runtime} (response : Response) : M State json :=
  (let contentType := content_type response in
   if negb (is_json_type contentType) then
     console Err [AStr (lit "Non-JSON response received:");
                  match contentType with Some ct => AStr ct | None => ANull end] ;;;
     let* responseText := await (text response) in
     console Err [AStr (lit "Response text (first 500 chars):");
                  AStr (substring0 500 responseText)] ;;;
     throw (mkError (msg_non_json response))
   else
     let* data :=
       try_catch
         (let* data := await (json_body response) in
          console Log [AStr (lit "Response data:"); AJson data] ;;;
          ret data)
         (fun parseError =>
          console Err [AStr (lit "Error parsing JSON response:");
                       AError parseError] ;;;
          throw (mkError msg_parse)) in
     if negb (ok response) then
       let* error := await (new_Error (errorMessage response data)) in
       throw error
     else ret data)%js.

(** [data.application.id] when [data], [data.application] and
    [data.application.id] are all truthy (line 178). *)
Definition application_id (data : json) : option json :=
  if negb (truthy data) then None else
  match get data (lit "application") with
  | None => None
  | Some application =>
      if negb (truthy application) then None else
      match get application (lit "id") with
      | None => None
      | Some i => if negb (truthy i) then None else Some i
      end
  end.

(** The template literal of line 195. *)
Definition success_url `{Runtime} (j : JobPost) (i : json) (usedFallback : bool)
  : Error + jsstring :=
  match ToString i with
  | inl e => inl e
  | inr applicationId =>
      inr (lit "/jobs/" ++ id j ++ lit "/application-success?applicationId="
             ++ applicationId
             ++ (if usedFallback then lit "&testMode=true" else []))
  end.

(** Lines 149-196: what the handler does with the response it received. *)
Definition conclude `{Runtime} (p : Props) (response : Response)
    (usedFallback : bool) : M State unit :=
  (let* data := check_response response in
   match application_id data with
   | None =>
       console Err [AStr (lit "Invalid response data:"); AJson data] ;;;
       throw (mkError msg_invalid)
   | Some i =>
       console Log [AStr (lit "Application submitted successfully:");
                    AJson i] ;;;
       (if usedFallback then emit (Alert msg_test_mode) else ret tt) ;;;
       if onSuccess p then emit (OnSuccess i)
       else
         let* url := await (success_url (job p) i usedFallback) in
         emit (RouterPush url)
   end)%js.

(** The two console lines that open the outer [try] (lines 108-109). *)
Definition opening_log (p : Props) (fd : FormData) : list event :=
  [Console Log [AStr (lit "Submitting application for job:");
                AStr (id (job p))];
   Console Log [AStr (lit "Form data:");
                AJson (JObj [ (lit "fullName", JStr (fullName fd));
                              (lit "email", JStr (email fd));
                              (lit "phone", JStr (phone fd));
                              (lit "resume",
                               JStr (if str_truthy (resume fd)
                                     then lit "File selected"
                                     else lit "No file"));
                              (lit "coverLetter", JStr (coverLetter fd)) ])]].

(** The body of the outer [try] (lines 108-196). *)
Definition attempt `{Runtime} (net : Network) (p : Props) (fd : FormData)
  : M State unit :=
  (console Log [AStr (lit "Submitting application for job:");
                AStr (id (job p))] ;;;
   console Log [AStr (lit "Form data:");
                AJson (JObj [ (lit "fullName", JStr (fullName fd));
                              (lit "email", JStr (email fd));
                              (lit "phone", JStr (phone fd));
                              (lit "resume",
                               JStr (if str_truthy (resume fd)
                                     then lit "File selected"
                                     else lit "No file"));
                              (lit "coverLetter", JStr (coverLetter fd)) ])] ;;;
   let* sent := send net (job p) fd in
   let response := sent.1 in
   let usedFallback := sent.2 in
   conclude p response usedFallback)%js.

(** The outer [catch] (lines 197-202). *)
Definition report (error : Error) : M State unit :=
  (console Err [AStr (lit "Error submitting application:"); AError error] ;;;
   modify (setErrors (fun prev =>
     <[lit "submit" :=
         if str_truthy (message error) then message error else msg_failed]> prev)))%js.

Definition msg_job_id : jsstring :=
  lit "Job ID is missing. Please try again or contact support.".

Definition handleSubmit `{Runtime} (net : Network) (p : Props) : M State unit :=
  (emit PreventDefault ;;;
   let* st := read in
   let fd := formData st in
   let* valid := validateForm fd in
   if negb valid then ret tt
   else if negb (str_truthy (id (job p))) then
     modify (setErrors (fun prev => <[lit "submit" := msg_job_id]> prev))
   else
     console Log [AStr (lit "Submitting application with job ID:");
                  AStr (id (job p))] ;;;
     console Log [AStr (lit "Is MongoDB ObjectId:");
                  ABool (isValidObjectId (id (job p)))] ;;;
     modify (setIsSubmitting true) ;;;
     try_finally
       (try_catch (attempt net p fd) report)
       (modify (setIsSubmitting false)))%js.

End ApplicationForm.

(** ** The Viewer: [app/user/applications/page.tsx] *)

Module ApplicationsPage.

(** The page state.  [applications] holds the records as they arrived: the
    parsed array is stored without any check against [Application]. *)
Record State : Type := mkState {
  applications : list json;
  isLoading : bool;
  error : option jsstring;
}.

Definition initial : State := mkState [] true None.

Definition setApplications (l : list json) : State -> State :=
  fun st => mkState l (isLoading st) (error st).
Definition setIsLoading (b : bool) : State -> State :=
  fun st => mkState (applications st) b (error st).
Definition setError (e : jsstring) : State -> State :=
  fun st => mkState (applications st) (isLoading st) (Some e).

(** What the page reads from its surroundings: the stored credential
    ([getAuthToken], from [app/uitlis/auth]) and the clock, which the
    fallback records consult twice ([new Date()] and [Date.now()]). *)
Record Env : Type := mkEnv {
  token : option jsstring;
  date_new : Z;
  date_now : Z;
}.

Definition applications_url : jsstring := lit "/api/user/applications".

Definition request (tok : jsstring) : RequestInit :=
  {| method := None;
     headers := [ (lit "Authorization", lit "Bearer " ++ tok) ];
     body := None |}.

(** The literal [mockApplications] of lines 128-161. *)
Definition mockApplications `{Runtime} (env : Env) : list json :=
  [ JObj [ (lit "id", JStr (lit "app1"));
           (lit "jobId", JStr (lit "1"));
           (lit "fullName", JStr (lit "John Doe"));
           (lit "email", JStr (lit "john@example.com"));
           (lit "phone", JStr (lit "1234567890"));
           (lit "resume", JStr (lit "resume.pdf"));
           (lit "appliedDate", JStr (toISOString (date_new env)));
           (lit "status", JStr (lit "pending"));
           (lit "job", JObj [ (lit "title", JStr (lit "Frontend Developer"));
                              (lit "company", JStr (lit "Tech Corp"));
                              (lit "location", JStr (lit "Remote"));
                              (lit "type", JStr (lit "Full-time")) ]) ];
    JObj [ (lit "id", JStr (lit "app2"));
           (lit "jobId", JStr (lit "2"));
           (lit "fullName", JStr (lit "John Doe"));
           (lit "email", JStr (lit "john@example.com"));
           (lit "phone", JStr (lit "1234567890"));
           (lit "resume", JStr (lit "resume.pdf"));
           (lit "appliedDate",
            JStr (toISOString (date_now env - 7 * 24 * 60 * 60 * 1000)%Z));
           (lit "status", JStr (lit "interview"));
           (lit "job", JObj [ (lit "title", JStr (lit "Backend Developer"));
                              (lit "company", JStr (lit "Software Inc"));
                              (lit "location", JStr (lit "New York"));
                              (lit "type", JStr (lit "Full-time")) ]) ] ].

Definition msg_status (r : Response) : jsstring :=
  lit "Failed to fetch applications: " ++ decimal (status r).
Definition msg_non_json : jsstring := lit "Server returned non-JSON response".
Definition msg_null : jsstring :=
  lit "Cannot read properties of null (reading 'applications')".
Definition msg_page : jsstring :=
  lit "Failed to load your applications. Please try again later.".

(** Lines 96-110: status, then content type, then parse. *)
Definition check_response (response : Response) : M State json :=
  (console Log [AStr (lit "API response status:"); ANum (status response)] ;;;
   if negb (ok response) then
     console Err [AStr (lit "API error: " ++ decimal (status response)
                          ++ lit " " ++ statusText response)] ;;;
     throw (mkError (msg_status response))
   else
     let contentType := content_type response in
     if negb (is_json_type contentType) then
       console Err [AStr (lit "Non-JSON response received:");
                    match contentType with Some ct => AStr ct | None => ANull end] ;;;
       throw (mkError msg_non_json)
     else
       let* data := await (json_body response) in
       console Log [AStr (lit "Applications data received:"); AJson data] ;;;
       ret data)%js.

Definition elements_of (v : json) : list json :=
  match v with JArr elements => elements | _ => [] end.

(** Lines 113-118.  Reading [data.applications] raises a TypeError when
    [data] is [null]. *)
Definition store (data : json) : M State unit :=
  (match data with
   | JNull => throw (mkError msg_null)
   | _ =>
       let applications := get data (lit "applications") in
       if truthy_opt applications && from_option isArray false applications
       then modify (setApplications (from_option elements_of [] applications))
       else
         console Warn [AStr (lit "No applications array in response or empty applications array")] ;;;
         modify (setApplications [])
   end)%js.

(** The inner [catch] (lines 119-164).  Whatever is thrown in the models
    of this file is an [Error], so the [instanceof] test of line 121
    succeeds. *)
Definition fall_back `{Runtime} (env : Env) (fetchError : Error) : M State unit :=
  (console Err [AStr (lit "API fetch error:"); AError fetchError] ;;;
   console Err [AStr (lit "Error details:"); AStr (message fetchError)] ;;;
   console Err [AStr (lit "Error stack:"); AStack fetchError] ;;;
   console Log [AStr (lit "Using mock application data as fallback")] ;;;
   modify (setApplications (mockApplications env)))%js.

(** The body of the inner [try] (lines 88-118). *)
Definition load (net : Network) (tok : jsstring) : M State unit :=
  (console Log [AStr (lit "Making authenticated API request...")] ;;;
   let* response := fetch net applications_url (request tok) in
   let* data := check_response response in
   store data)%js.

Definition fetchApplications `{Runtime} (net : Network) (env : Env)
  : M State unit :=
  (try_finally
     (try_catch
        (modify (setIsLoading true) ;;;
         console Log [AStr (lit "Fetching applications from API...")] ;;;
         let token := token env in
         if negb (from_option str_truthy false token) then
           console Err [AStr (lit "No authentication token found")] ;;;
           throw (mkError (lit "Authentication required"))
         else
           try_catch (load net (default [] token)) (fall_back env))
        (fun error =>
         console Err [AStr (lit "Error in application fetching process:");
                      AError error] ;;;
         modify (setError msg_page)))
     (modify (setIsLoading false)))%js.

(** The nested [job] of an application record. *)
Record Job : Type := mkJob {
  title : jsstring;
  company : jsstring;
  location : jsstring;
}.

(** [interface Application].  [status] is declared as a union of five
    literals; at run time it is whatever string the backend sent. *)
Record Application : Type := mkApplication {
  id : jsstring;
  jobId : jsstring;
  appliedDate : jsstring;
  status : jsstring;
  job : option Job;           (* [None] is [null] *)
}.

Inductive UIStatus : Type := applied | interview | rejected | offer.

Inductive Filter : Type :=
  f_all | f_applied | f_interview | f_offer | f_rejected.

(** The strings that the values of the two union types are at run time. *)
Definition UIStatus_str (u : UIStatus) : jsstring :=
  match u with
  | applied => lit "applied"
  | interview => lit "interview"
  | rejected => lit "rejected"
  | offer => lit "offer"
  end.

Definition Filter_str (f : Filter) : jsstring :=
  match f with
  | f_all => lit "all"
  | f_applied => lit "applied"
  | f_interview => lit "interview"
  | f_offer => lit "offer"
  | f_rejected => lit "rejected"
  end.

(** Map backend status to UI status. *)
Definition mapStatus (status : jsstring) : UIStatus :=
  if str_eqb status (lit "pending") then applied
  else if str_eqb status (lit "reviewed") then applied
  else if str_eqb status (lit "interview") then interview
  else if str_eqb status (lit "rejected") then rejected
  else if str_eqb status (lit "accepted") then offer
  else applied.

(** [x || d] on a string that may be [undefined] *)
Definition or_default (x : option jsstring) (d : jsstring) : jsstring :=
  match x with
  | Some s => if str_truthy s then s else d
  | None => d
  end.

(** The callback of [applications.filter] at lines 177-197. *)
Definition keep `{Runtime} (activeFilter : Filter) (searchQuery : jsstring)
    (app : Application) : bool :=
  if negb (str_eqb (Filter_str activeFilter) (lit "all"))
     && negb (str_eqb (UIStatus_str (mapStatus (status app)))
                      (Filter_str activeFilter))
  then false
  else if str_truthy searchQuery then
    let query := toLowerCase searchQuery in
    includes (toLowerCase (or_default (title <$> job app) [])) query
    || includes (toLowerCase (or_default (company <$> job app) [])) query
    || includes (toLowerCase (or_default (location <$> job app) [])) query
  else true.

Definition filteredApplications `{Runtime} (applications : list Application)
    (activeFilter : Filter) (searchQuery : jsstring) : list Application :=
  List.filter (keep activeFilter searchQuery) applications.

(** A row of the table. *)
Record Row : Type := mkRow {
  row_id : jsstring;
  row_title : jsstring;
  row_company : jsstring;
  row_location : jsstring;
  row_status : UIStatus;
  row_date : jsstring;
}.

Definition formatApplicationsForTable `{Runtime} (applications : list Application)
  : list Row :=
  List.map (fun app =>
    {| row_id := id app;
       row_title := or_default (title <$> job app) (lit "Unknown Job");
       row_company := or_default (company <$> job app) (lit "Unknown Company");
       row_location := or_default (location <$> job app) (lit "Unknown Location");
       row_status := mapStatus (status app);
       row_date := toLocaleDateString (appliedDate app) |}) applications.

End ApplicationsPage.

(** ** Which check rejects a response

    Both components subject a response to three checks before they use its
    body.  A verdict names the check that rejected the response, or carries
    the parsed body when all three passed. *)
Inductive verdict : Type :=
| rejected_status                (* [!response.ok] *)
| rejected_type                  (* the content type is not JSON *)
| rejected_parse                 (* [response.json()] threw *)
| accepted (data : json).

(** The Submitter: content type, parse, status (lines 149-175). *)
Definition submitter_verdict (r : Response) : verdict :=
  if negb (is_json_type (content_type r)) then rejected_type
  else match json_body r with
       | inl _ => rejected_parse
       | inr data => if negb (ok r) then rejected_status else accepted data
       end.

(** The Viewer: status, content type, parse (lines 96-110). *)
Definition viewer_verdict (r : Response) : verdict :=
  if negb (ok r) then rejected_status
  else if negb (is_json_type (content_type r)) then rejected_type
  else match json_body r with
       | inl _ => rejected_parse
       | inr data => accepted data
       end.

(** ** A runtime to run the scenarios on

    Case mapping of the Basic Latin letters; numbers and dates rendered by
    their integral value; a 24-digit hexadecimal check of object ids. *)
Definition ascii_toLowerCase (s : jsstring) : jsstring :=
  List.map (fun c => if (65 <=? c) && (c <=? 90) then c + 32 else c) s.

Definition integral_toString (x : spec_float) : jsstring :=
  match x with
  | S754_zero _ => lit "0"
  | S754_nan => lit "NaN"
  | S754_infinity false => lit "Infinity"
  | S754_infinity true => lit "-Infinity"
  | S754_finite s m e =>
      (if s then lit "-" else [])
        ++ decimal (Z.to_N (Z.shiftl (Z.pos m) e))
  end.

Definition hex24 (s : jsstring) : bool :=
  Nat.eqb (length s) 24
  && forallb (fun c => ((48 <=? c) && (c <=? 57))
                       || ((65 <=? c) && (c <=? 70))
                       || ((97 <=? c) && (c <=? 102))) s.

Definition example_runtime : Runtime :=
  {| toLowerCase := ascii_toLowerCase;
     toLowerCase_empty := eq_refl;
     toLowerCase_nonempty := fun s H E => H (List.map_eq_nil _ s E);
     Number_toString := integral_toString;
     toISOString := fun ms => decimal (Z.to_N ms);
     toLocaleDateString := fun s => s;
     isValidObjectId := hex24 |}.

(** A runtime that also lower-cases the Greek capital sigma, as the
    case mapping of [String.prototype.toLowerCase] does (the Final_Sigma
    rule of Unicode's SpecialCasing): to the final sigma when a cased letter
    precedes it and none follows it, to the small sigma otherwise.  It is
    the host's mapping on words made of Basic Latin letters and sigmas. *)
Definition is_cased (c : N) : bool :=
  ((65 <=? c) && (c <=? 90)) || ((97 <=? c) && (c <=? 122))
  || (c =? 931) || (c =? 962) || (c =? 963).

Fixpoint sigma_toLowerCase_from (after_cased : bool) (s : jsstring) : jsstring :=
  match s with
  | [] => []
  | c :: rest =>
      (if c =? 931 then
         if after_cased
            && negb (match rest with d :: _ => is_cased d | [] => false end)
         then 962 else 963
       else if (65 <=? c) && (c <=? 90) then c + 32 else c)
        :: sigma_toLowerCase_from (is_cased c) rest
  end.

Definition sigma_toLowerCase (s : jsstring) : jsstring :=
  sigma_toLowerCase_from false s.

Definition sigma_runtime : Runtime :=
  {| toLowerCase := sigma_toLowerCase;
     toLowerCase_empty := eq_refl;
     toLowerCase_nonempty := fun s H E =>
       H (match s return sigma_toLowerCase s = [] -> s = [] with
          | [] => fun _ => eq_refl
          | c :: rest => fun E' => match nil_cons (eq_sym E') with end
          end E);
     Number_toString := integral_toString;
     toISOString := fun ms => decimal (Z.to_N ms);
     toLocaleDateString := fun s => s;
     isValidObjectId := hex24 |}.

(** ** The vocabulary of the specification *)

(** "Empty after trimming". *)
Definition blank (s : jsstring) : Prop := trim s = [].

(** "One or more non-space characters". *)
Definition nonspaces (s : jsstring) : Prop :=
  s <> [] /\ Forall (fun c => isWhiteSpace c = false) s.

(** "One or more non-space characters, '@', one or more non-space
    characters, '.', one or more non-space characters". *)
Definition email_shape (m : jsstring) : Prop :=
  exists a b c,
    nonspaces a /\ nonspaces b /\ nonspaces c /\
    m = a ++ [64] ++ b ++ [46] ++ c.

(** A string matches the pattern, in the sense of [RegExp.prototype.test],
    when the pattern occurs in it. *)
Definition matches_email_pattern (s : jsstring) : Prop :=
  exists pre m post, s = pre ++ m ++ post /\ email_shape m.

(** A form input is well formed when every required field passes its
    check. *)
Definition well_formed (fd : ApplicationForm.FormData) : Prop :=
  ~ blank (ApplicationForm.fullName fd)
  /\ ~ blank (ApplicationForm.email fd)
  /\ matches_email_pattern (ApplicationForm.email fd)
  /\ ~ blank (ApplicationForm.phone fd)
  /\ ApplicationForm.resume fd <> [].

(** The error key [k] belongs to a required field that the input omits. *)
Definition omitted (fd : ApplicationForm.FormData) (k : jsstring) : Prop :=
  (k = lit "fullName" /\ blank (ApplicationForm.fullName fd))
  \/ (k = lit "email" /\ blank (ApplicationForm.email fd))
  \/ (k = lit "phone" /\ blank (ApplicationForm.phone fd))
  \/ (k = lit "resume" /\ ApplicationForm.resume fd = []).

(** An e-mail address is given, but the pattern does not occur in it. *)
Definition malformed_email (fd : ApplicationForm.FormData) : Prop :=
  ~ blank (ApplicationForm.email fd)
  /\ ~ matches_email_pattern (ApplicationForm.email fd).

(** The body is an object that contains an [application] object with the
    non-empty [id] [i]. *)
Definition has_application_id (data : json) (i : json) : Prop :=
  exists fields afields,
    data = JObj fields
    /\ assoc (lit "application") fields = Some (JObj afields)
    /\ assoc (lit "id") afields = Some i
    /\ truthy i = true.

(** What the Submitter throws at line 174 for a parsed body that arrived
    without a success status. *)
Definition status_error `{Runtime} (r : Response) (data : json) : Error :=
  match ApplicationForm.new_Error (ApplicationForm.errorMessage r data) with
  | inl e => e
  | inr e => e
  end.

(** Completion is signalled by the callback or by the navigation. *)
Definition is_completion (e : event) : bool :=
  match e with OnSuccess _ | RouterPush _ => true | _ => false end.

(** What the user is shown or told: alerts and completion. *)
Definition is_notice (e : event) : bool :=
  match e with Alert _ | OnSuccess _ | RouterPush _ => true | _ => false end.

(** The title, company or location of a record: that field of its job,
    and the empty string when the record has no job. *)
Definition searched (field : ApplicationsPage.Job -> jsstring)
    (app : ApplicationsPage.Application) : jsstring :=
  match ApplicationsPage.job app with
  | Some j => field j
  | None => []
  end.

(** The lower-case form of [q] occurs in the lower-case form of [s]. *)
Definition occurs_lowered `{Runtime} (q s : jsstring) : Prop :=
  exists pre post, toLowerCase s = pre ++ toLowerCase q ++ post.

(** [a] and [b] are the same up to the case of their letters. *)
Definition same_up_to_case `{Runtime} (a b : jsstring) : Prop :=
  toLowerCase a = toLowerCase b.

(** [q] is a case-insensitive substring of [s]: some substring of [s] is
    [q] up to the case of its letters. *)
Definition ci_substring `{Runtime} (q s : jsstring) : Prop :=
  exists pre m post, s = pre ++ m ++ post /\ same_up_to_case m q.

(** Basic Latin text. *)
Definition is_ascii (s : jsstring) : Prop := Forall (fun c => c < 128) s.

(** The host lower-cases Basic Latin text letter by letter, as
    [String.prototype.toLowerCase] does. *)
Definition lowers_ascii `{Runtime} : Prop :=
  forall s, is_ascii s -> toLowerCase s = ascii_toLowerCase s.

(** The status predicate: [all] accepts everything, any other filter
    compares against the mapped status. *)
Definition status_ok (f : ApplicationsPage.Filter)
    (app : ApplicationsPage.Application) : Prop :=
  f = ApplicationsPage.f_all
  \/ ApplicationsPage.UIStatus_str
       (ApplicationsPage.mapStatus (ApplicationsPage.status app))
     = ApplicationsPage.Filter_str f.

(** The search predicate. *)
Definition search_ok `{Runtime} (q : jsstring)
    (app : ApplicationsPage.Application) : Prop :=
  q = []
  \/ occurs_lowered q (searched ApplicationsPage.title app)
  \/ occurs_lowered q (searched ApplicationsPage.company app)
  \/ occurs_lowered q (searched ApplicationsPage.location app).

(** The search predicate, with the case-insensitive substring in place of
    the occurrence of the lower-case forms. *)
Definition search_ok_ci `{Runtime} (q : jsstring)
    (app : ApplicationsPage.Application) : Prop :=
  q = []
  \/ ci_substring q (searched ApplicationsPage.title app)
  \/ ci_substring q (searched ApplicationsPage.company app)
  \/ ci_substring q (searched ApplicationsPage.location app).

(** The response that the handler ends up with, and whether it came from
    the fallback endpoint; [inl] when both requests threw. *)
Definition delivered (net : Network) (j : ApplicationForm.JobPost)
    (fd : ApplicationForm.FormData) : Error + Response * bool :=
  outcome (ApplicationForm.send net j fd ApplicationForm.initial).

(** A predicate on effects that ignores the console and [preventDefault]. *)
Definition quiet (f : event -> bool) : Prop :=
  f PreventDefault = false /\ forall l args, f (Console l args) = false.

(** The ways in which the Viewer's fetch fails: the network, the status,
    the content type, the parse. *)
Inductive fetch_fails (answer : Error + Response) : Prop :=
| network_failure e : answer = inl e -> fetch_fails answer
| bad_status r : answer = inr r -> ok r = false -> fetch_fails answer
| non_json r :
    answer = inr r -> is_json_type (content_type r) = false ->
    fetch_fails answer
| parse_failure r e :
    answer = inr r -> json_body r = inl e -> fetch_fails answer.

(** ** Data for the scenarios *)

Definition ann : ApplicationForm.FormData :=
  ApplicationForm.mkFormData
    (lit "Ann Lee") (lit "a@b.com") (lit "555") (lit "cv.pdf") [].

Definition job_j1 : ApplicationForm.JobPost :=
  ApplicationForm.mkJobPost (lit "j1") (lit "Engineer") (lit "Acme") (lit "Remote").

(** The form for [job_j1], with or without an [onSuccess] callback. *)
Definition ann_applies (with_callback : bool) : ApplicationForm.Props :=
  ApplicationForm.mkProps job_j1 with_callback.

Definition ann_state : ApplicationForm.State :=
  ApplicationForm.mkState ann ∅ false.

(** A network on which every request is refused. *)
Definition offline : Network := fun _ _ => inl (mkError (lit "Failed to fetch")).

(** A JSON response with the given status and body. *)
Definition json_response (st : N) (data : json) : Response :=
  {| status := st;
     statusText := [];
     content_type := Some (lit "application/json");
     text := inr [];
     json_body := inr data |}.

(** An HTML page served with the given status. *)
Definition html_response (st : N) : Response :=
  {| status := st;
     statusText := [];
     content_type := Some (lit "text/html");
     text := inr (lit "<html></html>");
     json_body := inl (mkError (lit "Unexpected token '<'")) |}.

(** An HTML page with status 502 whose text cannot be read. *)
Definition unreadable_502 : Response :=
  {| status := 502;
     statusText := [];
     content_type := Some (lit "text/html");
     text := inl (mkError (lit "body stream already read"));
     json_body := inl (mkError (lit "body stream already read")) |}.

(** [{application: {id: "x1"}}] *)
Definition created_x1 : json :=
  JObj [ (lit "application", JObj [ (lit "id", JStr (lit "x1")) ]) ].


(** The primary endpoint refuses the connection; the fallback endpoint
    answers with [r]. *)
Definition primary_down (r : Response) : Network :=
  fun url _ =>
    if str_eqb url ApplicationForm.primary_url
    then inl (mkError (lit "Failed to fetch"))
    else inr r.

(** Every request is answered with [r]. *)
Definition always (r : Response) : Network := fun _ _ => inr r.

(** A signed-in visitor at a fixed time. *)
Definition signed_in : ApplicationsPage.Env :=
  ApplicationsPage.mkEnv (Some (lit "tok-1")) 1700000000000 1700000000000.

(** The record of the filtering scenario: accepted, with a job. *)
Definition record_a1 : ApplicationsPage.Application :=
  ApplicationsPage.mkApplication (lit "a1") (lit "7") (lit "2024-05-01")
    (lit "accepted")
    (Some (ApplicationsPage.mkJob (lit "X") (lit "Y") (lit "Z"))).

(** A record whose title ends in a capital sigma. *)
Definition record_sigma : ApplicationsPage.Application :=
  ApplicationsPage.mkApplication (lit "a3") (lit "9") (lit "2024-05-03")
    (lit "pending")
    (Some (ApplicationsPage.mkJob [65; 931] (lit "Acme") (lit "Remote"))).

(** A record whose job posting is gone. *)
Definition record_orphan : ApplicationsPage.Application :=
  ApplicationsPage.mkApplication (lit "a2") (lit "8") (lit "2024-05-02")
    (lit "pending") None.

(** ** Editing the form: [handleChange] and [handleFileChange] *)

Module FormEditing.

(** The state of [ApplicationForm] in full: the three hooks that the
    submit handler works on, and [resumeFileName] (line 25). *)
Record Form : Type := mkForm {
  state : ApplicationForm.State;
  resumeFileName : jsstring;
}.

Definition initial : Form := mkForm ApplicationForm.initial [].

(** The inputs whose [onChange] is [handleChange] (lines 219, 238, 257 and
    308), by their [name] attribute. *)
Inductive InputName : Type := n_fullName | n_email | n_phone | n_coverLetter.

Definition name_str (name : InputName) : jsstring :=
  match name with
  | n_fullName => lit "fullName"
  | n_email => lit "email"
  | n_phone => lit "phone"
  | n_coverLetter => lit "coverLetter"
  end.

(** [{ ...prev, [name]: value }] *)
Definition set_field (name : InputName) (value : jsstring)
    (prev : ApplicationForm.FormData) : ApplicationForm.FormData :=
  match name with
  | n_fullName =>
      ApplicationForm.mkFormData value (ApplicationForm.email prev)
        (ApplicationForm.phone prev) (ApplicationForm.resume prev)
        (ApplicationForm.coverLetter prev)
  | n_email =>
      ApplicationForm.mkFormData (ApplicationForm.fullName prev) value
        (ApplicationForm.phone prev) (ApplicationForm.resume prev)
        (ApplicationForm.coverLetter prev)
  | n_phone =>
      ApplicationForm.mkFormData (ApplicationForm.fullName prev)
        (ApplicationForm.email prev) value (ApplicationForm.resume prev)
        (ApplicationForm.coverLetter prev)
  | n_coverLetter =>
      ApplicationForm.mkFormData (ApplicationForm.fullName prev)
        (ApplicationForm.email prev) (ApplicationForm.phone prev)
        (ApplicationForm.resume prev) value
  end.

(** [{ ...prev, resume: name }] *)
Definition set_resume (name : jsstring) (prev : ApplicationForm.FormData)
  : ApplicationForm.FormData :=
  ApplicationForm.mkFormData (ApplicationForm.fullName prev)
    (ApplicationForm.email prev) (ApplicationForm.phone prev) name
    (ApplicationForm.coverLetter prev).

Definition setFormData
    (f : ApplicationForm.FormData -> ApplicationForm.FormData)
  : Form -> Form :=
  fun form =>
    mkForm (ApplicationForm.mkState
              (f (ApplicationForm.formData (state form)))
              (ApplicationForm.errors (state form))
              (ApplicationForm.isSubmitting (state form)))
           (resumeFileName form).

Definition setErrors (f : gmap jsstring jsstring -> gmap jsstring jsstring)
  : Form -> Form :=
  fun form => mkForm (ApplicationForm.setErrors f (state form))
                     (resumeFileName form).

Definition setResumeFileName (name : jsstring) : Form -> Form :=
  fun form => mkForm (state form) name.

(** [errors[k]] as a condition: the key is there, with a non-empty text. *)
Definition has_error (errors : gmap jsstring jsstring) (k : jsstring) : bool :=
  from_option str_truthy false (errors !! k).

(** Lines 27-39.  [errors] is the object of the render in which the event
    fires. *)
Definition handleChange (name : InputName) (value : jsstring) : M Form unit :=
  (let* form := read in
   let errors := ApplicationForm.errors (state form) in
   modify (setFormData (set_field name value)) ;;;
   (* Clear error when user starts typing *)
   if has_error errors (name_str name)
   then modify (setErrors (fun prev => delete (name_str name) prev))
   else ret tt)%js.

(** A chosen file; the handler reads its name only. *)
Record File : Type := mkFile { name : jsstring }.

(** [e.target.files?.[0]]; [None] is [null] for the list and [undefined]
    for the file. *)
Definition first_file (files : option (list File)) : option File :=
  match files with
  | Some (file :: _) => Some file
  | _ => None
  end.

(** Lines 41-58. *)
Definition handleFileChange (files : option (list File)) : M Form unit :=
  (let* form := read in
   let errors := ApplicationForm.errors (state form) in
   match first_file files with
   | Some file =>
       modify (setFormData (set_resume (name file))) ;;;
       modify (setResumeFileName (name file)) ;;;
       (* Clear error *)
       if has_error errors (lit "resume")
       then modify (setErrors (fun prev => delete (lit "resume") prev))
       else ret tt
   | None => ret tt
   end)%js.

(** A handler of the three hooks, run on the full state. *)
Definition on_state {A} (c : M ApplicationForm.State A) : M Form A :=
  fun form =>
    let '(r, st, tr) := c (state form) in
    (r, mkForm st (resumeFileName form), tr).

Definition handleSubmit `{Runtime} (net : Network) (p : ApplicationForm.Props)
  : M Form unit :=
  on_state (ApplicationForm.handleSubmit net p).

(** What the user does with the form. *)
Inductive action : Type :=
| Change (name : InputName) (value : jsstring)
| ChooseFile (files : option (list File))
| Submit (net : Network).

Definition handle `{Runtime} (p : ApplicationForm.Props) (a : action)
  : M Form unit :=
  match a with
  | Change name value => handleChange name value
  | ChooseFile files => handleFileChange files
  | Submit net => handleSubmit net p
  end.

(** A sequence of events, each handled to completion before the next. *)
Fixpoint session `{Runtime} (p : ApplicationForm.Props) (l : list action)
  : M Form unit :=
  match l with
  | [] => ret tt
  | a :: l' => (handle p a ;;; session p l')%js
  end.

End FormEditing.

(** ** What the applications page shows *)

Module ApplicationsView.

(** Line 200. *)
Definition tableData `{Runtime} (applications : list ApplicationsPage.Application)
    (activeFilter : ApplicationsPage.Filter) (searchQuery : jsstring)
  : list ApplicationsPage.Row :=
  ApplicationsPage.formatApplicationsForTable
    (ApplicationsPage.filteredApplications applications activeFilter searchQuery).

(** The three things that lines 277-289 can put below the filter bar. *)
Inductive Body : Type :=
| Spinner                                   (* "Loading your applications..." *)
| JobsTable (jobs : list ApplicationsPage.Row)
| NoApplications.                           (* "You haven't applied to any jobs yet." *)

Definition body `{Runtime} (isLoading : bool)
    (applications : list ApplicationsPage.Application)
    (activeFilter : ApplicationsPage.Filter) (searchQuery : jsstring) : Body :=
  if isLoading then Spinner
  else if (0 <? length (tableData applications activeFilter searchQuery))%nat
  then JobsTable (tableData applications activeFilter searchQuery)
  else NoApplications.

(** The effect of lines 68-174; [authenticated] is the answer of
    [isAuthenticated], imported from [app/uitlis/auth]. *)
Definition mount `{Runtime} (authenticated : bool) (net : Network)
    (env : ApplicationsPage.Env) : M ApplicationsPage.State unit :=
  (if negb authenticated then
     console Log [AStr (lit "User not authenticated, redirecting to login")] ;;;
     emit (RouterPush (lit "/login"))
   else ApplicationsPage.fetchApplications net env)%js.

End ApplicationsView.

(** ** The filter on the records as they arrived

    The page stores the parsed array unchecked, so the callback of
    [applications.filter] runs on arbitrary JSON values.  This is the
    callback on such values; it throws where a property of [null] is read
    or where [toLowerCase] is called on something that is not a string. *)

Module RawRecords.

Definition msg_null (k : string) : jsstring :=
  lit "Cannot read properties of null (reading '" ++ lit k ++ lit "')".
Definition msg_toLowerCase : jsstring := lit "toLowerCase is not a function".

(** [mapStatus(app.status)]: the [switch] compares with [===], so only a
    string can hit a case. *)
Definition mapStatus (status : option json) : ApplicationsPage.UIStatus :=
  match status with
  | Some (JStr s) => ApplicationsPage.mapStatus s
  | _ => ApplicationsPage.applied
  end.

(** [app.job?.k], for [app] other than [null]. *)
Definition job_field (app : json) (k : jsstring) : option json :=
  match get app (lit "job") with
  | None | Some JNull => None
  | Some j => get j k
  end.

(** [(app.job?.k || '').toLowerCase()] *)
Definition lowered `{Runtime} (app : json) (k : string) : Error + jsstring :=
  match app with
  | JNull => inl (mkError (msg_null "job"))
  | _ =>
      match job_field app (lit k) with
      | Some v =>
          if truthy v then
            match v with
            | JStr s => inr (toLowerCase s)
            | _ => inl (mkError msg_toLowerCase)
            end
          else inr (toLowerCase [])
      | None => inr (toLowerCase [])
      end
  end.

(** The callback of lines 177-197. *)
Definition keep `{Runtime} (activeFilter : ApplicationsPage.Filter)
    (searchQuery : jsstring) (app : json) : Error + bool :=
  let search : Error + bool :=
    if str_truthy searchQuery then
      let query := toLowerCase searchQuery in
      match lowered app "title" with
      | inl e => inl e
      | inr t =>
          if includes t query then inr true else
          match lowered app "company" with
          | inl e => inl e
          | inr c =>
              if includes c query then inr true else
              match lowered app "location" with
              | inl e => inl e
              | inr l => inr (includes l query)
              end
          end
      end
    else inr true in
  if negb (str_eqb (ApplicationsPage.Filter_str activeFilter) (lit "all")) then
    match app with
    | JNull => inl (mkError (msg_null "status"))
    | _ =>
        if negb (str_eqb (ApplicationsPage.UIStatus_str
                            (mapStatus (get app (lit "status"))))
                         (ApplicationsPage.Filter_str activeFilter))
        then inr false
        else search
    end
  else search.

(** [applications.filter(callback)]: the first throw of the callback ends
    the call. *)
Fixpoint filteredApplications `{Runtime} (applications : list json)
    (activeFilter : ApplicationsPage.Filter) (searchQuery : jsstring)
  : Error + list json :=
  match applications with
  | [] => inr []
  | app :: rest =>
      match keep activeFilter searchQuery app with
      | inl e => inl e
      | inr b =>
          match filteredApplications rest activeFilter searchQuery with
          | inl e => inl e
          | inr kept => inr (if b then app :: kept else kept)
          end
      end
  end.

(** The value [v] has, in the properties that the filter reads, what the
    record [a] of [interface Application] has. *)
Definition conforms (v : json) (a : ApplicationsPage.Application) : Prop :=
  v <> JNull
  /\ get v (lit "status") = Some (JStr (ApplicationsPage.status a))
  /\ match ApplicationsPage.job a with
     | None => get v (lit "job") = Some JNull
     | Some j =>
         exists jv,
           get v (lit "job") = Some jv /\ jv <> JNull
           /\ get jv (lit "title") = Some (JStr (ApplicationsPage.title j))
           /\ get jv (lit "company") = Some (JStr (ApplicationsPage.company j))
           /\ get jv (lit "location") = Some (JStr (ApplicationsPage.location j))
     end.

End RawRecords.

(** ** The job card: [components/ui/JobCard.tsx] *)

Module JobCard.

(** The three hooks of the card, and [window.location.href], which two of
    its handlers assign. *)
Record State : Type := mkState {
  isSaved : bool;
  isSaving : bool;
  isUserLoggedIn : bool;
  href : jsstring;
}.

Definition setIsSaved (b : bool) : State -> State :=
  fun st => mkState b (isSaving st) (isUserLoggedIn st) (href st).
Definition setIsSaving (b : bool) : State -> State :=
  fun st => mkState (isSaved st) b (isUserLoggedIn st) (href st).
Definition setIsUserLoggedIn (b : bool) : State -> State :=
  fun st => mkState (isSaved st) (isSaving st) b (href st).
Definition setHref (url : jsstring) : State -> State :=
  fun st => mkState (isSaved st) (isSaving st) (isUserLoggedIn st) url.

(** What the card reads from its surroundings: [isAuthenticated] (from
    [app/uitlis/auth]), the stored token, the clock, and the two services
    of [app/uitlis/savedJobs], each of which settles with a boolean or
    throws. *)
Record Env : Type := mkEnv {
  isAuthenticated : bool;
  authToken : option jsstring;       (* [localStorage.getItem('authToken')] *)
  date_new : Z;
  saveJob : json -> Error + bool;
  removeSavedJob : jsstring -> Error + bool;
}.

Definition saved_jobs_url : jsstring := lit "/api/user/saved-jobs".

(** [`Bearer ${localStorage.getItem('authToken')}`] *)
Definition request (env : Env) : RequestInit :=
  {| method := None;
     headers := [ (lit "Authorization",
                   lit "Bearer " ++ default (lit "null") (authToken env)) ];
     body := None |}.

Definition msg_null (k : string) : jsstring :=
  lit "Cannot read properties of null (reading '" ++ lit k ++ lit "')".
Definition msg_some : jsstring :=
  lit "savedJobs.savedJobs.some is not a function".

(** [savedJobs.some(savedJob => savedJob.jobId === id)]: the entries are
    visited in order until one matches; reading [jobId] from [null]
    throws. *)
Fixpoint some_saved (id : jsstring) (savedJobs : list json) : Error + bool :=
  match savedJobs with
  | [] => inr false
  | JNull :: _ => inl (mkError (msg_null "jobId"))
  | savedJob :: rest =>
      match get savedJob (lit "jobId") with
      | Some (JStr s) => if str_eqb s id then inr true else some_saved id rest
      | _ => some_saved id rest
      end
  end.

(** Lines 47-50, on the parsed answer. *)
Definition record_saved (id : jsstring) (savedJobs : json) : M State unit :=
  match savedJobs with
  | JNull => throw (mkError (msg_null "success"))
  | _ =>
      if truthy_opt (get savedJobs (lit "success"))
         && truthy_opt (get savedJobs (lit "savedJobs"))
      then
        match get savedJobs (lit "savedJobs") with
        | Some (JArr entries) =>
            (let* jobIsSaved := await (some_saved id entries) in
             modify (setIsSaved jobIsSaved))%js
        | _ => throw (mkError msg_some)
        end
      else ret tt
  end.

(** Lines 38-55. *)
Definition checkIfJobIsSaved (net : Network) (env : Env) (id : jsstring)
    (loggedIn : bool) : M State unit :=
  (if loggedIn then
     try_catch
       (let* res := fetch net saved_jobs_url (request env) in
        let* savedJobs := await (json_body res) in
        record_saved id savedJobs)
       (fun error =>
        console Err [AStr (lit "Error checking if job is saved:");
                     AError error])
   else ret tt)%js.

(** The effect of lines 32-58. *)
Definition mount (net : Network) (env : Env) (id : jsstring) : M State unit :=
  (let loggedIn := isAuthenticated env in
   modify (setIsUserLoggedIn loggedIn) ;;;
   checkIfJobIsSaved net env id loggedIn)%js.

(** The argument of [saveJob] at lines 77-83. *)
Definition saved_job `{Runtime} (env : Env) (job : ApplicationForm.JobPost)
  : json :=
  JObj [ (lit "id", JStr (ApplicationForm.id job));
         (lit "title", JStr (ApplicationForm.title job));
         (lit "company", JStr (ApplicationForm.company job));
         (lit "location", JStr (ApplicationForm.location job));
         (lit "date", JStr (toISOString (date_new env))) ].

(** Lines 60-93.  [isUserLoggedIn] and [isSaved] are those of the render
    in which the button is clicked. *)
Definition handleSaveJob `{Runtime} (env : Env) (job : ApplicationForm.JobPost)
  : M State unit :=
  (let* st := read in
   if negb (isUserLoggedIn st) then
     (* Redirect to login page if not logged in *)
     modify (setHref (lit "/login"))
   else
     modify (setIsSaving true) ;;;
     try_finally
       (try_catch
          (if isSaved st then
             let* success := await (removeSavedJob env (ApplicationForm.id job)) in
             if success then modify (setIsSaved false) else ret tt
           else
             let* success := await (saveJob env (saved_job env job)) in
             if success then modify (setIsSaved true) else ret tt)
          (fun error =>
           console Err [AStr (lit "Error saving/removing job:"); AError error]))
       (modify (setIsSaving false)))%js.

(** The [onClick] of the Apply button (lines 138-142). *)
Definition handleApply (job : ApplicationForm.JobPost) : M State unit :=
  (console Log [AStr (lit "Navigating to job detail page: /jobs/"
                        ++ ApplicationForm.id job)] ;;;
   modify (setHref (lit "/jobs/" ++ ApplicationForm.id job)))%js.

(** The label of the Save button (line 132). *)
Definition save_label (st : State) : jsstring :=
  if isSaved st then lit "Saved" else lit "Save".

End JobCard.

(** The test-mode notice. *)
Definition is_alert (e : event) : bool :=
  match e with Alert _ => true | _ => false end.

(** The response [r], with [b] as the outcome of [response.json()]. *)
Definition with_json_body (r : Response) (b : Error + json) : Response :=
  {| status := status r;
     statusText := statusText r;
     content_type := content_type r;
     text := text r;
     json_body := b |}.

(** The keys under which the form stores errors. *)
Definition error_keys : list jsstring :=
  [lit "fullName"; lit "email"; lit "phone"; lit "resume"; lit "submit"].

(** A form between two events: the displayed file name is the resume
    that would be submitted, no submission is in flight, and every stored
    error is a non-empty text under one of the five keys. *)
Definition settled (form : FormEditing.Form) : Prop :=
  FormEditing.resumeFileName form
  = ApplicationForm.resume (ApplicationForm.formData (FormEditing.state form))
  /\ ApplicationForm.isSubmitting (FormEditing.state form) = false
  /\ forall k m,
       ApplicationForm.errors (FormEditing.state form) !! k = Some m ->
       m <> [] /\ In k error_keys.

(** A complaint on the console: [console.error] or [console.warn]. *)
Definition is_problem (e : event) : bool :=
  match e with Console Err _ | Console Warn _ => true | _ => false end.

(** A navigation. *)
Definition is_push (e : event) : bool :=
  match e with RouterPush _ => true | _ => false end.

(** [!token] is false: a credential is stored and it is not empty. *)
Definition has_token (env : ApplicationsPage.Env) : bool :=
  from_option str_truthy false (ApplicationsPage.token env).

(** The status test of the callback, on the mapped status alone. *)
Definition passes (f : ApplicationsPage.Filter) (u : ApplicationsPage.UIStatus)
  : bool :=
  match f, u with
  | ApplicationsPage.f_all, _ => true
  | ApplicationsPage.f_applied, ApplicationsPage.applied => true
  | ApplicationsPage.f_interview, ApplicationsPage.interview => true
  | ApplicationsPage.f_offer, ApplicationsPage.offer => true
  | ApplicationsPage.f_rejected, ApplicationsPage.rejected => true
  | _, _ => false
  end.

(** The property name [k] is the one that holds [field]. *)
Definition conforms_field (field : ApplicationsPage.Job -> jsstring)
    (k : string) : Prop :=
  (field = ApplicationsPage.title /\ k = "title"%string)
  \/ (field = ApplicationsPage.company /\ k = "company"%string)
  \/ (field = ApplicationsPage.location /\ k = "location"%string).

(** What the saved-jobs check makes of the answer: an error to log,
    nothing ([None]), or the flag to record. *)
Definition saved_answer (net : Network) (env : JobCard.Env) (id : jsstring)
  : Error + option bool :=
  match net JobCard.saved_jobs_url (JobCard.request env) with
  | inl e => inl e
  | inr res =>
      match json_body res with
      | inl e => inl e
      | inr JNull => inl (mkError (JobCard.msg_null "success"))
      | inr data =>
          if truthy_opt (get data (lit "success"))
             && truthy_opt (get data (lit "savedJobs"))
          then
            match get data (lit "savedJobs") with
            | Some (JArr entries) =>
                match JobCard.some_saved id entries with
                | inl e => inl e
                | inr b => inr (Some b)
                end
            | _ => inl (mkError JobCard.msg_some)
            end
          else inr None
      end
  end.

(** * Properties *)

Arguments lit : simpl never.

(** ** Strings *)

Lemma trimStart_nil_iff s : trimStart s = [] <-> forallb isWhiteSpace s = true.
Proof.
  induction s as [|c s IH]; simpl; [tauto|].
  destruct (isWhiteSpace c); simpl; [exact IH | split; discriminate].
Qed.

Lemma forallb_reverse {A} (f : A -> bool) l :
  forallb f (reverse l) = forallb f l.
Proof.
  induction l as [|x l IH]; [reflexivity|].
  rewrite reverse_cons, forallb_app, IH. simpl.
  rewrite andb_true_r. apply andb_comm.
Qed.

Lemma trimStart_blank s :
  forallb isWhiteSpace (trimStart s) = forallb isWhiteSpace s.
Proof.
  induction s as [|c s IH]; simpl; [reflexivity|].
  destruct (isWhiteSpace c) eqn:E; simpl; [exact IH | now rewrite E].
Qed.

(** A string is empty after trimming exactly when it consists of white
    space only. *)
Lemma trim_nil_iff s : trim s = [] <-> forallb isWhiteSpace s = true.
Proof.
  unfold trim, trimEnd. rewrite <- trimStart_blank.
  rewrite <- (forallb_reverse _ (trimStart s)), <- trimStart_nil_iff.
  split; intros E.
  - apply (f_equal reverse) in E. now rewrite reverse_involutive in E.
  - now rewrite E.
Qed.

Lemma str_truthy_iff s : str_truthy s = true <-> s <> [].
Proof. destruct s; simpl; split; congruence. Qed.

Lemma str_truthy_false_iff s : str_truthy s = false <-> s = [].
Proof. destruct s; simpl; split; congruence. Qed.

Lemma startsWith_iff s q : startsWith s q = true <-> exists post, s = q ++ post.
Proof.
  revert s. induction q as [|d q IH]; intros s; simpl.
  - split; [intros _; now exists s | reflexivity].
  - destruct s as [|c s].
    + split; [discriminate | intros [post E]; discriminate].
    + rewrite andb_true_iff, N.eqb_eq, IH. split.
      * intros [-> [post ->]]. eauto.
      * intros [post E]. injection E as -> ->. eauto.
Qed.

(** [includes] is the substring test. *)
Lemma includes_iff s q :
  includes s q = true <-> exists pre post, s = pre ++ q ++ post.
Proof.
  induction s as [|c s IH]; simpl.
  - rewrite orb_false_r, startsWith_iff. split.
    + intros [post E]. exists [], post. exact E.
    + intros (pre & post & E). symmetry in E.
      apply app_eq_nil in E as [-> E]. apply app_eq_nil in E as [-> ->].
      exists []. reflexivity.
  - rewrite orb_true_iff, startsWith_iff, IH. split.
    + intros [[post E] | (pre & post & E)].
      * exists [], post. exact E.
      * exists (c :: pre), post. simpl. now rewrite E.
    + intros (pre & post & E). destruct pre as [|c' pre]; simpl in E.
      * left. eauto.
      * right. injection E as -> ->. eauto.
Qed.

Lemma includes_nil_l q : q <> [] -> includes [] q = false.
Proof. destruct q; [congruence | reflexivity]. Qed.

(** ** The regular-expression engine is sound and complete *)

Lemma seq_inv r1 r2 s :
  denotes (Seq r1 r2) s ->
  exists s1 s2, s = s1 ++ s2 /\ denotes r1 s1 /\ denotes r2 s2.
Proof. intros H. inversion H; subst. eauto. Qed.

Lemma alt_inv r1 r2 s : denotes (Alt r1 r2) s -> denotes r1 s \/ denotes r2 s.
Proof. intros H. inversion H; subst; tauto. Qed.

Lemma chr_inv c s : denotes (Chr c) s -> s = [c].
Proof. intros H. now inversion H. Qed.

Lemma nonspace_inv s :
  denotes NonSpace s -> exists c, s = [c] /\ isWhiteSpace c = false.
Proof. intros H. inversion H; subst. eauto. Qed.

Lemma eps_inv s : denotes Eps s -> s = [].
Proof. intros H. now inversion H. Qed.

Lemma void_inv s : ~ denotes Void s.
Proof. intros H. inversion H. Qed.

Lemma nullable_iff r : nullable r = true <-> denotes r [].
Proof.
  induction r as [| | c | |r1 IH1 r2 IH2|r1 IH1 r2 IH2|r IH]; simpl.
  - split; [discriminate | intros H; now apply void_inv in H].
  - split; [constructor | reflexivity].
  - split; [discriminate | intros H; apply chr_inv in H; discriminate].
  - split; [discriminate |].
    intros H. apply nonspace_inv in H as (c & E & _). discriminate.
  - rewrite andb_true_iff, IH1, IH2. split.
    + intros [H1 H2]. exact (d_seq _ _ [] [] H1 H2).
    + intros H. apply seq_inv in H as (s1 & s2 & E & H1 & H2).
      symmetry in E. apply app_eq_nil in E as [-> ->]. now split.
  - rewrite orb_true_iff, IH1, IH2. split.
    + intros [H|H]; [now apply d_alt_l | now apply d_alt_r].
    + apply alt_inv.
  - split; [constructor | reflexivity].
Qed.

(** A non-empty string of [r*] starts with a non-empty string of [r]. *)
Lemma star_cons_inv r c s :
  denotes (Star r) (c :: s) ->
  exists s1 s2, s = s1 ++ s2 /\ denotes r (c :: s1) /\ denotes (Star r) s2.
Proof.
  intros H. remember (Star r) as r' eqn:Er. remember (c :: s) as w eqn:Ew.
  revert s Ew. induction H as [| | | | | | |r0 s1 s2 H1 _ H2 IH2];
    intros s' Ew; try discriminate.
  injection Er as ->. destruct s1 as [|c1 s1]; simpl in Ew.
  - apply IH2; [reflexivity | exact Ew].
  - injection Ew as -> <-. eauto.
Qed.

Lemma deriv_iff c r s : denotes (deriv c r) s <-> denotes r (c :: s).
Proof.
  revert s.
  induction r as [| | d | |r1 IH1 r2 IH2|r1 IH1 r2 IH2|r IH]; intros s; simpl.
  - split; intros H; now apply void_inv in H.
  - split; intros H; [now apply void_inv in H | apply eps_inv in H; discriminate].
  - destruct (N.eqb_spec c d) as [->|Hne]; split; intros H.
    + apply eps_inv in H as ->. constructor.
    + apply chr_inv in H. injection H as ->. constructor.
    + now apply void_inv in H.
    + apply chr_inv in H. congruence.
  - destruct (isWhiteSpace c) eqn:Ews; split; intros H.
    + now apply void_inv in H.
    + apply nonspace_inv in H as (c' & E & H). congruence.
    + apply eps_inv in H as ->. now constructor.
    + apply nonspace_inv in H as (c' & E & H). injection E as -> ->. constructor.
  - assert (Hseq : denotes (Seq (deriv c r1) r2) s ->
                   denotes (Seq r1 r2) (c :: s)).
    { intros H. apply seq_inv in H as (s1 & s2 & -> & H1 & H2).
      apply IH1 in H1. exact (d_seq _ _ (c :: s1) s2 H1 H2). }
    assert (Hinv : denotes (Seq r1 r2) (c :: s) ->
                   denotes (Seq (deriv c r1) r2) s
                   \/ (denotes r1 [] /\ denotes r2 (c :: s))).
    { intros H. apply seq_inv in H as (s1 & s2 & E & H1 & H2).
      destruct s1 as [|c1 s1]; simpl in E.
      - right. subst. now split.
      - left. injection E as -> ->. apply IH1 in H1. now constructor. }
    destruct (nullable r1) eqn:En.
    + split.
      * intros H. apply alt_inv in H as [H|H]; [now apply Hseq|].
        apply nullable_iff in En. apply IH2 in H.
        exact (d_seq _ _ [] _ En H).
      * intros H. apply Hinv in H as [H|[_ H]];
          [now apply d_alt_l | apply d_alt_r; now apply IH2].
    + split; [exact Hseq|].
      intros H. apply Hinv in H as [H|[H _]]; [exact H|].
      apply nullable_iff in H. congruence.
  - split; intros H; apply alt_inv in H as [H|H];
      solve [ apply d_alt_l; now apply IH1 | apply d_alt_r; now apply IH2 ].
  - split.
    + intros H. apply seq_inv in H as (s1 & s2 & -> & H1 & H2).
      apply IH in H1. exact (d_star_cons _ (c :: s1) s2 H1 H2).
    + intros H. apply star_cons_inv in H as (s1 & s2 & -> & H1 & H2).
      apply IH in H1. now constructor.
Qed.

Lemma match_here_iff r s :
  match_here r s = true <-> exists m post, s = m ++ post /\ denotes r m.
Proof.
  revert r. induction s as [|c s IH]; intros r; simpl.
  - rewrite orb_false_r, nullable_iff. split.
    + intros H. now exists [], [].
    + intros (m & post & E & H). symmetry in E.
      apply app_eq_nil in E as [-> _]. exact H.
  - rewrite orb_true_iff, nullable_iff, IH. split.
    + intros [H | (m & post & -> & H)].
      * now exists [], (c :: s).
      * apply deriv_iff in H. now exists (c :: m), post.
    + intros (m & post & E & H). destruct m as [|c' m]; simpl in E.
      * now left.
      * right. injection E as -> ->. apply deriv_iff in H. eauto.
Qed.

(** [test r s] holds exactly when a string denoted by [r] occurs in [s]. *)
Lemma test_iff r s :
  test r s = true <->
  exists pre m post, s = pre ++ m ++ post /\ denotes r m.
Proof.
  induction s as [|c s IH]; cbn [test].
  - rewrite orb_false_r, match_here_iff. split.
    + intros (m & post & E & H). now exists [], m, post.
    + intros (pre & m & post & E & H). symmetry in E.
      apply app_eq_nil in E as [-> E]. simpl. eauto.
  - rewrite orb_true_iff, match_here_iff, IH. split.
    + intros [(m & post & E & H) | (pre & m & post & -> & H)].
      * now exists [], m, post.
      * now exists (c :: pre), m, post.
    + intros (pre & m & post & E & H). destruct pre as [|c' pre]; simpl in E.
      * left. eauto.
      * right. injection E as -> ->. eauto.
Qed.

(** ** The e-mail pattern *)

Lemma star_nonspace_iff s :
  denotes (Star NonSpace) s <-> Forall (fun c => isWhiteSpace c = false) s.
Proof.
  split.
  - intros H. remember (Star NonSpace) as r eqn:Er.
    induction H as [| | | | | | |r0 s1 s2 H1 _ H2 IH2]; try discriminate.
    + constructor.
    + injection Er as ->. apply nonspace_inv in H1 as (c & -> & Hc).
      constructor; [exact Hc | now apply IH2].
  - induction 1 as [|c s Hc _ IH]; [constructor|].
    apply (d_star_cons _ [c] s); [now constructor | exact IH].
Qed.

Lemma plus_nonspace_iff s : denotes (Plus NonSpace) s <-> nonspaces s.
Proof.
  unfold Plus, nonspaces. split.
  - intros H. apply seq_inv in H as (s1 & s2 & -> & H1 & H2).
    apply nonspace_inv in H1 as (c & -> & Hc). apply star_nonspace_iff in H2.
    split; [discriminate | now constructor].
  - intros [Hne H]. destruct H as [|c s Hc H]; [congruence|].
    apply (d_seq _ _ [c] s); [now constructor | now apply star_nonspace_iff].
Qed.

Lemma emailPattern_iff m :
  denotes ApplicationForm.emailPattern m <-> email_shape m.
Proof.
  unfold ApplicationForm.emailPattern, email_shape. split.
  - intros H.
    apply seq_inv in H as (a & s1 & -> & Ha & H).
    apply seq_inv in H as (at_ & s2 & -> & Hat & H).
    apply seq_inv in H as (b & s3 & -> & Hb & H).
    apply seq_inv in H as (dot & c & -> & Hdot & Hc).
    apply chr_inv in Hat as ->. apply chr_inv in Hdot as ->.
    exists a, b, c. now rewrite <- !plus_nonspace_iff.
  - intros (a & b & c & Ha & Hb & Hc & ->).
    apply plus_nonspace_iff in Ha, Hb, Hc.
    repeat (apply d_seq; [try constructor; assumption|]). exact Hc.
Qed.

(** The test of line 69 succeeds exactly on the strings in which the
    pattern occurs. *)
Lemma test_emailPattern s :
  test ApplicationForm.emailPattern s = true <-> matches_email_pattern s.
Proof.
  rewrite test_iff. unfold matches_email_pattern.
  split; intros (pre & m & post & E & H); exists pre, m, post;
    (split; [exact E | now apply emailPattern_iff]).
Qed.

(** ** Validation *)

(** Decide the comparisons of two distinct source literals. *)
Ltac decide_keys :=
  repeat (case_decide;
          [match goal with
           | H : lit _ = lit _ |- _ => vm_compute in H; discriminate H
           end|]).

Lemma newErrors_lookup fd k :
  ApplicationForm.newErrors fd !! k =
  if decide (k = lit "resume") then
    if str_truthy (ApplicationForm.resume fd) then None
    else Some (lit "Resume is required")
  else if decide (k = lit "phone") then
    if str_truthy (trim (ApplicationForm.phone fd)) then None
    else Some (lit "Phone number is required")
  else if decide (k = lit "email") then
    if str_truthy (trim (ApplicationForm.email fd)) then
      if test ApplicationForm.emailPattern (ApplicationForm.email fd) then None
      else Some (lit "Email is invalid")
    else Some (lit "Email is required")
  else if decide (k = lit "fullName") then
    if str_truthy (trim (ApplicationForm.fullName fd)) then None
    else Some (lit "Full name is required")
  else None.
Proof.
  unfold ApplicationForm.newErrors.
  destruct (str_truthy (trim (ApplicationForm.fullName fd)));
  destruct (str_truthy (trim (ApplicationForm.email fd)));
  destruct (test ApplicationForm.emailPattern (ApplicationForm.email fd));
  destruct (str_truthy (trim (ApplicationForm.phone fd)));
  destruct (str_truthy (ApplicationForm.resume fd));
  cbn [negb];
  rewrite ?lookup_insert, ?lookup_empty;
  repeat case_decide; subst; try reflexivity; try congruence;
  exfalso; match goal with H : _ = _ |- _ => vm_compute in H; discriminate H end.
Qed.

Section Validation.
Import ApplicationForm.
Variable fd : FormData.

Lemma lookup_fullName :
  newErrors fd !! lit "fullName" =
  if str_truthy (trim (fullName fd)) then None
  else Some (lit "Full name is required").
Proof.
  rewrite newErrors_lookup.
  decide_keys. case_decide; [reflexivity | congruence].
Qed.

Lemma lookup_email :
  newErrors fd !! lit "email" =
  if str_truthy (trim (email fd)) then
    if test emailPattern (email fd) then None
    else Some (lit "Email is invalid")
  else Some (lit "Email is required").
Proof.
  rewrite newErrors_lookup.
  decide_keys. case_decide; [reflexivity | congruence].
Qed.

Lemma lookup_phone :
  newErrors fd !! lit "phone" =
  if str_truthy (trim (phone fd)) then None
  else Some (lit "Phone number is required").
Proof.
  rewrite newErrors_lookup.
  decide_keys. case_decide; [reflexivity | congruence].
Qed.

Lemma lookup_resume :
  newErrors fd !! lit "resume" =
  if str_truthy (resume fd) then None else Some (lit "Resume is required").
Proof.
  rewrite newErrors_lookup. case_decide; [reflexivity | congruence].
Qed.

Lemma blank_iff s : blank s <-> str_truthy (trim s) = false.
Proof. unfold blank. now rewrite str_truthy_false_iff. Qed.

Lemma not_blank_iff s : ~ blank s <-> str_truthy (trim s) = true.
Proof. rewrite blank_iff. destruct (str_truthy (trim s)); split; congruence. Qed.

Lemma not_matches_iff s :
  ~ matches_email_pattern s <-> test emailPattern s = false.
Proof.
  rewrite <- test_emailPattern.
  destruct (test emailPattern s); split; congruence.
Qed.

Lemma is_Some_unless (b : bool) (m : jsstring) :
  is_Some (if b then None else Some m) <-> b = false.
Proof.
  destruct b; split; try congruence; [intros [? E]; discriminate E | eauto].
Qed.

(** The keys of [newErrors] are those of the failing fields. *)
Lemma newErrors_keys k :
  is_Some (newErrors fd !! k) <->
  omitted fd k \/ (k = lit "email" /\ malformed_email fd).
Proof.
  unfold omitted, malformed_email.
  rewrite not_blank_iff, not_matches_iff, !blank_iff.
  rewrite <- (str_truthy_false_iff (resume fd)), newErrors_lookup.
  assert (lit "fullName" <> lit "email") by (intros E; vm_compute in E; discriminate E).
  assert (lit "fullName" <> lit "phone") by (intros E; vm_compute in E; discriminate E).
  assert (lit "fullName" <> lit "resume") by (intros E; vm_compute in E; discriminate E).
  assert (lit "email" <> lit "phone") by (intros E; vm_compute in E; discriminate E).
  assert (lit "email" <> lit "resume") by (intros E; vm_compute in E; discriminate E).
  assert (lit "phone" <> lit "resume") by (intros E; vm_compute in E; discriminate E).
  destruct (decide (k = lit "resume")) as [->|?];
    [rewrite is_Some_unless; intuition congruence|].
  destruct (decide (k = lit "phone")) as [->|?];
    [rewrite is_Some_unless; intuition congruence|].
  destruct (decide (k = lit "email")) as [->|?].
  { destruct (str_truthy (trim (email fd)));
      [rewrite is_Some_unless; intuition congruence|].
    split; [intros _; left; right; left; now split | eauto]. }
  destruct (decide (k = lit "fullName")) as [->|?];
    [rewrite is_Some_unless; intuition congruence|].
  split; [intros [? E]; discriminate E | intuition congruence].
Qed.

Lemma newErrors_empty_iff : newErrors fd = ∅ <-> well_formed fd.
Proof.
  unfold well_formed.
  rewrite !not_blank_iff, <- test_emailPattern, <- str_truthy_iff.
  split.
  - intros E.
    pose proof lookup_fullName as H1. pose proof lookup_email as H2.
    pose proof lookup_phone as H3. pose proof lookup_resume as H4.
    rewrite E, lookup_empty in H1, H2, H3, H4.
    destruct (str_truthy (trim (fullName fd))); [|discriminate].
    destruct (str_truthy (trim (email fd))); [|discriminate].
    destruct (test emailPattern (email fd)); [|discriminate].
    destruct (str_truthy (trim (phone fd))); [|discriminate].
    destruct (str_truthy (resume fd)); [|discriminate].
    repeat split.
  - intros (H1 & H2 & H3 & H4 & H5). unfold newErrors.
    now rewrite H1, H2, H3, H4, H5.
Qed.

Lemma size_newErrors :
  Nat.eqb (size (newErrors fd)) 0 = true <-> newErrors fd = ∅.
Proof. now rewrite Nat.eqb_eq, map_size_empty_iff. Qed.

End Validation.

Lemma validateForm_errors fd st :
  ApplicationForm.errors (final (ApplicationForm.validateForm fd st))
  = ApplicationForm.newErrors fd.
Proof. reflexivity. Qed.

Lemma validateForm_outcome fd st :
  outcome (ApplicationForm.validateForm fd st)
  = inr (Nat.eqb (size (ApplicationForm.newErrors fd)) 0).
Proof. reflexivity. Qed.

(** C8. The e-mail entry of the reported errors is "Email is required"
    exactly when the address is empty after trimming, it is "Email is
    invalid" exactly when the address is not empty after trimming and the
    pattern (non-spaces, '@', non-spaces, '.', non-spaces) does not occur in
    it, and it is never anything else. *)
Theorem validateForm_email (fd : ApplicationForm.FormData)
    (st : ApplicationForm.State) :
  let reported :=
    ApplicationForm.errors (final (ApplicationForm.validateForm fd st))
      !! lit "email" in
  (reported = Some (lit "Email is required")
     <-> blank (ApplicationForm.email fd))
  /\ (reported = Some (lit "Email is invalid")
     <-> ~ blank (ApplicationForm.email fd)
         /\ ~ matches_email_pattern (ApplicationForm.email fd))
  /\ (forall m, reported = Some m ->
        m = lit "Email is required" \/ m = lit "Email is invalid").
Proof.
  intros reported. subst reported.
  rewrite validateForm_errors, lookup_email, not_blank_iff, blank_iff,
    not_matches_iff.
  destruct (str_truthy (trim (ApplicationForm.email fd)));
    destruct (test ApplicationForm.emailPattern (ApplicationForm.email fd));
    (split; [|split]);
    try (intros m E; first [discriminate E | injection E as <-; auto]; fail);
    split; intros E;
    first [ discriminate E
          | vm_compute in E; discriminate E
          | destruct E; congruence
          | repeat split; reflexivity ].
Qed.

(** The clauses of C8 on three addresses: a blank one, one without the
    pattern, and one that carries the pattern next to a space. *)
Lemma validateForm_email_witness :
  ApplicationForm.newErrors
    (ApplicationForm.mkFormData [] (lit "  ") [] [] []) !! lit "email"
    = Some (lit "Email is required")
  /\ ApplicationForm.newErrors
       (ApplicationForm.mkFormData [] (lit "ann.example.org") [] [] [])
       !! lit "email" = Some (lit "Email is invalid")
  /\ ApplicationForm.newErrors
       (ApplicationForm.mkFormData [] (lit "to ann@example.org") [] [] [])
       !! lit "email" = None.
Proof.
  pose proof (validateForm_email
                (ApplicationForm.mkFormData [] (lit "  ") [] [] [])
                ApplicationForm.initial) as (Hrequired & _).
  pose proof (validateForm_email
                (ApplicationForm.mkFormData [] (lit "ann.example.org") [] [] [])
                ApplicationForm.initial) as (_ & Hinvalid & _).
  split; [apply Hrequired; vm_compute; reflexivity|].
  split; [|vm_compute; reflexivity].
  apply Hinvalid. split.
  - intros E. vm_compute in E. discriminate E.
  - apply not_matches_iff. vm_compute. reflexivity.
Defined.

(** ** Runs of the Submitter *)

Section SubmitterRuns.
Import ApplicationForm.
Context `{Runtime}.
Variables (net : Network) (p : Props).

(** The two requests: what [send] returns, and the effects it has. *)
Lemma send_run fd st :
  send net (job p) fd st =
  match net primary_url (request (job p) fd) with
  | inr r =>
      (inr (r, false), st,
       [Console Log [AStr (lit "Trying primary API endpoint...")];
        Fetch primary_url (request (job p) fd);
        Console Log [AStr (lit "Primary API response status:");
                     ANum (status r)]])
  | inl e =>
      match net fallback_url (request (job p) fd) with
      | inr r =>
          (inr (r, true), st,
           [Console Log [AStr (lit "Trying primary API endpoint...")];
            Fetch primary_url (request (job p) fd);
            Console Err [AStr (lit "Primary API endpoint failed:"); AError e];
            Console Log [AStr (lit "Trying fallback test API endpoint...")];
            Fetch fallback_url (request (job p) fd);
            Console Log [AStr (lit "Fallback API response status:");
                         ANum (status r)]])
      | inl e' =>
          (inl e', st,
           [Console Log [AStr (lit "Trying primary API endpoint...")];
            Fetch primary_url (request (job p) fd);
            Console Err [AStr (lit "Primary API endpoint failed:"); AError e];
            Console Log [AStr (lit "Trying fallback test API endpoint...")];
            Fetch fallback_url (request (job p) fd)])
      end
  end.
Proof.
  unfold send, fetch, console, try_catch, await.
  cbv [bind emit ret throw].
  destruct (net primary_url _) as [e|r]; [|reflexivity].
  destruct (net fallback_url _) as [e'|r]; reflexivity.
Qed.

(** The three checks: the outcome, and the effects. *)
Lemma check_response_run r st :
  check_response r st =
  if is_json_type (content_type r) then
    match json_body r with
    | inl e =>
        (inl (mkError msg_parse), st,
         [Console Err [AStr (lit "Error parsing JSON response:"); AError e]])
    | inr data =>
        (if ok r then inr data else inl (status_error r data),
         st, [Console Log [AStr (lit "Response data:"); AJson data]])
    end
  else
    match text r with
    | inl e =>
        (inl e, st,
         [Console Err [AStr (lit "Non-JSON response received:");
                       match content_type r with
                       | Some ct => AStr ct
                       | None => ANull
                       end]])
    | inr responseText =>
        (inl (mkError (msg_non_json r)), st,
         [Console Err [AStr (lit "Non-JSON response received:");
                       match content_type r with
                       | Some ct => AStr ct
                       | None => ANull
                       end];
          Console Err [AStr (lit "Response text (first 500 chars):");
                       AStr (substring0 500 responseText)]])
    end.
Proof.
  unfold check_response, status_error, console, try_catch, await.
  cbv [bind emit ret throw].
  destruct (is_json_type (content_type r)); cbn [negb].
  - destruct (json_body r) as [e|data]; [reflexivity|].
    destruct (ok r); cbn [negb]; [reflexivity|].
    destruct (new_Error (errorMessage r data)); reflexivity.
  - destruct (text r); reflexivity.
Qed.

Lemma check_response_final r st : final (check_response r st) = st.
Proof.
  rewrite check_response_run.
  destruct (is_json_type _), (json_body r), (text r); reflexivity.
Qed.

(** The checks neither call the network nor tell the user anything. *)
Lemma check_response_quiet r st (f : event -> bool) :
  f = is_fetch \/ f = is_notice \/ f = is_completion ->
  List.filter f (trace (check_response r st)) = [].
Proof.
  intros Hf. rewrite check_response_run.
  destruct Hf as [->|[->| ->]];
    destruct (is_json_type _), (json_body r), (text r); reflexivity.
Qed.

(** Which check rejects, and with which error. *)
Lemma check_response_verdict r st :
  outcome (check_response r st) =
  match submitter_verdict r with
  | accepted data => inr data
  | rejected_type =>
      inl (match text r with
           | inl e => e
           | inr _ => mkError (msg_non_json r)
           end)
  | rejected_parse => inl (mkError msg_parse)
  | rejected_status =>
      inl (match json_body r with
           | inr data => status_error r data
           | inl _ => mkError (msg_status r)
           end)
  end.
Proof.
  rewrite check_response_run. unfold submitter_verdict.
  destruct (is_json_type _); cbn [negb].
  - destruct (json_body r) as [e|data]; [reflexivity|].
    destruct (ok r); reflexivity.
  - destruct (text r); reflexivity.
Qed.

Lemma attempt_run fd st :
  attempt net p fd st =
  match send net (job p) fd st with
  | (inl e, st', tr) => (inl e, st', opening_log p fd ++ tr)
  | (inr (r, usedFallback), st', tr) =>
      let '(res, st'', tr') := conclude p r usedFallback st' in
      (res, st'', opening_log p fd ++ tr ++ tr')
  end.
Proof.
  unfold attempt, opening_log, console.
  cbv [bind emit]. destruct (send net (job p) fd st) as [[[e|[r u]] st'] tr].
  - reflexivity.
  - cbn [fst snd]. destruct (conclude p r u st') as [[res st''] tr'].
    reflexivity.
Qed.

(** The outcome of [conclude], by cases on the response. *)
Lemma conclude_run r u st :
  conclude p r u st =
  match outcome (check_response r st) with
  | inl e => (inl e, st, trace (check_response r st))
  | inr data =>
      match application_id data with
      | None =>
          (inl (mkError msg_invalid), st,
           trace (check_response r st)
             ++ [Console Err [AStr (lit "Invalid response data:");
                              AJson data]])
      | Some i =>
          let shown :=
            trace (check_response r st)
              ++ Console Log [AStr (lit "Application submitted successfully:");
                              AJson i]
              :: (if u then [Alert msg_test_mode] else []) in
          if onSuccess p then (inr tt, st, shown ++ [OnSuccess i])
          else
            match success_url (job p) i u with
            | inl e => (inl e, st, shown)
            | inr url => (inr tt, st, shown ++ [RouterPush url])
            end
      end
  end.
Proof.
  unfold conclude, console, await. cbv [bind emit ret throw].
  pose proof (check_response_final r st) as Hst.
  destruct (check_response r st) as [[[e|data] st'] tr];
    cbn in Hst; subst st'; cbn [outcome trace fst snd].
  - reflexivity.
  - destruct (application_id data) as [i|]; [|reflexivity]. cbv zeta.
    destruct (onSuccess p).
    + destruct u; cbn [app]; rewrite ?app_nil_r, <- ?app_assoc; reflexivity.
    + destruct (success_url (job p) i u), u; cbn [app];
        rewrite ?app_nil_r, <- ?app_assoc; reflexivity.
Qed.

(** The handler, once validation and the job-id guard have passed. *)
Lemma handleSubmit_run st :
  newErrors (formData st) = ∅ ->
  id (job p) <> [] ->
  let pre :=
    [PreventDefault;
     Console Log [AStr (lit "Submitting application with job ID:");
                  AStr (id (job p))];
     Console Log [AStr (lit "Is MongoDB ObjectId:");
                  ABool (isValidObjectId (id (job p)))]] in
  let st1 := setIsSubmitting true (setErrors (fun _ => ∅) st) in
  let a := attempt net p (formData st) st1 in
  handleSubmit net p st =
  match outcome a with
  | inr _ => (inr tt, setIsSubmitting false (final a), pre ++ trace a)
  | inl e =>
      (inr tt,
       setIsSubmitting false
         (setErrors (fun prev =>
            <[lit "submit" :=
                if str_truthy (message e) then message e else msg_failed]>
              prev) (final a)),
       pre ++ trace a
         ++ [Console Err [AStr (lit "Error submitting application:");
                          AError e]])
  end.
Proof.
  intros Hv Hid. apply str_truthy_iff in Hid.
  unfold handleSubmit, validateForm, report, console, try_finally, try_catch.
  cbv [bind emit read modify ret]. rewrite Hv, Hid. cbn [negb Nat.eqb size].
  change (size (∅ : gmap jsstring jsstring)) with 0%nat. cbn [Nat.eqb negb].
  destruct (attempt net p (formData st) _) as [[[e|[]] st'] tr];
    cbn [outcome final trace fst snd app];
    rewrite ?app_nil_r, <- ?app_assoc; reflexivity.
Qed.

(** The handler, when validation fails. *)
Lemma handleSubmit_invalid st :
  newErrors (formData st) <> ∅ ->
  handleSubmit net p st =
  (inr tt, setErrors (fun _ => newErrors (formData st)) st, [PreventDefault]).
Proof.
  intros Hv. unfold handleSubmit, validateForm. cbv [bind emit read modify ret].
  destruct (Nat.eqb (size (newErrors (formData st))) 0) eqn:E;
    [now apply size_newErrors in E | reflexivity].
Qed.

(** The handler, when the job has no id. *)
Lemma handleSubmit_no_job st :
  newErrors (formData st) = ∅ ->
  id (job p) = [] ->
  handleSubmit net p st =
  (inr tt, setErrors (fun _ => {[ lit "submit" := msg_job_id ]}) st,
   [PreventDefault]).
Proof.
  intros Hv Hid. unfold handleSubmit, validateForm.
  cbv [bind emit read modify ret]. rewrite Hv, Hid. reflexivity.
Qed.

End SubmitterRuns.

Section SubmitterEffects.
Import ApplicationForm.
Context `{Runtime}.
Variables (net : Network) (p : Props).

Lemma send_final fd st : final (send net (job p) fd st) = st.
Proof.
  rewrite send_run.
  destruct (net primary_url _); [destruct (net fallback_url _)|]; reflexivity.
Qed.

Lemma send_outcome fd st :
  outcome (send net (job p) fd st) = delivered net (job p) fd.
Proof.
  unfold delivered. rewrite !send_run.
  destruct (net primary_url _); [destruct (net fallback_url _)|]; reflexivity.
Qed.

Lemma send_trace fd st :
  trace (send net (job p) fd st) = trace (send net (job p) fd initial).
Proof.
  rewrite !send_run.
  destruct (net primary_url _); [destruct (net fallback_url _)|]; reflexivity.
Qed.

Lemma conclude_final r u st : final (conclude p r u st) = st.
Proof.
  rewrite conclude_run.
  destruct (outcome _) as [|data]; [reflexivity|].
  destruct (application_id data) as [i|]; [|reflexivity]. cbv zeta.
  destruct (onSuccess p); [reflexivity|].
  destruct (success_url (job p) i u); reflexivity.
Qed.

Lemma attempt_final fd st : final (attempt net p fd st) = st.
Proof.
  rewrite attempt_run.
  pose proof (send_final fd st) as Hs.
  destruct (send net (job p) fd st) as [[[e|[r u]] st'] tr];
    cbn in Hs; subst st'; [reflexivity|].
  pose proof (conclude_final r u st) as Hc.
  destruct (conclude p r u st) as [[res st''] tr']. exact Hc.
Qed.

Lemma attempt_outcome fd st :
  outcome (attempt net p fd st) =
  match delivered net (job p) fd with
  | inl e => inl e
  | inr (r, u) => outcome (conclude p r u st)
  end.
Proof.
  rewrite attempt_run, <- (send_outcome fd st).
  pose proof (send_final fd st) as Hs.
  destruct (send net (job p) fd st) as [[[e|[r u]] st'] tr];
    cbn in Hs; subst st'; [reflexivity|].
  cbn [outcome fst]. destruct (conclude p r u st) as [[res st''] tr'].
  reflexivity.
Qed.

Lemma filter_opening_log f fd : quiet f -> List.filter f (opening_log p fd) = [].
Proof. intros [_ Hc]. unfold opening_log. cbn [List.filter]. now rewrite !Hc. Qed.

Lemma attempt_filter f fd st :
  quiet f ->
  List.filter f (trace (attempt net p fd st)) =
  List.filter f (trace (send net (job p) fd st))
    ++ match delivered net (job p) fd with
       | inl _ => []
       | inr (r, u) => List.filter f (trace (conclude p r u st))
       end.
Proof.
  intros Hq. rewrite attempt_run, <- (send_outcome fd st).
  pose proof (send_final fd st) as Hs.
  destruct (send net (job p) fd st) as [[[e|[r u]] st'] tr];
    cbn in Hs; subst st'; cbn [trace outcome fst snd].
  - now rewrite List.filter_app, filter_opening_log, app_nil_r.
  - destruct (conclude p r u st) as [[res st''] tr']. cbn [trace snd].
    now rewrite !List.filter_app, filter_opening_log.
Qed.

Lemma handleSubmit_filter f st :
  quiet f ->
  newErrors (formData st) = ∅ ->
  id (job p) <> [] ->
  List.filter f (trace (handleSubmit net p st)) =
  List.filter f
    (trace (attempt net p (formData st)
              (setIsSubmitting true (setErrors (fun _ => ∅) st)))).
Proof.
  intros [Hp Hc] Hv Hid. rewrite (handleSubmit_run net p st Hv Hid).
  destruct (outcome _); cbn [trace snd];
    rewrite ?List.filter_app; cbn [List.filter]; now rewrite Hp, !Hc, ?app_nil_r.
Qed.

Lemma handleSubmit_errors st :
  newErrors (formData st) = ∅ ->
  id (job p) <> [] ->
  errors (final (handleSubmit net p st)) =
  match outcome (attempt net p (formData st)
                   (setIsSubmitting true (setErrors (fun _ => ∅) st))) with
  | inr _ => ∅
  | inl e =>
      {[ lit "submit" :=
           if str_truthy (message e) then message e else msg_failed ]}
  end.
Proof.
  intros Hv Hid. rewrite (handleSubmit_run net p st Hv Hid).
  destruct (outcome _) eqn:E; cbn [final fst snd];
    now rewrite attempt_final.
Qed.

Lemma quiet_is_fetch : quiet is_fetch.
Proof. now split. Qed.
Lemma quiet_is_notice : quiet is_notice.
Proof. now split. Qed.

Lemma conclude_fetches r u st :
  List.filter is_fetch (trace (conclude p r u st)) = [].
Proof.
  rewrite conclude_run.
  destruct (outcome _) as [|data] eqn:E; cbn [trace snd].
  - apply check_response_quiet. now left.
  - destruct (application_id data) as [i|]; cbv zeta.
    + destruct (onSuccess p); [|destruct (success_url (job p) i u)];
        cbn [trace snd];
        rewrite ?List.filter_app, check_response_quiet by (now left);
        destruct u; reflexivity.
    + cbn [trace snd].
      now rewrite List.filter_app, check_response_quiet by now left.
Qed.

(** The network calls of a submission that passed validation. *)
Lemma handleSubmit_fetches st :
  newErrors (formData st) = ∅ ->
  id (job p) <> [] ->
  List.filter is_fetch (trace (handleSubmit net p st)) =
  Fetch primary_url (request (job p) (formData st))
    :: match net primary_url (request (job p) (formData st)) with
       | inr _ => []
       | inl _ => [Fetch fallback_url (request (job p) (formData st))]
       end.
Proof.
  intros Hv Hid.
  rewrite (handleSubmit_filter _ st quiet_is_fetch Hv Hid).
  rewrite (attempt_filter _ _ _ quiet_is_fetch).
  assert (Hc : match delivered net (job p) (formData st) with
               | inl _ => []
               | inr (r, u) =>
                   List.filter is_fetch
                     (trace (conclude p r u
                        (setIsSubmitting true (setErrors (fun _ => ∅) st))))
               end = []).
  { destruct (delivered _ _ _) as [|[r u]]; [reflexivity|].
    apply conclude_fetches. }
  rewrite Hc, app_nil_r, send_run.
  destruct (net primary_url _); [destruct (net fallback_url _)|]; reflexivity.
Qed.

End SubmitterEffects.

(** ** Validation gates submission *)

(** C1, as stated, fails: an input that omits the full name and carries a
    malformed e-mail address gets the [email] key as well, although the
    e-mail address is not omitted. *)
Lemma validateForm_reports_more_than_omissions :
  let fd := ApplicationForm.mkFormData [] (lit "bad") (lit "555") (lit "cv.pdf") [] in
  let reported :=
    ApplicationForm.errors
      (final (ApplicationForm.validateForm fd ApplicationForm.initial)) in
  omitted fd (lit "fullName")
  /\ ~ omitted fd (lit "email")
  /\ reported !! lit "email" = Some (lit "Email is invalid")
  /\ ~ (forall k, is_Some (reported !! k) <-> omitted fd k).
Proof.
  intros fd reported.
  assert (Ho : omitted fd (lit "fullName")) by (left; split; reflexivity).
  assert (Hn : ~ omitted fd (lit "email")).
  { intros [[E _]|[[_ E]|[[E _]|[E _]]]]; vm_compute in E; discriminate E. }
  assert (Hr : reported !! lit "email" = Some (lit "Email is invalid"))
    by (vm_compute; reflexivity).
  repeat split; try assumption.
  intros Hall. apply Hn, Hall. rewrite Hr. eauto.
Qed.

(** C1, amended.  A well-formed input is reported without errors and the
    handler goes on: with a job id, its first network call is the primary
    request.  For every input the reported keys are exactly those of the
    omitted fields, plus [email] when an address is given but malformed; so
    for an input whose address is omitted or well formed they are exactly
    the keys of the omitted fields.  Whenever a key is reported the handler
    makes no network call.  The input with an empty full name, "a@b.com",
    "555" and "cv.pdf" yields exactly the full-name error and no call. *)
Theorem validateForm_gate `{Runtime} (net : Network)
    (p : ApplicationForm.Props) (st : ApplicationForm.State) :
  let fd := ApplicationForm.formData st in
  let reported :=
    ApplicationForm.errors (final (ApplicationForm.validateForm fd st)) in
  let run := ApplicationForm.handleSubmit net p st in
  (well_formed fd ->
     reported = ∅
     /\ outcome (ApplicationForm.validateForm fd st) = inr true
     /\ (ApplicationForm.id (ApplicationForm.job p) <> [] ->
         head (List.filter is_fetch (trace run))
         = Some (Fetch ApplicationForm.primary_url
                   (ApplicationForm.request (ApplicationForm.job p) fd))))
  /\ (forall k, is_Some (reported !! k) <->
                omitted fd k \/ (k = lit "email" /\ malformed_email fd))
  /\ (~ malformed_email fd ->
      forall k, is_Some (reported !! k) <-> omitted fd k)
  /\ (reported <> ∅ ->
      List.filter is_fetch (trace run) = []
      /\ ApplicationForm.errors (final run) = reported)
  /\ (ApplicationForm.fullName fd = [] ->
      ApplicationForm.email fd = lit "a@b.com" ->
      ApplicationForm.phone fd = lit "555" ->
      ApplicationForm.resume fd = lit "cv.pdf" ->
      ApplicationForm.errors (final run)
      = {[ lit "fullName" := lit "Full name is required" ]}
      /\ List.filter is_fetch (trace run) = []).
Proof.
  intros fd reported run. subst reported run.
  rewrite validateForm_errors, validateForm_outcome.
  assert (Hgate : ApplicationForm.newErrors fd <> ∅ ->
            List.filter is_fetch (trace (ApplicationForm.handleSubmit net p st)) = []
            /\ ApplicationForm.errors
                 (final (ApplicationForm.handleSubmit net p st))
               = ApplicationForm.newErrors fd).
  { intros Hne. now rewrite (handleSubmit_invalid net p st Hne). }
  split; [|split; [|split; [|split]]].
  - intros Hwf. apply newErrors_empty_iff in Hwf. split; [exact Hwf|].
    split; [now rewrite Hwf|].
    intros Hid. now rewrite (handleSubmit_fetches net p st Hwf Hid).
  - apply newErrors_keys.
  - intros Hm k. rewrite newErrors_keys. tauto.
  - exact Hgate.
  - intros E1 E2 E3 E4.
    assert (E : ApplicationForm.newErrors fd
                = {[ lit "fullName" := lit "Full name is required" ]}).
    { unfold ApplicationForm.newErrors. rewrite E1, E2, E3, E4.
      vm_compute. reflexivity. }
    destruct Hgate as [Hf He].
    + rewrite E. intros E'. vm_compute in E'. discriminate E'.
    + now rewrite He, E.
Qed.

(** C1 on a well-formed input that goes on to the primary request, and on
    the input of the scenario. *)
Lemma validateForm_gate_witness :
  head (List.filter is_fetch
          (trace (ApplicationForm.handleSubmit (H := example_runtime) offline
                    (ann_applies true) ann_state)))
  = Some (Fetch ApplicationForm.primary_url
            (ApplicationForm.request job_j1 ann))
  /\ ApplicationForm.errors
       (final (ApplicationForm.handleSubmit (H := example_runtime) offline
                 (ann_applies true)
                 (ApplicationForm.mkState
                    (ApplicationForm.mkFormData
                       [] (lit "a@b.com") (lit "555") (lit "cv.pdf") [])
                    ∅ false)))
     = {[ lit "fullName" := lit "Full name is required" ]}.
Proof.
  split.
  - destruct (validateForm_gate (H := example_runtime) offline
                (ann_applies true) ann_state) as (Hwf & _).
    destruct Hwf as (_ & _ & Hfetch).
    + apply newErrors_empty_iff. vm_compute. reflexivity.
    + apply Hfetch. vm_compute. discriminate.
  - destruct (validateForm_gate (H := example_runtime) offline
                (ann_applies true)
                (ApplicationForm.mkState
                   (ApplicationForm.mkFormData
                      [] (lit "a@b.com") (lit "555") (lit "cv.pdf") [])
                   ∅ false)) as (_ & _ & _ & _ & Hsc).
    exact (proj1 (Hsc eq_refl eq_refl eq_refl eq_refl)).
Defined.

(** ** The fallback request *)

Section Fallback.
Import ApplicationForm.
Context `{Runtime}.
Variables (net : Network) (p : Props) (st : State).
Hypothesis Hvalid : newErrors (formData st) = ∅.
Hypothesis Hid : id (job p) <> [].

Let st1 := setIsSubmitting true (setErrors (fun _ => ∅) st).

Lemma handleSubmit_delivered_filter f :
  quiet f ->
  List.filter f (trace (handleSubmit net p st)) =
  List.filter f (trace (send net (job p) (formData st) initial))
    ++ match delivered net (job p) (formData st) with
       | inl _ => []
       | inr (r, u) => List.filter f (trace (conclude p r u st1))
       end.
Proof.
  intros Hq. rewrite (handleSubmit_filter net p _ st Hq Hvalid Hid).
  rewrite (attempt_filter net p _ _ _ Hq). now rewrite send_trace.
Qed.

(** What completion looks like for an accepted response. *)
Lemma conclude_accepted r u data i st' :
  is_json_type (content_type r) = true ->
  json_body r = inr data ->
  ok r = true ->
  application_id data = Some i ->
  outcome (conclude p r u st') =
    (if onSuccess p then inr tt
     else match success_url (job p) i u with
          | inl e => inl e
          | inr _ => inr tt
          end)
  /\ List.filter is_notice (trace (conclude p r u st')) =
     (if u then [Alert msg_test_mode] else [])
       ++ (if onSuccess p then [OnSuccess i]
           else match success_url (job p) i u with
                | inl _ => []
                | inr url => [RouterPush url]
                end).
Proof.
  intros Ht Hb Hok Hi. rewrite conclude_run, check_response_run, Ht, Hb, Hok.
  cbn [outcome trace fst snd]. rewrite Hi. cbv zeta.
  destruct (onSuccess p); [|destruct (success_url (job p) i u)];
    cbn [outcome trace fst snd]; (split; [reflexivity|]);
    destruct u; reflexivity.
Qed.



End Fallback.

(** C4. When the primary request throws, the handler sends exactly one
    more request, to the fallback endpoint and with the same payload, and
    marks the outcome as fallback-used; a response of the primary endpoint,
    whatever its status, is not retried.  When the fallback then answers
    201 with the JSON body [{application: {id: "x1"}}], the user is shown
    the test-mode notice and completion is signalled with id "x1". *)
Theorem transport_failure_uses_fallback `{Runtime} (net : Network)
    (p : ApplicationForm.Props) (st : ApplicationForm.State) :
  let fd := ApplicationForm.formData st in
  let j := ApplicationForm.job p in
  let run := ApplicationForm.handleSubmit net p st in
  ApplicationForm.newErrors fd = ∅ ->
  ApplicationForm.id j <> [] ->
  (forall r,
     net ApplicationForm.primary_url (ApplicationForm.request j fd) = inr r ->
     List.filter is_fetch (trace run)
     = [Fetch ApplicationForm.primary_url (ApplicationForm.request j fd)]
     /\ delivered net j fd = inr (r, false))
  /\ (forall e,
     net ApplicationForm.primary_url (ApplicationForm.request j fd) = inl e ->
     List.filter is_fetch (trace run)
     = [Fetch ApplicationForm.primary_url (ApplicationForm.request j fd);
        Fetch ApplicationForm.fallback_url (ApplicationForm.request j fd)]
     /\ forall r,
        net ApplicationForm.fallback_url (ApplicationForm.request j fd) = inr r ->
        delivered net j fd = inr (r, true)
        /\ (status r = 201 ->
            is_json_type (content_type r) = true ->
            json_body r = inr created_x1 ->
            List.filter is_notice (trace run)
            = [Alert ApplicationForm.msg_test_mode;
               if ApplicationForm.onSuccess p then OnSuccess (JStr (lit "x1"))
               else RouterPush
                      (lit "/jobs/" ++ ApplicationForm.id j
                         ++ lit "/application-success?applicationId=x1&testMode=true")]
            /\ ApplicationForm.errors (final run) = ∅)).
Proof.
  intros fd j run Hv Hid. subst fd j run. split.
  - intros r Hp. rewrite (handleSubmit_fetches net p st Hv Hid).
    rewrite Hp. split; [reflexivity|].
    unfold delivered. rewrite send_run. now rewrite Hp.
  - intros e Hp. rewrite (handleSubmit_fetches net p st Hv Hid).
    rewrite Hp. split; [reflexivity|].
    intros r Hf.
    assert (Hd : delivered net (ApplicationForm.job p) (ApplicationForm.formData st) = inr (r, true)).
    { unfold delivered. rewrite send_run. now rewrite Hp, Hf. }
    split; [exact Hd|]. intros Hs Ht Hb.
    assert (Hok : ok r = true) by (unfold ok; now rewrite Hs).
    assert (Hi : ApplicationForm.application_id created_x1
                 = Some (JStr (lit "x1"))) by (vm_compute; reflexivity).
    pose proof (conclude_accepted p r true created_x1 (JStr (lit "x1"))
                  (ApplicationForm.setIsSubmitting true
                     (ApplicationForm.setErrors (fun _ => ∅) st))
                  Ht Hb Hok Hi) as [Ho Hn].
    split.
    + rewrite (handleSubmit_delivered_filter net p st Hv Hid _ quiet_is_notice).
      rewrite Hd, Hn, send_run. rewrite Hp, Hf.
      cbn [trace snd List.filter is_notice app].
      destruct (ApplicationForm.onSuccess p); [reflexivity|].
      unfold ApplicationForm.success_url. cbn [ToString app].
      do 4 f_equal.
    + rewrite (handleSubmit_errors net p st Hv Hid), attempt_outcome.
      rewrite Hd, Ho.
      now destruct (ApplicationForm.onSuccess p).
Qed.

(** C4 on the scenario: the primary endpoint refuses the connection and
    the fallback endpoint answers 201 with [{application: {id: "x1"}}]. *)
Lemma transport_failure_uses_fallback_witness :
  let run :=
    ApplicationForm.handleSubmit (H := example_runtime)
      (primary_down (json_response 201 created_x1)) (ann_applies true)
      ann_state in
  List.filter is_fetch (trace run)
  = [Fetch ApplicationForm.primary_url (ApplicationForm.request job_j1 ann);
     Fetch ApplicationForm.fallback_url (ApplicationForm.request job_j1 ann)]
  /\ List.filter is_notice (trace run)
     = [Alert ApplicationForm.msg_test_mode; OnSuccess (JStr (lit "x1"))]
  /\ ApplicationForm.errors (final run) = ∅.
Proof.
  intros run.
  destruct (transport_failure_uses_fallback (H := example_runtime)
              (primary_down (json_response 201 created_x1)) (ann_applies true)
              ann_state) as [_ Hdown].
  - vm_compute. reflexivity.
  - vm_compute. discriminate.
  - destruct (Hdown (mkError (lit "Failed to fetch")) eq_refl) as [Hf Hr].
    split; [exact Hf|].
    destruct (Hr (json_response 201 created_x1) eq_refl) as [_ Hs].
    exact (Hs eq_refl eq_refl eq_refl).
Defined.

(** ** The shape of a successful response *)

(** The test of line 178 accepts exactly the bodies that are objects with
    an [application] object inside that has a non-empty [id]. *)
Lemma application_id_iff data i :
  ApplicationForm.application_id data = Some i <-> has_application_id data i.
Proof.
  unfold ApplicationForm.application_id, has_application_id. split.
  - destruct data as [|b|x|s|l|fields]; cbn [truthy negb get];
      try discriminate;
      try (destruct b; discriminate);
      try (destruct x; discriminate);
      try (destruct (str_truthy s); discriminate).
    destruct (assoc (lit "application") fields) as [a|] eqn:Ea; [|discriminate].
    destruct (negb (truthy a)); [discriminate|].
    destruct a as [|b|x|s|l|afields]; cbn [get]; try discriminate.
    destruct (assoc (lit "id") afields) as [i'|] eqn:Ei; [|discriminate].
    destruct (truthy i') eqn:Et; cbn [negb]; [|discriminate].
    intros E. injection E as <-. eauto 10.
  - intros (fields & afields & -> & Ea & Ei & Et).
    cbn [truthy negb get]. rewrite Ea. cbn [truthy negb get].
    now rewrite Ei, Et.
Qed.

Lemma application_id_none data :
  ApplicationForm.application_id data = None <->
  forall i, ~ has_application_id data i.
Proof.
  split.
  - intros E i Hi. apply application_id_iff in Hi. congruence.
  - intros Hn. destruct (ApplicationForm.application_id data) as [i|] eqn:E;
      [|reflexivity].
    apply application_id_iff in E. now apply Hn in E.
Qed.

(** The [error] of a body decides the message only when it is truthy. *)
Lemma errorMessage_cases (r : Response) (data : json) :
  ApplicationForm.errorMessage r data =
  match get data (lit "error") with
  | Some err => if truthy err then err else JStr (ApplicationForm.msg_status r)
  | None => JStr (ApplicationForm.msg_status r)
  end.
Proof.
  unfold ApplicationForm.errorMessage.
  destruct data as [|[]|[]|[]| |]; reflexivity.
Qed.




(** ** Runs of the Viewer *)

Section ViewerRuns.
Context `{Runtime}.
Variables (net : Network) (env : ApplicationsPage.Env).

Lemma viewer_check_response_run r st :
  ApplicationsPage.check_response r st =
  if ok r then
    if is_json_type (content_type r) then
      match json_body r with
      | inl e =>
          (inl e, st,
           [Console Log [AStr (lit "API response status:"); ANum (status r)]])
      | inr data =>
          (inr data, st,
           [Console Log [AStr (lit "API response status:"); ANum (status r)];
            Console Log [AStr (lit "Applications data received:");
                         AJson data]])
      end
    else
      (inl (mkError ApplicationsPage.msg_non_json), st,
       [Console Log [AStr (lit "API response status:"); ANum (status r)];
        Console Err [AStr (lit "Non-JSON response received:");
                     match content_type r with
                     | Some ct => AStr ct
                     | None => ANull
                     end]])
  else
    (inl (mkError (ApplicationsPage.msg_status r)), st,
     [Console Log [AStr (lit "API response status:"); ANum (status r)];
      Console Err [AStr (lit "API error: " ++ decimal (status r)
                           ++ lit " " ++ statusText r)]]).
Proof.
  unfold ApplicationsPage.check_response, console, await. cbv [bind emit ret throw].
  destruct (ok r); cbn [negb]; [|reflexivity].
  destruct (is_json_type (content_type r)); cbn [negb]; [|reflexivity].
  destruct (json_body r); reflexivity.
Qed.

(** Which check rejects, and with which ApplicationsPage.error. *)
Lemma viewer_check_response_verdict r st :
  outcome (ApplicationsPage.check_response r st) =
  match viewer_verdict r with
  | accepted data => inr data
  | rejected_status => inl (mkError (ApplicationsPage.msg_status r))
  | rejected_type => inl (mkError ApplicationsPage.msg_non_json)
  | rejected_parse =>
      inl (match json_body r with inl e => e | inr _ => mkError [] end)
  end.
Proof.
  rewrite viewer_check_response_run. unfold viewer_verdict.
  destruct (ok r); cbn [negb]; [|reflexivity].
  destruct (is_json_type (content_type r)); cbn [negb]; [|reflexivity].
  destruct (json_body r); reflexivity.
Qed.

Lemma viewer_check_response_final r st : final (ApplicationsPage.check_response r st) = st.
Proof.
  rewrite viewer_check_response_run.
  destruct (ok r), (is_json_type (content_type r)), (json_body r); reflexivity.
Qed.

(** [ApplicationsPage.store] either throws without touching the state, or replaces the
    list. *)
Lemma store_run data st :
  ApplicationsPage.store data st =
  match data with
  | JNull => (inl (mkError ApplicationsPage.msg_null), st, [])
  | _ =>
      match get data (lit "applications") with
      | Some (JArr elements) => (inr tt, ApplicationsPage.setApplications elements st, [])
      | _ =>
          (inr tt, ApplicationsPage.setApplications [] st,
           [Console Warn [AStr (lit "No applications array in response or empty applications array")]])
      end
  end.
Proof.
  unfold ApplicationsPage.store, console. cbv [bind emit modify throw].
  destruct data as [|b|x|s|l|fields]; try reflexivity.
  cbn [get]. destruct (assoc _ fields) as [[|b|x|s|l|fs]|]; try reflexivity;
    cbn [truthy_opt truthy from_option isArray andb];
    rewrite ?andb_false_r; reflexivity.
Qed.

Lemma load_run tok st :
  ApplicationsPage.load net tok st =
  let opening :=
    [Console Log [AStr (lit "Making authenticated API request...")];
     Fetch ApplicationsPage.applications_url (ApplicationsPage.request tok)] in
  match net ApplicationsPage.applications_url (ApplicationsPage.request tok) with
  | inl e => (inl e, st, opening)
  | inr r =>
      match outcome (ApplicationsPage.check_response r st) with
      | inl e => (inl e, st, opening ++ trace (ApplicationsPage.check_response r st))
      | inr data =>
          let '(res, st', tr) := ApplicationsPage.store data st in
          (res, st', opening ++ trace (ApplicationsPage.check_response r st) ++ tr)
      end
  end.
Proof.
  unfold ApplicationsPage.load, fetch, console, await. cbv [bind emit ret throw].
  destruct (net ApplicationsPage.applications_url _) as [e|r]; [reflexivity|].
  pose proof (viewer_check_response_final r st) as Hf.
  destruct (ApplicationsPage.check_response r st) as [[[e|data] st'] tr];
    cbn in Hf; subst st'; cbn [outcome trace fst snd]; [reflexivity|].
  destruct (ApplicationsPage.store data st) as [[res st'] tr']. reflexivity.
Qed.

(** A failed ApplicationsPage.load leaves the state as it was. *)
Lemma load_failed_final tok st e :
  outcome (ApplicationsPage.load net tok st) = inl e -> final (ApplicationsPage.load net tok st) = st.
Proof.
  rewrite load_run. cbv zeta.
  destruct (net ApplicationsPage.applications_url _) as [e'|r]; [reflexivity|].
  destruct (outcome (ApplicationsPage.check_response r st)) as [e'|data]; [reflexivity|].
  rewrite store_run.
  destruct data as [|b|x|s|l|fields]; try reflexivity;
    try (cbn [get]; discriminate).
  cbn [get]. destruct (assoc _ fields) as [[|b|x|s|l|fs]|]; discriminate.
Qed.

Lemma fetchApplications_run tok st :
  ApplicationsPage.token env = Some tok ->
  tok <> [] ->
  let l := ApplicationsPage.load net tok (ApplicationsPage.setIsLoading true st) in
  ApplicationsPage.fetchApplications net env st =
  match outcome l with
  | inr _ =>
      (inr tt, ApplicationsPage.setIsLoading false (final l),
       Console Log [AStr (lit "Fetching applications from API...")] :: trace l)
  | inl e =>
      (inr tt,
       ApplicationsPage.setIsLoading false (ApplicationsPage.setApplications (ApplicationsPage.mockApplications env) (final l)),
       Console Log [AStr (lit "Fetching applications from API...")]
         :: trace l
         ++ [Console Err [AStr (lit "API fetch error:"); AError e];
             Console Err [AStr (lit "Error details:"); AStr (message e)];
             Console Err [AStr (lit "Error stack:"); AStack e];
             Console Log [AStr (lit "Using mock application data as fallback")]])
  end.
Proof.
  intros Ht Hne. apply str_truthy_iff in Hne.
  unfold ApplicationsPage.fetchApplications, ApplicationsPage.fall_back, console, try_finally, try_catch.
  cbv [bind emit modify ret throw]. rewrite Ht.
  cbv [from_option default id]. rewrite Hne. cbn [negb].
  destruct (ApplicationsPage.load net tok (ApplicationsPage.setIsLoading true st)) as [[[e|[]] st'] tr];
    cbn [outcome final trace fst snd app];
    rewrite ?app_nil_r, <- ?app_assoc; reflexivity.
Qed.

(** Without a credential the page makes no ApplicationsPage.request and shows its ApplicationsPage.error. *)
Lemma fetchApplications_unauthenticated st :
  from_option str_truthy false (ApplicationsPage.token env) = false ->
  List.filter is_fetch (trace (ApplicationsPage.fetchApplications net env st)) = []
  /\ ApplicationsPage.error (final (ApplicationsPage.fetchApplications net env st)) = Some ApplicationsPage.msg_page
  /\ ApplicationsPage.applications (final (ApplicationsPage.fetchApplications net env st)) = ApplicationsPage.applications st.
Proof.
  intros Ht.
  unfold ApplicationsPage.fetchApplications, console, try_finally, try_catch.
  cbv [bind emit modify ret throw]. rewrite Ht. now cbn.
Qed.

End ViewerRuns.

(** ** The Viewer falls back to the mock records *)

Section ViewerFallback.
Context `{Runtime}.
Variables (net : Network) (env : ApplicationsPage.Env).
Variables (st : ApplicationsPage.State) (tok : jsstring).
Hypothesis Htoken : ApplicationsPage.token env = Some tok.
Hypothesis Htok : tok <> [].

Lemma load_fails st' :
  fetch_fails (net ApplicationsPage.applications_url
                 (ApplicationsPage.request tok)) ->
  exists e, outcome (ApplicationsPage.load net tok st') = inl e.
Proof.
  intros Hf. rewrite load_run. cbv zeta.
  destruct Hf as [e E|r E Hok|r E Ht|r e E Hb]; rewrite E; [now exists e| | |];
    rewrite viewer_check_response_run.
  - rewrite Hok. cbn [outcome fst]. eauto.
  - rewrite Ht. destruct (ok r); cbn [outcome fst]; eauto.
  - rewrite Hb. destruct (ok r), (is_json_type (content_type r));
      cbn [outcome fst]; eauto.
Qed.

(** What the page looks like after a failed load. *)
Lemma fetchApplications_failed e :
  outcome (ApplicationsPage.load net tok (ApplicationsPage.setIsLoading true st))
  = inl e ->
  let run := ApplicationsPage.fetchApplications net env st in
  ApplicationsPage.applications (final run) = ApplicationsPage.mockApplications env
  /\ outcome run = inr tt
  /\ ApplicationsPage.isLoading (final run) = false
  /\ ApplicationsPage.error (final run) = ApplicationsPage.error st
  /\ In (Console Err [AStr (lit "API fetch error:"); AError e]) (trace run)
  /\ In (Console Log [AStr (lit "Using mock application data as fallback")])
        (trace run).
Proof.
  intros Ho run. subst run.
  rewrite (fetchApplications_run net env tok st Htoken Htok). cbv zeta.
  rewrite Ho, (load_failed_final net tok _ e Ho).
  cbn [final outcome trace fst snd].
  repeat split; right; apply in_or_app; right; cbn; tauto.
Qed.

End ViewerFallback.

Lemma mockApplications_nonempty `{Runtime} env :
  ApplicationsPage.mockApplications env <> [].
Proof. discriminate. Qed.

(** C7. Whenever the Viewer's fetch fails (the request throws, the status
    is not a success status, the content type is not JSON, or the body does
    not parse), the list becomes the mock records, which are not empty and
    are announced as a fallback on the console; the error that made the
    fetch fail is logged; the function returns normally, the page error is
    left as it was and the loading flag is cleared.  A [text/html] answer
    yields the mock records and a logged error: the non-JSON error when the
    status is a success status, the status error otherwise. *)
Theorem failed_fetch_shows_fallback `{Runtime} (net : Network)
    (env : ApplicationsPage.Env) (st : ApplicationsPage.State)
    (tok : jsstring) :
  let run := ApplicationsPage.fetchApplications net env st in
  let answer :=
    net ApplicationsPage.applications_url (ApplicationsPage.request tok) in
  ApplicationsPage.token env = Some tok ->
  tok <> [] ->
  (fetch_fails answer ->
     ApplicationsPage.applications (final run)
     = ApplicationsPage.mockApplications env
     /\ ApplicationsPage.applications (final run) <> []
     /\ outcome run = inr tt
     /\ ApplicationsPage.isLoading (final run) = false
     /\ ApplicationsPage.error (final run) = ApplicationsPage.error st
     /\ (exists e,
           outcome (ApplicationsPage.load net tok
                      (ApplicationsPage.setIsLoading true st)) = inl e
           /\ In (Console Err [AStr (lit "API fetch error:"); AError e])
                 (trace run))
     /\ In (Console Log [AStr (lit "Using mock application data as fallback")])
           (trace run))
  /\ (forall r,
        answer = inr r ->
        content_type r = Some (lit "text/html") ->
        ApplicationsPage.applications (final run)
        = ApplicationsPage.mockApplications env
        /\ ApplicationsPage.applications (final run) <> []
        /\ In (Console Err
                 [AStr (lit "API fetch error:");
                  AError (mkError (if ok r then ApplicationsPage.msg_non_json
                                   else ApplicationsPage.msg_status r))])
              (trace run)).
Proof.
  intros run answer Htoken Htok. subst run answer. split.
  - intros Hf.
    destruct (load_fails net tok (ApplicationsPage.setIsLoading true st) Hf)
      as [e Ho].
    destruct (fetchApplications_failed net env st tok Htoken Htok e Ho)
      as (Ha & Hr & Hl & He & Hlog & Hmock).
    rewrite Ha. repeat split; try assumption.
    + apply mockApplications_nonempty.
    + now exists e.
  - intros r Hr Hct.
    assert (Ho : outcome (ApplicationsPage.load net tok
                            (ApplicationsPage.setIsLoading true st))
                 = inl (mkError (if ok r then ApplicationsPage.msg_non_json
                                 else ApplicationsPage.msg_status r))).
    { rewrite load_run. cbv zeta. rewrite Hr, viewer_check_response_run, Hct.
      destruct (ok r); reflexivity. }
    destruct (fetchApplications_failed net env st tok Htoken Htok _ Ho)
      as (Ha & _ & _ & _ & Hlog & _).
    rewrite Ha. repeat split; try assumption.
    apply mockApplications_nonempty.
Qed.

(** C7 on the scenario: the read endpoint answers 200 with [text/html]. *)
Lemma failed_fetch_shows_fallback_witness :
  let run :=
    ApplicationsPage.fetchApplications (H := example_runtime)
      (always (html_response 200)) signed_in ApplicationsPage.initial in
  ApplicationsPage.applications (final run)
  = ApplicationsPage.mockApplications (H := example_runtime) signed_in
  /\ ApplicationsPage.applications (final run) <> []
  /\ In (Console Err [AStr (lit "API fetch error:");
                      AError (mkError ApplicationsPage.msg_non_json)])
        (trace run).
Proof.
  intros run.
  destruct (failed_fetch_shows_fallback (H := example_runtime)
              (always (html_response 200)) signed_in ApplicationsPage.initial
              (lit "tok-1")) as [_ Hhtml].
  - reflexivity.
  - vm_compute. discriminate.
  - exact (Hhtml (html_response 200) eq_refl eq_refl).
Defined.

(** ** A successful fetch without an array of applications *)

(** For every parsed body other than [null] that has no [applications]
    array, the list becomes empty, nothing is said about a fallback and the
    page error is left as it was. *)
Lemma fetch_without_array `{Runtime} (net : Network)
    (env : ApplicationsPage.Env) (st : ApplicationsPage.State)
    (tok : jsstring) (r : Response) (data : json) :
  let run := ApplicationsPage.fetchApplications net env st in
  ApplicationsPage.token env = Some tok ->
  tok <> [] ->
  net ApplicationsPage.applications_url (ApplicationsPage.request tok) = inr r ->
  viewer_verdict r = accepted data ->
  data <> JNull ->
  from_option isArray false (get data (lit "applications")) = false ->
  ApplicationsPage.applications (final run) = []
  /\ ApplicationsPage.error (final run) = ApplicationsPage.error st
  /\ ~ In (Console Log [AStr (lit "Using mock application data as fallback")])
          (trace run).
Proof.
  intros run Htoken Htok Hr Hv Hnull Harr. subst run.
  rewrite (fetchApplications_run net env tok st Htoken Htok). cbv zeta.
  rewrite load_run. cbv zeta. rewrite Hr.
  assert (Hc := viewer_check_response_verdict r
                  (ApplicationsPage.setIsLoading true st)).
  rewrite Hv in Hc. rewrite Hc.
  rewrite viewer_check_response_run. revert Hv. unfold viewer_verdict.
  destruct (ok r); cbn [negb]; [|discriminate].
  destruct (is_json_type (content_type r)); cbn [negb]; [|discriminate].
  destruct (json_body r) as [e|d]; [discriminate|].
  intros E. injection E as ->. rewrite store_run.
  destruct data as [|b|x|s|l|fields]; try congruence;
    cbn [get] in *; cbn [final outcome trace fst snd];
    try (repeat split; cbn; intros Hin; intuition discriminate).
  destruct (assoc (lit "applications") fields) as [[|b|x|s|l|fs]|];
    cbn [from_option isArray] in Harr; try discriminate;
    cbn [final outcome trace fst snd];
    repeat split; cbn; intros Hin; intuition discriminate.
Qed.

(** C10 at the body [null], answered with status 200 and a JSON content
    type: reading [applications] from it throws, the inner [catch] runs, and
    the list becomes the mock records instead of the empty list. *)
Theorem null_body_takes_the_fallback :
  let run :=
    ApplicationsPage.fetchApplications (H := example_runtime)
      (always (json_response 200 JNull)) signed_in ApplicationsPage.initial in
  viewer_verdict (json_response 200 JNull) = accepted JNull
  /\ get JNull (lit "applications") = None
  /\ ApplicationsPage.applications (final run)
     = ApplicationsPage.mockApplications (H := example_runtime) signed_in
  /\ ApplicationsPage.applications (final run) <> []
  /\ In (Console Err [AStr (lit "API fetch error:");
                      AError (mkError ApplicationsPage.msg_null)])
        (trace run)
  /\ In (Console Log [AStr (lit "Using mock application data as fallback")])
        (trace run).
Proof.
  intros run. repeat split; try reflexivity.
  - discriminate.
  - vm_compute. tauto.
  - vm_compute. tauto.
Qed.

(** ** The two components check a response in different orders *)

(** C6, as stated, fails: an HTML error page with status 500 is rejected
    by the Viewer for its status and by the Submitter for its content
    type, with different errors. *)
Lemma checks_differ_on_error_page :
  let r := html_response 500 in
  viewer_verdict r = rejected_status
  /\ submitter_verdict r = rejected_type
  /\ viewer_verdict r <> submitter_verdict r
  /\ outcome (ApplicationsPage.check_response r ApplicationsPage.initial)
     = inl (mkError (lit "Failed to fetch applications: 500"))
  /\ outcome (ApplicationForm.check_response (H := example_runtime) r
                ApplicationForm.initial)
     = inl (mkError (lit "Server returned non-JSON response (500). Please check server logs.")).
Proof.
  intros r. repeat split; try reflexivity. discriminate.
Qed.

(** C6, amended.  Both components apply the same three checks and accept
    the same responses, with the same parsed body: those with a success
    status, a JSON content type and a body that parses.  On a response with
    a success status the same check rejects in both, the content type
    before the parse, each component reporting it in its own words.  The
    order differs: the Viewer checks the status first, so it rejects every
    response without a success status for its status; the Submitter checks
    the content type first, then parses, and looks at the status last, so it
    rejects such a response for its content type when that is not JSON,
    else for its body when that does not parse, and only then for its
    status, with the text that the server sent. *)
Theorem checks_agree_on_accepted_responses `{Runtime} (r : Response)
    (sf : ApplicationForm.State) (sp : ApplicationsPage.State) :
  let submitter := outcome (ApplicationForm.check_response r sf) in
  let viewer := outcome (ApplicationsPage.check_response r sp) in
  let not_json :=
    match text r with
    | inl e => e
    | inr _ =>
        mkError (lit "Server returned non-JSON response (" ++ decimal (status r)
                   ++ lit "). Please check server logs.")
    end in
  (forall data, submitter = inr data <-> viewer = inr data)
  /\ (forall data,
        submitter = inr data
        <-> ok r = true /\ is_json_type (content_type r) = true
            /\ json_body r = inr data)
  /\ (ok r = true ->
      is_json_type (content_type r) = false ->
      viewer = inl (mkError (lit "Server returned non-JSON response"))
      /\ submitter = inl not_json)
  /\ (ok r = true ->
      is_json_type (content_type r) = true ->
      forall e, json_body r = inl e ->
      viewer = inl e
      /\ submitter
         = inl (mkError (lit "Failed to parse server response. Please try again.")))
  /\ (ok r = false ->
      viewer
      = inl (mkError (lit "Failed to fetch applications: " ++ decimal (status r))))
  /\ (ok r = false ->
      is_json_type (content_type r) = false ->
      submitter = inl not_json)
  /\ (ok r = false ->
      is_json_type (content_type r) = true ->
      forall e, json_body r = inl e ->
      submitter
      = inl (mkError (lit "Failed to parse server response. Please try again.")))
  /\ (ok r = false ->
      is_json_type (content_type r) = true ->
      forall data, json_body r = inr data ->
      (truthy_opt (get data (lit "error")) = false ->
       submitter
       = inl (mkError (lit "Server returned error (" ++ decimal (status r)
                         ++ lit ")")))
      /\ (forall err,
            get data (lit "error") = Some err -> truthy err = true ->
            submitter = inl (match ToString err with
                             | inr m => mkError m
                             | inl e => e
                             end))).
Proof.
  intros submitter viewer not_json. subst submitter viewer not_json.
  rewrite check_response_run, viewer_check_response_run.
  unfold status_error, ApplicationForm.new_Error.
  destruct (ok r), (is_json_type (content_type r)),
    (json_body r) as [e|d], (text r); cbn [outcome fst];
    (split; [|split; [|split; [|split; [|split; [|split; [|split]]]]]]);
    try solve [ intros; try discriminate; try (intuition congruence);
                repeat split; try reflexivity; congruence ].
  all: intros _ _ data E; injection E as ->; rewrite errorMessage_cases; split.
  all: try (intros Hf;
            destruct (get data (lit "error")) as [err|]; cbn [truthy_opt] in Hf;
            [rewrite Hf|]; reflexivity).
  all: intros err He Ht; rewrite He, Ht; now destruct (ToString err).
Qed.

(** C6 on a JSON answer with status 200, which both accept, and on an
    error page, which the Viewer rejects for its status and the Submitter
    for its content type. *)
Lemma checks_agree_on_accepted_responses_witness :
  outcome (ApplicationForm.check_response (H := example_runtime)
             (json_response 200 created_x1) ApplicationForm.initial)
  = inr created_x1
  /\ outcome (ApplicationsPage.check_response
                (json_response 200 created_x1) ApplicationsPage.initial)
     = inr created_x1
  /\ outcome (ApplicationsPage.check_response
                (html_response 500) ApplicationsPage.initial)
     = inl (mkError (lit "Failed to fetch applications: 500"))
  /\ outcome (ApplicationForm.check_response (H := example_runtime)
                (html_response 500) ApplicationForm.initial)
     = inl (mkError (lit "Server returned non-JSON response (500). Please check server logs.")).
Proof.
  pose proof (checks_agree_on_accepted_responses (H := example_runtime)
                (json_response 200 created_x1)
                ApplicationForm.initial ApplicationsPage.initial)
    as (Hsame & Hacc & _).
  pose proof (checks_agree_on_accepted_responses (H := example_runtime)
                (html_response 500)
                ApplicationForm.initial ApplicationsPage.initial)
    as (_ & _ & _ & _ & Hstatus & Htype & _).
  assert (Hs : outcome (ApplicationForm.check_response (H := example_runtime)
                          (json_response 200 created_x1) ApplicationForm.initial)
               = inr created_x1).
  { apply Hacc. repeat split. }
  split; [exact Hs|]. split; [apply Hsame, Hs|].
  split; [exact (Hstatus eq_refl) | exact (Htype eq_refl eq_refl)].
Defined.

(** ** Status mapping *)

(** C2. [mapStatus] sends pending and reviewed to applied, interview to
    interview, rejected to rejected, accepted to offer, and every other
    string to applied; its values are the four strings of the UI
    vocabulary. *)
Theorem mapStatus_total :
  ApplicationsPage.mapStatus (lit "pending") = ApplicationsPage.applied
  /\ ApplicationsPage.mapStatus (lit "reviewed") = ApplicationsPage.applied
  /\ ApplicationsPage.mapStatus (lit "interview") = ApplicationsPage.interview
  /\ ApplicationsPage.mapStatus (lit "rejected") = ApplicationsPage.rejected
  /\ ApplicationsPage.mapStatus (lit "accepted") = ApplicationsPage.offer
  /\ (forall s,
        ~ In s [lit "pending"; lit "reviewed"; lit "interview";
                lit "rejected"; lit "accepted"] ->
        ApplicationsPage.mapStatus s = ApplicationsPage.applied)
  /\ (forall s,
        In (ApplicationsPage.UIStatus_str (ApplicationsPage.mapStatus s))
           [lit "applied"; lit "interview"; lit "rejected"; lit "offer"]).
Proof.
  repeat split; try reflexivity.
  - intros s Hs. unfold ApplicationsPage.mapStatus, str_eqb.
    repeat case_bool_decide; subst; try reflexivity;
      exfalso; apply Hs; cbn; tauto.
  - intros s. destruct (ApplicationsPage.mapStatus s); cbn; tauto.
Qed.

(** C2 on a status outside the backend vocabulary. *)
Lemma mapStatus_total_witness :
  ApplicationsPage.mapStatus (lit "withdrawn") = ApplicationsPage.applied.
Proof.
  destruct mapStatus_total as (_ & _ & _ & _ & _ & Hother & _).
  apply Hother. cbn. intros Hin.
  repeat (destruct Hin as [E|Hin]; [vm_compute in E; discriminate E|]).
  exact Hin.
Defined.

(** ** Filtering *)

Section Filtering.
Import ApplicationsPage.
Context `{Runtime}.

Lemma filter_is_all f : str_eqb (Filter_str f) (lit "all") = true <-> f = f_all.
Proof. destruct f; split; try reflexivity; discriminate. Qed.

Lemma str_eqb_iff a b : str_eqb a b = true <-> a = b.
Proof. unfold str_eqb. apply bool_decide_eq_true. Qed.

Lemma ci_includes_iff q s :
  includes (toLowerCase s) (toLowerCase q) = true <-> occurs_lowered q s.
Proof. apply includes_iff. Qed.

(** What the callback reads with [app.job?.field || ''] is the field. *)
Lemma or_default_searched (field : Job -> jsstring) app :
  or_default (field <$> job app) [] = searched field app.
Proof.
  unfold searched. destruct (job app) as [j|]; [|reflexivity].
  cbn. now destruct (field j).
Qed.

(** The callback keeps exactly the records that satisfy both predicates. *)
Lemma keep_iff f q app :
  keep f q app = true <-> status_ok f app /\ search_ok q app.
Proof.
  unfold keep, status_ok, search_ok. rewrite !or_default_searched.
  rewrite <- !ci_includes_iff, <- filter_is_all, <- str_eqb_iff.
  destruct (str_eqb (Filter_str f) (lit "all"));
    destruct (str_eqb (UIStatus_str (mapStatus (status app))) (Filter_str f));
    cbn [negb andb];
    destruct q as [|c q]; cbn [str_truthy];
    rewrite ?orb_true_iff; intuition congruence.
Qed.

Lemma filteredApplications_iff apps f q app :
  In app (filteredApplications apps f q) <->
  In app apps /\ status_ok f app /\ search_ok q app.
Proof.
  unfold filteredApplications. now rewrite List.filter_In, keep_iff.
Qed.

Lemma filter_idempotent {A} (P : A -> bool) l :
  List.filter P (List.filter P l) = List.filter P l.
Proof.
  induction l as [|x l IH]; [reflexivity|]. cbn [List.filter].
  destruct (P x) eqn:E; [|exact IH]. cbn [List.filter]. now rewrite E, IH.
Qed.

End Filtering.

(** On Basic Latin text, the occurrence of the lower-case forms is the
    case-insensitive substring. *)
Lemma occurs_lowered_ci `{Runtime} (q s : jsstring) :
  lowers_ascii -> is_ascii q -> is_ascii s ->
  occurs_lowered q s <-> ci_substring q s.
Proof.
  intros Hl Hq Hs. split.
  - intros (pre & post & E). rewrite (Hl s Hs), (Hl q Hq) in E.
    unfold ascii_toLowerCase in E.
    apply List.map_eq_app in E as (s1 & s23 & -> & E1 & E23).
    apply List.map_eq_app in E23 as (s2 & s3 & -> & E2 & E3).
    exists s1, s2, s3. split; [reflexivity|].
    apply Forall_app in Hs as [_ Hs]. apply Forall_app in Hs as [Hs _].
    unfold same_up_to_case. now rewrite (Hl s2 Hs), (Hl q Hq).
  - intros (pre & m & post & -> & E). unfold same_up_to_case in E.
    pose proof Hs as Hs'.
    apply Forall_app in Hs' as [Hpre Hs']. apply Forall_app in Hs' as [Hm Hpost].
    exists (ascii_toLowerCase pre), (ascii_toLowerCase post).
    rewrite <- E, (Hl _ Hs), (Hl m Hm).
    unfold ascii_toLowerCase. now rewrite !List.map_app.
Qed.

(** C3, as stated, fails on a host that lower-cases by the Unicode case
    mapping: the query "Σ" is a substring of the title "AΣ", letter for
    letter, yet the record is not listed, because the capital sigma that
    ends a word is lower-cased to the final sigma and the one that stands
    alone to the small sigma. *)
Lemma search_misses_a_final_sigma :
  let q := [931] in
  ApplicationsPage.title <$> ApplicationsPage.job record_sigma
  = Some ([65] ++ q ++ [])
  /\ ci_substring (H := sigma_runtime) q
       (searched ApplicationsPage.title record_sigma)
  /\ status_ok ApplicationsPage.f_all record_sigma
  /\ search_ok_ci (H := sigma_runtime) q record_sigma
  /\ ApplicationsPage.filteredApplications (H := sigma_runtime)
       [record_sigma] ApplicationsPage.f_all q = []
  /\ ~ (forall app,
          ApplicationsPage.keep (H := sigma_runtime) ApplicationsPage.f_all q app
          = true
          <-> status_ok ApplicationsPage.f_all app
              /\ search_ok_ci (H := sigma_runtime) q app).
Proof.
  intros q.
  assert (Hci : ci_substring (H := sigma_runtime) q
                  (searched ApplicationsPage.title record_sigma)).
  { exists [65], q, []. split; reflexivity. }
  assert (Hst : status_ok ApplicationsPage.f_all record_sigma) by now left.
  assert (Hok : search_ok_ci (H := sigma_runtime) q record_sigma)
    by (right; left; exact Hci).
  repeat split; try assumption.
  intros Hall. specialize (Hall record_sigma).
  destruct Hall as [_ Hkeep]. specialize (Hkeep (conj Hst Hok)).
  vm_compute in Hkeep. discriminate Hkeep.
Qed.

(** C3, amended.  For every list of records, every filter and every
    query, the filtered list consists, in their original order, of the
    records for which the status predicate and the search predicate both
    hold: it is what any decision procedure for their conjunction selects.
    The search predicate holds when the query is empty or its lower-case
    form occurs in the lower-case form of the title, the company or the
    location (the empty string for a record without a job); for a query and
    fields in Basic Latin this is the case-insensitive substring.
    Filtering the filtered list again with the same filter and query
    changes nothing. *)
Theorem filteredApplications_conjunction `{Runtime}
    (apps : list ApplicationsPage.Application)
    (f : ApplicationsPage.Filter) (q : jsstring) :
  (forall app,
     ApplicationsPage.keep f q app = true <-> status_ok f app /\ search_ok q app)
  /\ (forall app,
     In app (ApplicationsPage.filteredApplications apps f q) <->
     In app apps /\ status_ok f app /\ search_ok q app)
  /\ (forall P : ApplicationsPage.Application -> bool,
     (forall app, P app = true <-> status_ok f app /\ search_ok q app) ->
     ApplicationsPage.filteredApplications apps f q = List.filter P apps)
  /\ ApplicationsPage.filteredApplications
       (ApplicationsPage.filteredApplications apps f q) f q
     = ApplicationsPage.filteredApplications apps f q
  /\ (lowers_ascii ->
      is_ascii q ->
      forall app,
        is_ascii (searched ApplicationsPage.title app) ->
        is_ascii (searched ApplicationsPage.company app) ->
        is_ascii (searched ApplicationsPage.location app) ->
        (search_ok q app <-> search_ok_ci q app)
        /\ (ApplicationsPage.keep f q app = true
            <-> status_ok f app /\ search_ok_ci q app)).
Proof.
  split; [apply keep_iff|]. split; [apply filteredApplications_iff|].
  split; [|split].
  - intros P HP. unfold ApplicationsPage.filteredApplications.
    apply List.filter_ext. intros app.
    destruct (P app) eqn:E.
    + now apply keep_iff, HP.
    + destruct (ApplicationsPage.keep f q app) eqn:E'; [|reflexivity].
      apply keep_iff, HP in E'. congruence.
  - apply filter_idempotent.
  - intros Hl Hq app Ht Hc Hloc.
    assert (Hsame : search_ok q app <-> search_ok_ci q app).
    { unfold search_ok, search_ok_ci.
      now rewrite !(occurs_lowered_ci q _ Hl Hq) by assumption. }
    split; [exact Hsame|]. now rewrite keep_iff, Hsame.
Qed.

(** C3 on the scenario, with the ASCII runtime: the accepted record with
    the title "X" is listed under the filter offer for the query "x", and
    neither for the query "w" nor under the filter rejected. *)
Lemma filteredApplications_conjunction_witness :
  In record_a1
     (ApplicationsPage.filteredApplications (H := example_runtime)
        [record_orphan; record_a1] ApplicationsPage.f_offer (lit "x"))
  /\ ~ In record_a1
        (ApplicationsPage.filteredApplications (H := example_runtime)
           [record_orphan; record_a1] ApplicationsPage.f_offer (lit "w"))
  /\ ~ In record_a1
        (ApplicationsPage.filteredApplications (H := example_runtime)
           [record_orphan; record_a1] ApplicationsPage.f_rejected (lit "x"))
  /\ search_ok_ci (H := example_runtime) (lit "x") record_a1.
Proof.
  destruct (filteredApplications_conjunction (H := example_runtime)
              [record_orphan; record_a1] ApplicationsPage.f_offer (lit "x"))
    as (_ & Hx & _ & _ & Hci).
  destruct (filteredApplications_conjunction (H := example_runtime)
              [record_orphan; record_a1] ApplicationsPage.f_offer (lit "w"))
    as (_ & Hw & _ & _ & _).
  destruct (filteredApplications_conjunction (H := example_runtime)
              [record_orphan; record_a1] ApplicationsPage.f_rejected (lit "x"))
    as (_ & Hr & _ & _ & _).
  assert (Hfound : In record_a1
            (ApplicationsPage.filteredApplications (H := example_runtime)
               [record_orphan; record_a1] ApplicationsPage.f_offer (lit "x"))).
  { apply Hx. split; [right; left; reflexivity|].
    split; [right; reflexivity|].
    right. left. exists [], []. reflexivity. }
  split; [exact Hfound|]. split; [|split].
  - intros Hmem. apply Hw in Hmem as (_ & _ & [E|[E|[E|E]]]);
      [vm_compute in E; discriminate E | | |];
      apply (ci_includes_iff (H := example_runtime)) in E;
      vm_compute in E; discriminate E.
  - intros Hmem. apply Hr in Hmem as (_ & [E|E] & _);
      vm_compute in E; discriminate E.
  - assert (Ha : forall s, is_ascii (lit s) <-> forallb (fun c => c <? 128) (lit s) = true).
    { intros s. unfold is_ascii. rewrite forallb_forall, List.Forall_forall.
      split; intros Hs c Hc; apply N.ltb_lt, Hs, Hc. }
    destruct (Hci (fun s _ => eq_refl)) with (app := record_a1) as [Hsame _];
      try (apply Ha; reflexivity).
    apply Hsame. now apply Hx in Hfound as (_ & _ & Hs).
Defined.

(** ** Records without a job *)

Section NullJob.
Import ApplicationsPage.
Context `{Runtime}.
Variable app : Application.
Hypothesis Hjob : job app = None.

Lemma searched_null field : searched field app = [].
Proof. unfold searched. now rewrite Hjob. Qed.

Lemma keep_null f q : q <> [] -> keep f q app = false.
Proof.
  intros Hq. unfold keep. rewrite Hjob. cbn [fmap option_fmap option_map or_default].
  destruct (negb _ && negb _); [reflexivity|].
  assert (Ht : str_truthy q = true) by now apply str_truthy_iff.
  rewrite Ht, toLowerCase_empty.
  now rewrite (includes_nil_l _ (toLowerCase_nonempty q Hq)).
Qed.

End NullJob.

(** C9. A record whose [job] is [null] is displayed with the placeholders
    "Unknown Job", "Unknown Company" and "Unknown Location", while the
    search reads the empty string for each of the three fields; so every
    non-empty query removes the record from the filtered list, whatever the
    status filter, and this includes the queries that spell out one of the
    placeholders. *)
Theorem null_job_escapes_search `{Runtime}
    (app : ApplicationsPage.Application) :
  ApplicationsPage.job app = None ->
  ApplicationsPage.formatApplicationsForTable [app]
  = [ {| ApplicationsPage.row_id := ApplicationsPage.id app;
         ApplicationsPage.row_title := lit "Unknown Job";
         ApplicationsPage.row_company := lit "Unknown Company";
         ApplicationsPage.row_location := lit "Unknown Location";
         ApplicationsPage.row_status :=
           ApplicationsPage.mapStatus (ApplicationsPage.status app);
         ApplicationsPage.row_date :=
           toLocaleDateString (ApplicationsPage.appliedDate app) |} ]
  /\ searched ApplicationsPage.title app = []
  /\ searched ApplicationsPage.company app = []
  /\ searched ApplicationsPage.location app = []
  /\ (forall apps f q,
        q <> [] -> ~ In app (ApplicationsPage.filteredApplications apps f q))
  /\ (forall apps f,
        ~ In app (ApplicationsPage.filteredApplications apps f (lit "Unknown Job"))
        /\ ~ In app (ApplicationsPage.filteredApplications apps f
                       (lit "Unknown Company"))
        /\ ~ In app (ApplicationsPage.filteredApplications apps f
                       (lit "Unknown Location"))).
Proof.
  intros Hjob.
  assert (Hout : forall apps f q,
            q <> [] ->
            ~ In app (ApplicationsPage.filteredApplications apps f q)).
  { intros apps f q Hq Hin. unfold ApplicationsPage.filteredApplications in Hin.
    apply List.filter_In in Hin as [_ Hk].
    rewrite (keep_null app Hjob f q Hq) in Hk. discriminate Hk. }
  split.
  { unfold ApplicationsPage.formatApplicationsForTable. cbn [List.map].
    now rewrite Hjob. }
  repeat split; try (now apply searched_null); try exact Hout;
    apply Hout; discriminate.
Qed.

(** C9 on a record without a job, searched for by its displayed title. *)
Lemma null_job_escapes_search_witness :
  ApplicationsPage.row_title
    <$> ApplicationsPage.formatApplicationsForTable (H := example_runtime)
          [record_orphan]
  = [lit "Unknown Job"]
  /\ ~ In record_orphan
        (ApplicationsPage.filteredApplications (H := example_runtime)
           [record_orphan; record_a1] ApplicationsPage.f_all
           (lit "Unknown Job")).
Proof.
  destruct (null_job_escapes_search (H := example_runtime) record_orphan eq_refl)
    as (Hrow & _ & _ & _ & _ & Hplace).
  split; [now rewrite Hrow|].
  exact (proj1 (Hplace [record_orphan; record_a1] ApplicationsPage.f_all)).
Defined.

(** * Further properties of the Submitter *)

Section SubmitterOutcomes.
Context `{Runtime}.
Variables (net : Network) (p : ApplicationForm.Props).
Variable st : ApplicationForm.State.

Lemma attempt_formData fd st' :
  ApplicationForm.formData (final (ApplicationForm.attempt net p fd st'))
  = ApplicationForm.formData st'.
Proof. now rewrite attempt_final. Qed.

(** The three ways through the handler. *)
Lemma handleSubmit_cases :
  (ApplicationForm.newErrors (ApplicationForm.formData st) <> ∅)
  \/ (ApplicationForm.newErrors (ApplicationForm.formData st) = ∅
      /\ ApplicationForm.id (ApplicationForm.job p) = [])
  \/ (ApplicationForm.newErrors (ApplicationForm.formData st) = ∅
      /\ ApplicationForm.id (ApplicationForm.job p) <> []).
Proof.
  destruct (decide (ApplicationForm.newErrors (ApplicationForm.formData st) = ∅));
    [|now left].
  destruct (ApplicationForm.id (ApplicationForm.job p)) eqn:E;
    [right; left | right; right]; split; congruence.
Qed.

(** The errors after a submission that reached the network: none, or the
    text of the error that ended the attempt. *)
Lemma handleSubmit_submit_error :
  ApplicationForm.newErrors (ApplicationForm.formData st) = ∅ ->
  ApplicationForm.id (ApplicationForm.job p) <> [] ->
  ApplicationForm.errors (final (ApplicationForm.handleSubmit net p st)) =
  match delivered net (ApplicationForm.job p) (ApplicationForm.formData st) with
  | inl e =>
      {[ lit "submit" := if str_truthy (message e) then message e
                         else ApplicationForm.msg_failed ]}
  | inr (r, u) =>
      match outcome (ApplicationForm.conclude p r u
                       (ApplicationForm.setIsSubmitting true
                          (ApplicationForm.setErrors (fun _ => ∅) st))) with
      | inl e =>
          {[ lit "submit" := if str_truthy (message e) then message e
                             else ApplicationForm.msg_failed ]}
      | inr _ => ∅
      end
  end.
Proof.
  intros Hv Hid. rewrite (handleSubmit_errors net p st Hv Hid), attempt_outcome.
  now destruct (delivered _ _ _) as [e|[r u]].
Qed.

End SubmitterOutcomes.

(** The handler returns, keeps the form data, and clears the busy flag. *)
Lemma handleSubmit_summary `{Runtime} (net : Network)
    (p : ApplicationForm.Props) (st : ApplicationForm.State) :
  outcome (ApplicationForm.handleSubmit net p st) = inr tt
  /\ ApplicationForm.formData (final (ApplicationForm.handleSubmit net p st))
     = ApplicationForm.formData st
  /\ (ApplicationForm.isSubmitting st = false ->
      ApplicationForm.isSubmitting (final (ApplicationForm.handleSubmit net p st))
      = false)
  /\ (ApplicationForm.newErrors (ApplicationForm.formData st) = ∅ ->
      ApplicationForm.id (ApplicationForm.job p) <> [] ->
      ApplicationForm.isSubmitting (final (ApplicationForm.handleSubmit net p st))
      = false).
Proof.
  destruct (handleSubmit_cases p st) as [Hne|[[Hv Hid]|[Hv Hid]]].
  - rewrite (handleSubmit_invalid net p st Hne). cbn. tauto.
  - rewrite (handleSubmit_no_job net p st Hv Hid). cbn.
    repeat split; try tauto; congruence.
  - rewrite (handleSubmit_run net p st Hv Hid). cbv zeta.
    pose proof (attempt_final net p (ApplicationForm.formData st)
                  (ApplicationForm.setIsSubmitting true
                     (ApplicationForm.setErrors (fun _ => ∅) st))) as Hf.
    set (a := ApplicationForm.attempt net p _ _) in *.
    destruct (outcome a); cbn [outcome final fst snd] in *;
      rewrite Hf; cbn; tauto.
Qed.

(** X1. The submit handler never throws and never edits the form data;
    once it has passed validation and the job-id guard it always ends with
    the busy flag cleared, whatever the network did, and a handler that
    starts idle ends idle. *)
Theorem handleSubmit_always_returns `{Runtime} (net : Network)
    (p : ApplicationForm.Props) (st : ApplicationForm.State) :
  let run := ApplicationForm.handleSubmit net p st in
  outcome run = inr tt
  /\ ApplicationForm.formData (final run) = ApplicationForm.formData st
  /\ (ApplicationForm.isSubmitting st = false ->
      ApplicationForm.isSubmitting (final run) = false)
  /\ (ApplicationForm.newErrors (ApplicationForm.formData st) = ∅ ->
      ApplicationForm.id (ApplicationForm.job p) <> [] ->
      ApplicationForm.isSubmitting (final run) = false).
Proof. apply handleSubmit_summary. Qed.

(** X1 on a submission that finds the network down. *)
Lemma handleSubmit_always_returns_witness :
  ApplicationForm.isSubmitting
    (final (ApplicationForm.handleSubmit (H := example_runtime) offline
              (ann_applies true) ann_state)) = false.
Proof.
  destruct (handleSubmit_always_returns (H := example_runtime) offline
              (ann_applies true) ann_state) as (_ & _ & _ & Hbusy).
  apply Hbusy; [vm_compute; reflexivity | vm_compute; discriminate].
Defined.

(** X2. A valid form for a job without an id is stopped before the
    network: the only effect is [preventDefault], the only error is the
    job-id message under [submit], and the busy flag is not touched. *)
Theorem missing_job_id_stops_submission `{Runtime} (net : Network)
    (p : ApplicationForm.Props) (st : ApplicationForm.State) :
  let run := ApplicationForm.handleSubmit net p st in
  ApplicationForm.newErrors (ApplicationForm.formData st) = ∅ ->
  ApplicationForm.id (ApplicationForm.job p) = [] ->
  trace run = [PreventDefault]
  /\ ApplicationForm.errors (final run)
     = {[ lit "submit" := ApplicationForm.msg_job_id ]}
  /\ ApplicationForm.isSubmitting (final run) = ApplicationForm.isSubmitting st.
Proof.
  intros run Hv Hid. subst run.
  now rewrite (handleSubmit_no_job net p st Hv Hid).
Qed.

Lemma missing_job_id_stops_submission_witness :
  let run :=
    ApplicationForm.handleSubmit (H := example_runtime)
      (always (json_response 201 created_x1))
      (ApplicationForm.mkProps
         (ApplicationForm.mkJobPost [] (lit "Engineer") (lit "Acme") (lit "Remote"))
         true)
      ann_state in
  trace run = [PreventDefault]
  /\ ApplicationForm.errors (final run)
     = {[ lit "submit" := ApplicationForm.msg_job_id ]}
  /\ ApplicationForm.isSubmitting (final run) = false.
Proof.
  intros run.
  apply (missing_job_id_stops_submission (H := example_runtime)
           (always (json_response 201 created_x1))
           (ApplicationForm.mkProps
              (ApplicationForm.mkJobPost [] (lit "Engineer") (lit "Acme")
                 (lit "Remote")) true)
           ann_state); [vm_compute; reflexivity | reflexivity].
Defined.

(** X3. When the primary and the fallback request both throw, the user is
    shown the message of the fallback's error, or the generic message when
    that is empty; the primary's error is only logged; nothing signals
    completion. *)
Theorem both_endpoints_down `{Runtime} (net : Network)
    (p : ApplicationForm.Props) (st : ApplicationForm.State)
    (e1 e2 : Error) :
  let fd := ApplicationForm.formData st in
  let j := ApplicationForm.job p in
  let run := ApplicationForm.handleSubmit net p st in
  ApplicationForm.newErrors fd = ∅ ->
  ApplicationForm.id j <> [] ->
  net ApplicationForm.primary_url (ApplicationForm.request j fd) = inl e1 ->
  net ApplicationForm.fallback_url (ApplicationForm.request j fd) = inl e2 ->
  ApplicationForm.errors (final run)
  = {[ lit "submit" := if str_truthy (message e2) then message e2
                       else ApplicationForm.msg_failed ]}
  /\ List.filter is_notice (trace run) = []
  /\ In (Console Err [AStr (lit "Primary API endpoint failed:"); AError e1])
        (trace run)
  /\ In (Console Err [AStr (lit "Error submitting application:"); AError e2])
        (trace run).
Proof.
  intros fd j run Hv Hid H1 H2. subst fd j run.
  assert (Hd : delivered net (ApplicationForm.job p) (ApplicationForm.formData st)
               = inl e2).
  { unfold delivered. now rewrite send_run, H1, H2. }
  split; [now rewrite (handleSubmit_submit_error net p st Hv Hid), Hd|].
  split.
  { rewrite (handleSubmit_delivered_filter net p st Hv Hid _ quiet_is_notice).
    now rewrite Hd, send_run, H1, H2. }
  rewrite (handleSubmit_run net p st Hv Hid). cbv zeta.
  rewrite attempt_outcome, Hd, attempt_run, send_run, H1, H2.
  cbn [trace snd]. rewrite !in_app_iff. cbn [In]. tauto.
Qed.

Lemma both_endpoints_down_witness :
  ApplicationForm.errors
    (final (ApplicationForm.handleSubmit (H := example_runtime) offline
              (ann_applies true) ann_state))
  = {[ lit "submit" := lit "Failed to fetch" ]}.
Proof.
  refine (proj1 (both_endpoints_down (H := example_runtime) offline
                   (ann_applies true) ann_state
                   (mkError (lit "Failed to fetch"))
                   (mkError (lit "Failed to fetch")) _ _ eq_refl eq_refl)).
  - vm_compute. reflexivity.
  - vm_compute. discriminate.
Defined.

Section SubmitterAnswers.
Context `{Runtime}.
Variables (net : Network) (p : ApplicationForm.Props).
Variable st : ApplicationForm.State.
Variables (r : Response) (u : bool).
Hypothesis Hvalid : ApplicationForm.newErrors (ApplicationForm.formData st) = ∅.
Hypothesis Hid : ApplicationForm.id (ApplicationForm.job p) <> [].
Hypothesis Hdelivered :
  delivered net (ApplicationForm.job p) (ApplicationForm.formData st)
  = inr (r, u).

Let st1 :=
  ApplicationForm.setIsSubmitting true
    (ApplicationForm.setErrors (fun _ => ∅) st).

Lemma answered_errors :
  ApplicationForm.errors (final (ApplicationForm.handleSubmit net p st)) =
  match outcome (ApplicationForm.conclude p r u st1) with
  | inl e =>
      {[ lit "submit" := if str_truthy (message e) then message e
                         else ApplicationForm.msg_failed ]}
  | inr _ => ∅
  end.
Proof.
  now rewrite (handleSubmit_submit_error net p st Hvalid Hid), Hdelivered.
Qed.

Lemma answered_filter f :
  quiet f ->
  (forall url init, f (Fetch url init) = false) ->
  List.filter f (trace (ApplicationForm.handleSubmit net p st))
  = List.filter f (trace (ApplicationForm.conclude p r u st1)).
Proof.
  intros Hq Hf.
  rewrite (handleSubmit_delivered_filter net p st Hvalid Hid f Hq), Hdelivered.
  destruct Hq as [_ Hc]. rewrite send_run.
  destruct (net ApplicationForm.primary_url _);
    [destruct (net ApplicationForm.fallback_url _)|];
    cbn [trace snd List.filter]; now rewrite ?Hc, ?Hf.
Qed.

Lemma answered_trace ev :
  In ev (trace (ApplicationForm.conclude p r u st1)) ->
  In ev (trace (ApplicationForm.handleSubmit net p st)).
Proof.
  rewrite (handleSubmit_run net p st Hvalid Hid). cbv zeta.
  rewrite attempt_run.
  pose proof (send_outcome net p (ApplicationForm.formData st) st1) as Ho.
  pose proof (send_final net p (ApplicationForm.formData st) st1) as Hf.
  rewrite Hdelivered in Ho. fold st1.
  destruct (ApplicationForm.send net (ApplicationForm.job p) _ st1)
    as [[[e|[r' u']] st'] tr]; cbn [outcome final fst snd] in Ho, Hf;
    [discriminate|].
  injection Ho as -> ->. subst st'.
  destruct (ApplicationForm.conclude p r u st1) as [[[e|[]] st''] tr'];
    cbn [outcome trace fst snd]; intros Hin;
    apply in_or_app; right; rewrite !in_app_iff; tauto.
Qed.

End SubmitterAnswers.

Lemma msg_non_json_truthy r : str_truthy (ApplicationForm.msg_non_json r) = true.
Proof. reflexivity. Qed.

Lemma msg_status_truthy r : str_truthy (ApplicationForm.msg_status r) = true.
Proof. reflexivity. Qed.

(** X4. An answer whose content type is not JSON is never parsed: the
    checks behave the same whatever [response.json()] would have done, and
    nothing signals completion.  When the text of the answer can be read,
    its first 500 code units are logged and the user is shown the non-JSON
    message that names the HTTP status; when reading the text fails, the
    user is shown the message of that failure, or the generic message when
    it is empty. *)
Theorem non_json_answer_is_not_parsed `{Runtime} (net : Network)
    (p : ApplicationForm.Props) (st : ApplicationForm.State)
    (r : Response) (u : bool) :
  let run := ApplicationForm.handleSubmit net p st in
  ApplicationForm.newErrors (ApplicationForm.formData st) = ∅ ->
  ApplicationForm.id (ApplicationForm.job p) <> [] ->
  delivered net (ApplicationForm.job p) (ApplicationForm.formData st)
  = inr (r, u) ->
  is_json_type (content_type r) = false ->
  (forall responseText,
     text r = inr responseText ->
     ApplicationForm.errors (final run)
     = {[ lit "submit" :=
            lit "Server returned non-JSON response (" ++ decimal (status r)
              ++ lit "). Please check server logs." ]}
     /\ In (Console Err [AStr (lit "Response text (first 500 chars):");
                         AStr (take 500 responseText)])
           (trace run))
  /\ (forall e,
        text r = inl e ->
        ApplicationForm.errors (final run)
        = {[ lit "submit" :=
               if str_truthy (message e) then message e
               else lit "Failed to submit application. Please try again." ]})
  /\ List.filter is_notice (trace run) = []
  /\ (forall b st',
        ApplicationForm.check_response (with_json_body r b) st'
        = ApplicationForm.check_response r st').
Proof.
  intros run Hv Hid Hd Ht. subst run.
  rewrite (answered_errors net p st r u Hv Hid Hd).
  rewrite (answered_filter net p st r u Hv Hid Hd _ quiet_is_notice)
    by reflexivity.
  split; [|split; [|split]].
  - intros responseText Htext. split.
    + rewrite conclude_run, check_response_run, Ht, Htext.
      cbn [outcome trace fst snd message]. now rewrite msg_non_json_truthy.
    + apply (answered_trace net p st r u Hv Hid Hd).
      rewrite conclude_run, check_response_run, Ht, Htext.
      cbn [outcome trace fst snd In]. tauto.
  - intros e Htext. now rewrite conclude_run, check_response_run, Ht, Htext.
  - rewrite conclude_run, check_response_run, Ht.
    destruct (text r); reflexivity.
  - intros b st'. rewrite !check_response_run.
    cbn [content_type text with_json_body]. now rewrite Ht.
Qed.

(** X4 on an error page, and on an answer whose text cannot be read. *)
Lemma non_json_answer_is_not_parsed_witness :
  ApplicationForm.errors
    (final (ApplicationForm.handleSubmit (H := example_runtime)
              (always (html_response 502)) (ann_applies true) ann_state))
  = {[ lit "submit" :=
         lit "Server returned non-JSON response (502). Please check server logs." ]}
  /\ ApplicationForm.errors
       (final (ApplicationForm.handleSubmit (H := example_runtime)
                 (always unreadable_502) (ann_applies true) ann_state))
     = {[ lit "submit" := lit "body stream already read" ]}.
Proof.
  split.
  - destruct (non_json_answer_is_not_parsed (H := example_runtime)
                (always (html_response 502)) (ann_applies true) ann_state
                (html_response 502) false) as (Hread & _).
    + vm_compute. reflexivity.
    + vm_compute. discriminate.
    + reflexivity.
    + reflexivity.
    + exact (proj1 (Hread (lit "<html></html>") eq_refl)).
  - destruct (non_json_answer_is_not_parsed (H := example_runtime)
                (always unreadable_502) (ann_applies true) ann_state
                unreadable_502 false) as (_ & Hfailed & _).
    + vm_compute. reflexivity.
    + vm_compute. discriminate.
    + reflexivity.
    + reflexivity.
    + exact (Hfailed (mkError (lit "body stream already read")) eq_refl).
Defined.

(** X5. A JSON answer whose body does not parse is reported as "Failed to
    parse server response", whatever its HTTP status: the body is parsed
    before the status is looked at.  The parser's own error is logged. *)
Theorem parse_failure_precedes_status `{Runtime} (net : Network)
    (p : ApplicationForm.Props) (st : ApplicationForm.State)
    (r : Response) (u : bool) (parseError : Error) :
  let run := ApplicationForm.handleSubmit net p st in
  ApplicationForm.newErrors (ApplicationForm.formData st) = ∅ ->
  ApplicationForm.id (ApplicationForm.job p) <> [] ->
  delivered net (ApplicationForm.job p) (ApplicationForm.formData st)
  = inr (r, u) ->
  is_json_type (content_type r) = true ->
  json_body r = inl parseError ->
  ApplicationForm.errors (final run)
  = {[ lit "submit" := ApplicationForm.msg_parse ]}
  /\ List.filter is_notice (trace run) = []
  /\ In (Console Err [AStr (lit "Error parsing JSON response:");
                      AError parseError])
        (trace run).
Proof.
  intros run Hv Hid Hd Ht Hb. subst run.
  rewrite (answered_errors net p st r u Hv Hid Hd).
  rewrite (answered_filter net p st r u Hv Hid Hd _ quiet_is_notice)
    by reflexivity.
  split; [|split].
  - now rewrite conclude_run, check_response_run, Ht, Hb.
  - now rewrite conclude_run, check_response_run, Ht, Hb.
  - apply (answered_trace net p st r u Hv Hid Hd).
    rewrite conclude_run, check_response_run, Ht, Hb. cbn. tauto.
Qed.

Lemma parse_failure_precedes_status_witness :
  ApplicationForm.errors
    (final (ApplicationForm.handleSubmit (H := example_runtime)
              (always (with_json_body (json_response 500 JNull)
                         (inl (mkError (lit "Unexpected end of JSON input")))))
              (ann_applies true) ann_state))
  = {[ lit "submit" := ApplicationForm.msg_parse ]}.
Proof.
  refine (proj1 (parse_failure_precedes_status (H := example_runtime)
                   (always (with_json_body (json_response 500 JNull)
                              (inl (mkError (lit "Unexpected end of JSON input")))))
                   (ann_applies true) ann_state
                   (with_json_body (json_response 500 JNull)
                      (inl (mkError (lit "Unexpected end of JSON input"))))
                   false (mkError (lit "Unexpected end of JSON input"))
                   _ _ eq_refl eq_refl eq_refl)).
  - vm_compute. reflexivity.
  - vm_compute. discriminate.
Defined.

(** X6. For a parsed answer without a success status the user is shown
    the server's own text: a non-empty string under [error] is shown as it
    is; a body without [error] gives "Server returned error (status)"; and
    an [error] that is truthy but renders as the empty string, such as the
    empty array, gives the generic failure message. *)
Theorem server_error_text_is_shown `{Runtime} (net : Network)
    (p : ApplicationForm.Props) (st : ApplicationForm.State)
    (r : Response) (u : bool) (fields : list (jsstring * json)) :
  let run := ApplicationForm.handleSubmit net p st in
  ApplicationForm.newErrors (ApplicationForm.formData st) = ∅ ->
  ApplicationForm.id (ApplicationForm.job p) <> [] ->
  delivered net (ApplicationForm.job p) (ApplicationForm.formData st)
  = inr (r, u) ->
  is_json_type (content_type r) = true ->
  json_body r = inr (JObj fields) ->
  ok r = false ->
  List.filter is_notice (trace run) = []
  /\ (forall s, assoc (lit "error") fields = Some (JStr s) -> s <> [] ->
      ApplicationForm.errors (final run) = {[ lit "submit" := s ]})
  /\ (assoc (lit "error") fields = None ->
      ApplicationForm.errors (final run)
      = {[ lit "submit" :=
             lit "Server returned error (" ++ decimal (status r) ++ lit ")" ]})
  /\ (assoc (lit "error") fields = Some (JArr []) ->
      ApplicationForm.errors (final run)
      = {[ lit "submit" := ApplicationForm.msg_failed ]}).
Proof.
  intros run Hv Hid Hd Ht Hb Hok. subst run.
  rewrite (answered_errors net p st r u Hv Hid Hd).
  rewrite (answered_filter net p st r u Hv Hid Hd _ quiet_is_notice)
    by reflexivity.
  rewrite conclude_run, check_response_run, Ht, Hb, Hok.
  cbn [outcome trace fst snd].
  unfold status_error, ApplicationForm.new_Error.
  rewrite errorMessage_cases. cbn [get].
  split; [reflexivity|]. split; [|split].
  - intros s Hs Hne. rewrite Hs. destruct s; [congruence | reflexivity].
  - intros Hs. rewrite Hs. cbn [ToString message].
    now rewrite msg_status_truthy.
  - intros Hs. rewrite Hs. reflexivity.
Qed.

Lemma server_error_text_is_shown_witness :
  ApplicationForm.errors
    (final (ApplicationForm.handleSubmit (H := example_runtime)
              (always (json_response 409
                         (JObj [(lit "error", JStr (lit "Already applied"))])))
              (ann_applies true) ann_state))
  = {[ lit "submit" := lit "Already applied" ]}.
Proof.
  destruct (server_error_text_is_shown (H := example_runtime)
              (always (json_response 409
                         (JObj [(lit "error", JStr (lit "Already applied"))])))
              (ann_applies true) ann_state
              (json_response 409
                 (JObj [(lit "error", JStr (lit "Already applied"))]))
              false [(lit "error", JStr (lit "Already applied"))])
    as (_ & Hshown & _).
  - vm_compute. reflexivity.
  - vm_compute. discriminate.
  - reflexivity.
  - reflexivity.
  - reflexivity.
  - reflexivity.
  - apply Hshown; [reflexivity | vm_compute; discriminate].
Defined.

(** X7. What the user is told after a submission that reached the
    network: nothing unless the answer passes the three checks and carries
    an application id; then the test-mode alert exactly when the fallback
    endpoint answered, followed by one completion signal: the callback with
    the id when a callback is given, and otherwise the navigation to the
    success page, whose address carries the job id, the string form of the
    application id and the test-mode flag.  An id without a string form
    stops the navigation, after the alert. *)
Theorem notices_of_a_submission `{Runtime} (net : Network)
    (p : ApplicationForm.Props) (st : ApplicationForm.State) :
  let run := ApplicationForm.handleSubmit net p st in
  let j := ApplicationForm.job p in
  let fd := ApplicationForm.formData st in
  ApplicationForm.newErrors fd = ∅ ->
  ApplicationForm.id j <> [] ->
  (forall e, delivered net j fd = inl e -> List.filter is_notice (trace run) = [])
  /\ (forall r u,
        delivered net j fd = inr (r, u) ->
        is_json_type (content_type r) = false
        \/ ok r = false
        \/ (exists e, json_body r = inl e)
        \/ (exists data,
              json_body r = inr data /\ forall i, ~ has_application_id data i) ->
        List.filter is_notice (trace run) = [])
  /\ (forall r u data i,
        delivered net j fd = inr (r, u) ->
        is_json_type (content_type r) = true ->
        ok r = true ->
        json_body r = inr data ->
        has_application_id data i ->
        List.filter is_notice (trace run) =
        (if u
         then [Alert (lit "Your application was submitted in test mode. In a production environment, this would be saved to a database.")]
         else [])
          ++ (if ApplicationForm.onSuccess p then [OnSuccess i]
              else match ToString i with
                   | inr s =>
                       [RouterPush
                          (lit "/jobs/" ++ ApplicationForm.id j
                             ++ lit "/application-success?applicationId=" ++ s
                             ++ (if u then lit "&testMode=true" else []))]
                   | inl _ => []
                   end)).
Proof.
  intros run j fd Hv Hid. subst run j fd. split; [|split].
  - intros e Hd.
    rewrite (handleSubmit_delivered_filter net p st Hv Hid _ quiet_is_notice).
    rewrite Hd, send_run. revert Hd. unfold delivered. rewrite send_run.
    destruct (net ApplicationForm.primary_url _);
      [destruct (net ApplicationForm.fallback_url _)|]; try discriminate;
      reflexivity.
  - intros r u Hd Hbad.
    rewrite (answered_filter net p st r u Hv Hid Hd _ quiet_is_notice)
      by reflexivity.
    set (st1 := ApplicationForm.setIsSubmitting true _).
    assert (Hq := check_response_quiet r st1 is_notice
                    (or_intror (or_introl eq_refl))).
    rewrite conclude_run.
    destruct (outcome (ApplicationForm.check_response r st1))
      as [e|data] eqn:Ho; cbn [trace snd]; [exact Hq|].
    revert Ho Hq. rewrite check_response_run.
    destruct (is_json_type (content_type r));
      [|destruct (text r); discriminate].
    destruct (json_body r) as [e|d] eqn:Hb; [discriminate|].
    destruct (ok r); [|discriminate]. cbn [outcome trace fst snd].
    intros E Hq. injection E as ->.
    destruct Hbad as [Hbad|[Hbad|[[e Hbad]|(d & Hbad & Hn)]]];
      try discriminate.
    injection Hbad as <-. apply application_id_none in Hn. rewrite Hn.
    reflexivity.
  - intros r u data i Hd Ht Hok Hb Hi. apply application_id_iff in Hi.
    rewrite (answered_filter net p st r u Hv Hid Hd _ quiet_is_notice)
      by reflexivity.
    rewrite (proj2 (conclude_accepted p r u data i _ Ht Hb Hok Hi)).
    unfold ApplicationForm.success_url.
    destruct (ApplicationForm.onSuccess p); [reflexivity|].
    now destruct (ToString i).
Qed.

(** X7 on an answer of the primary endpoint, for a form without a
    callback: no alert, and a navigation without the test-mode flag. *)
Lemma notices_of_a_submission_witness :
  List.filter is_notice
    (trace (ApplicationForm.handleSubmit (H := example_runtime)
              (always (json_response 201 created_x1)) (ann_applies false)
              ann_state))
  = [RouterPush (lit "/jobs/j1/application-success?applicationId=x1")].
Proof.
  destruct (notices_of_a_submission (H := example_runtime)
              (always (json_response 201 created_x1)) (ann_applies false)
              ann_state) as (_ & _ & Hdone).
  - vm_compute. reflexivity.
  - vm_compute. discriminate.
  - rewrite (Hdone (json_response 201 created_x1) false created_x1
               (JStr (lit "x1")) eq_refl eq_refl eq_refl eq_refl).
    + vm_compute. reflexivity.
    + apply application_id_iff. vm_compute. reflexivity.
Defined.

(** * Editing the form *)

Section Editing.
Context `{Runtime}.

Lemma handleChange_run name value form :
  FormEditing.handleChange name value form =
  (inr tt,
   (if FormEditing.has_error
         (ApplicationForm.errors (FormEditing.state form))
         (FormEditing.name_str name)
    then FormEditing.setErrors
           (fun prev => delete (FormEditing.name_str name) prev)
           (FormEditing.setFormData (FormEditing.set_field name value) form)
    else FormEditing.setFormData (FormEditing.set_field name value) form),
   []).
Proof.
  unfold FormEditing.handleChange. cbv [bind read modify ret].
  destruct (FormEditing.has_error _ _); reflexivity.
Qed.

Lemma handleFileChange_run files form :
  FormEditing.handleFileChange files form =
  (inr tt,
   match FormEditing.first_file files with
   | None => form
   | Some file =>
       let form' :=
         FormEditing.setResumeFileName (FormEditing.name file)
           (FormEditing.setFormData
              (FormEditing.set_resume (FormEditing.name file)) form) in
       if FormEditing.has_error
            (ApplicationForm.errors (FormEditing.state form)) (lit "resume")
       then FormEditing.setErrors (fun prev => delete (lit "resume") prev) form'
       else form'
   end,
   []).
Proof.
  unfold FormEditing.handleFileChange. cbv [bind read modify ret].
  destruct (FormEditing.first_file files); [|reflexivity].
  destruct (FormEditing.has_error _ _); reflexivity.
Qed.

(** Deleting a key whose text is shown, or keeping the map when it is not,
    leaves no shown text under the key. *)
Lemma has_error_cleared (errors : gmap jsstring jsstring) k :
  FormEditing.has_error
    (if FormEditing.has_error errors k then delete k errors else errors) k
  = false.
Proof.
  destruct (FormEditing.has_error errors k) eqn:E; [|exact E].
  unfold FormEditing.has_error. now rewrite lookup_delete_eq.
Qed.

Lemma handleSubmit_form_run net p form :
  FormEditing.handleSubmit net p form =
  (outcome (ApplicationForm.handleSubmit net p (FormEditing.state form)),
   FormEditing.mkForm
     (final (ApplicationForm.handleSubmit net p (FormEditing.state form)))
     (FormEditing.resumeFileName form),
   trace (ApplicationForm.handleSubmit net p (FormEditing.state form))).
Proof.
  unfold FormEditing.handleSubmit, FormEditing.on_state.
  now destruct (ApplicationForm.handleSubmit net p _) as [[r st] tr].
Qed.

Lemma handle_returns p a form : outcome (FormEditing.handle p a form) = inr tt.
Proof.
  destruct a as [name value|files|net]; cbn [FormEditing.handle].
  - now rewrite handleChange_run.
  - now rewrite handleFileChange_run.
  - rewrite handleSubmit_form_run.
    apply (handleSubmit_summary net p (FormEditing.state form)).
Qed.

Lemma session_cons p a l form :
  FormEditing.session p (a :: l) form =
  (outcome (FormEditing.session p l (final (FormEditing.handle p a form))),
   final (FormEditing.session p l (final (FormEditing.handle p a form))),
   trace (FormEditing.handle p a form)
     ++ trace (FormEditing.session p l (final (FormEditing.handle p a form)))).
Proof.
  cbn [FormEditing.session]. unfold bind at 1.
  pose proof (handle_returns p a form) as Ho.
  destruct (FormEditing.handle p a form) as [[[e|[]] form'] tr];
    cbn in Ho; [discriminate|].
  cbn [final trace fst snd].
  now destruct (FormEditing.session p l form') as [[r form''] tr'].
Qed.

End Editing.

(** X8. Typing into an input changes that field of the form data and no
    other, calls nothing, and takes the field's error off the screen
    without validating the new value; the errors under every other key, the
    submit error among them, stay, and so do the resume, the displayed file
    name and the busy flag. *)
Theorem handleChange_edits_one_field (name : FormEditing.InputName)
    (value : jsstring) (form : FormEditing.Form) :
  let run := FormEditing.handleChange name value form in
  let before := FormEditing.state form in
  let after := FormEditing.state (final run) in
  outcome run = inr tt
  /\ trace run = []
  /\ ApplicationForm.formData after
     = FormEditing.set_field name value (ApplicationForm.formData before)
  /\ ApplicationForm.resume (ApplicationForm.formData after)
     = ApplicationForm.resume (ApplicationForm.formData before)
  /\ FormEditing.resumeFileName (final run) = FormEditing.resumeFileName form
  /\ ApplicationForm.isSubmitting after = ApplicationForm.isSubmitting before
  /\ FormEditing.has_error (ApplicationForm.errors after)
       (FormEditing.name_str name) = false
  /\ (forall k, k <> FormEditing.name_str name ->
        ApplicationForm.errors after !! k = ApplicationForm.errors before !! k)
  /\ ApplicationForm.errors after !! lit "submit"
     = ApplicationForm.errors before !! lit "submit"
  /\ (let old := ApplicationForm.formData before in
      let new := ApplicationForm.formData after in
      (ApplicationForm.fullName new, ApplicationForm.email new,
       ApplicationForm.phone new, ApplicationForm.coverLetter new)
      = match name with
        | FormEditing.n_fullName =>
            (value, ApplicationForm.email old,
             ApplicationForm.phone old, ApplicationForm.coverLetter old)
        | FormEditing.n_email =>
            (ApplicationForm.fullName old, value,
             ApplicationForm.phone old, ApplicationForm.coverLetter old)
        | FormEditing.n_phone =>
            (ApplicationForm.fullName old, ApplicationForm.email old,
             value, ApplicationForm.coverLetter old)
        | FormEditing.n_coverLetter =>
            (ApplicationForm.fullName old, ApplicationForm.email old,
             ApplicationForm.phone old, value)
        end).
Proof.
  intros run before after. subst run before after.
  rewrite handleChange_run. cbn [outcome final trace fst snd].
  assert (Hkeys : forall k : jsstring,
            In k [lit "submit"; lit "resume"] -> k <> FormEditing.name_str name).
  { intros k Hin Hx. subst k. cbn in Hin.
    destruct name, Hin as [E|[E|[]]]; vm_compute in E; discriminate E. }
  destruct (FormEditing.has_error
              (ApplicationForm.errors (FormEditing.state form))
              (FormEditing.name_str name)) eqn:E; cbn.
  - repeat split; try (now destruct name).
    + unfold FormEditing.has_error. now rewrite lookup_delete_eq.
    + intros k Hne. now rewrite lookup_delete_ne.
    + rewrite lookup_delete_ne; [reflexivity|].
      intros Hx. symmetry in Hx. revert Hx. apply Hkeys. cbn. tauto.
  - repeat split; try (now destruct name); exact E.
Qed.

(** X9. Closing the file dialog without a file changes nothing.  Choosing
    a file stores its name both as the resume to submit and as the file
    name on display, takes the resume error off the screen, and touches no
    other field and no other error. *)
Theorem handleFileChange_sets_the_resume (files : option (list FormEditing.File))
    (form : FormEditing.Form) :
  let run := FormEditing.handleFileChange files form in
  let before := FormEditing.state form in
  let after := FormEditing.state (final run) in
  outcome run = inr tt
  /\ trace run = []
  /\ (files = None \/ files = Some [] -> final run = form)
  /\ (forall file rest,
        files = Some (file :: rest) ->
        ApplicationForm.formData after
        = FormEditing.set_resume (FormEditing.name file)
            (ApplicationForm.formData before)
        /\ FormEditing.resumeFileName (final run) = FormEditing.name file
        /\ FormEditing.has_error (ApplicationForm.errors after) (lit "resume")
           = false
        /\ (forall k, k <> lit "resume" ->
              ApplicationForm.errors after !! k
              = ApplicationForm.errors before !! k)).
Proof.
  intros run before after. subst run before after.
  rewrite handleFileChange_run. cbn [outcome final trace fst snd].
  repeat split.
  - intros [-> | ->]; reflexivity.
  - subst files. cbn. now destruct (FormEditing.has_error _ _).
  - subst files. cbn. now destruct (FormEditing.has_error _ _).
  - subst files. cbn [FormEditing.first_file]. cbv zeta.
    destruct (FormEditing.has_error
                (ApplicationForm.errors (FormEditing.state form))
                (lit "resume")) eqn:E; cbn; [|exact E].
    unfold FormEditing.has_error. now rewrite lookup_delete_eq.
  - intros k Hne. subst files. cbn [FormEditing.first_file]. cbv zeta.
    destruct (FormEditing.has_error _ _); cbn; [|reflexivity].
    now rewrite lookup_delete_ne.
Qed.

Lemma handleFileChange_sets_the_resume_witness :
  let form :=
    final (FormEditing.handleFileChange
             (Some [FormEditing.mkFile (lit "cv.pdf")]) FormEditing.initial) in
  ApplicationForm.resume (ApplicationForm.formData (FormEditing.state form))
  = lit "cv.pdf"
  /\ FormEditing.resumeFileName form = lit "cv.pdf".
Proof.
  intros form.
  destruct (handleFileChange_sets_the_resume
              (Some [FormEditing.mkFile (lit "cv.pdf")]) FormEditing.initial)
    as (_ & _ & _ & Hfile).
  destruct (Hfile (FormEditing.mkFile (lit "cv.pdf")) [] eq_refl)
    as (Hdata & Hname & _).
  split; [|exact Hname].
  subst form. now rewrite Hdata.
Defined.

Section Sessions.
Context `{Runtime}.
Variable p : ApplicationForm.Props.

Lemma newErrors_texts fd k m :
  ApplicationForm.newErrors fd !! k = Some m -> m <> [] /\ In k error_keys.
Proof.
  rewrite newErrors_lookup. unfold error_keys.
  repeat case_decide; subst;
    repeat match goal with
           | |- context [if ?b then _ else _] => destruct b
           end;
    intros E; try discriminate E; injection E as <-;
    (split; [discriminate | cbn; tauto]).
Qed.

(** Every error that a submission leaves behind is a non-empty text under
    one of the five keys. *)
Lemma handleSubmit_texts net st k m :
  ApplicationForm.errors (final (ApplicationForm.handleSubmit net p st)) !! k
  = Some m ->
  m <> [] /\ In k error_keys.
Proof.
  destruct (handleSubmit_cases p st) as [Hne|[[Hv Hid]|[Hv Hid]]].
  - rewrite (handleSubmit_invalid net p st Hne). apply newErrors_texts.
  - rewrite (handleSubmit_no_job net p st Hv Hid). cbn [final fst snd].
    cbn. intros E. apply lookup_singleton_Some in E as [<- <-].
    split; [discriminate | cbn; tauto].
  - rewrite (handleSubmit_errors net p st Hv Hid).
    destruct (outcome _) as [e|]; [|now rewrite lookup_empty].
    intros E. apply lookup_singleton_Some in E as [<- <-].
    split; [|cbn; tauto].
    destruct (str_truthy (message e)) eqn:Et; [now apply str_truthy_iff|].
    discriminate.
Qed.

Lemma handle_settled a form :
  settled form -> settled (final (FormEditing.handle p a form)).
Proof.
  intros Hs. pose proof Hs as (Hname & Hbusy & Htexts).
  destruct a as [name value|files|net]; cbn [FormEditing.handle].
  - rewrite handleChange_run. cbn [final fst snd].
    destruct (FormEditing.has_error _ _); cbn;
      (split; [now destruct name|]); (split; [exact Hbusy|]).
    + intros k m E. cbn in E. apply lookup_delete_Some in E as [_ E]. eauto.
    + exact Htexts.
  - rewrite handleFileChange_run. cbn [final fst snd].
    destruct (FormEditing.first_file files) as [file|]; [|exact Hs].
    cbv zeta. destruct (FormEditing.has_error _ _); cbn;
      (split; [reflexivity|]); (split; [exact Hbusy|]).
    + intros k m E. cbn in E. apply lookup_delete_Some in E as [_ E]. eauto.
    + exact Htexts.
  - rewrite handleSubmit_form_run. cbn [final fst snd].
    destruct (handleSubmit_summary net p (FormEditing.state form))
      as (_ & Hdata & Hidle & _).
    unfold settled. cbn [FormEditing.state FormEditing.resumeFileName].
    split; [now rewrite Hdata|]. split; [now apply Hidle|].
    apply handleSubmit_texts.
Qed.

Lemma session_settled l form :
  settled form ->
  outcome (FormEditing.session p l form) = inr tt
  /\ settled (final (FormEditing.session p l form)).
Proof.
  revert form. induction l as [|a l IH]; intros form Hs; [now split|].
  rewrite session_cons. cbn [outcome final fst snd].
  apply IH, handle_settled, Hs.
Qed.

Lemma formData_after_change name value form :
  ApplicationForm.formData
    (FormEditing.state (final (FormEditing.handleChange name value form)))
  = FormEditing.set_field name value
      (ApplicationForm.formData (FormEditing.state form)).
Proof.
  rewrite handleChange_run. cbn [final fst snd].
  now destruct (FormEditing.has_error _ _).
Qed.

Lemma formData_after_file file rest form :
  ApplicationForm.formData
    (FormEditing.state
       (final (FormEditing.handleFileChange (Some (file :: rest)) form)))
  = FormEditing.set_resume (FormEditing.name file)
      (ApplicationForm.formData (FormEditing.state form)).
Proof.
  rewrite handleFileChange_run. cbn [final fst snd FormEditing.first_file].
  cbv zeta. now destruct (FormEditing.has_error _ _).
Qed.

End Sessions.

Lemma initial_settled : settled FormEditing.initial.
Proof.
  repeat split; try reflexivity; cbn in H; rewrite lookup_empty in H;
    discriminate H.
Qed.

(** X10. Through every sequence of edits, file choices and submissions,
    each handled to completion, no handler throws, and between any two of
    them the file name on display is the resume that would be submitted,
    the busy flag is off, and every stored error is a non-empty text under
    one of the keys fullName, email, phone, resume and submit. *)
Theorem form_stays_settled `{Runtime} (p : ApplicationForm.Props)
    (l : list FormEditing.action) (form : FormEditing.Form) :
  settled form ->
  outcome (FormEditing.session p l form) = inr tt
  /\ settled (final (FormEditing.session p l form)).
Proof. apply session_settled. Qed.

(** X10 from the initial form: a file is chosen, a name is typed, and the
    form is submitted while the network is down. *)
Lemma form_stays_settled_witness :
  settled
    (final (FormEditing.session (H := example_runtime) (ann_applies true)
              [FormEditing.ChooseFile (Some [FormEditing.mkFile (lit "cv.pdf")]);
               FormEditing.Change FormEditing.n_fullName (lit "Ann Lee");
               FormEditing.Submit offline]
              FormEditing.initial)).
Proof.
  exact (proj2 (form_stays_settled (H := example_runtime) (ann_applies true)
                  [FormEditing.ChooseFile
                     (Some [FormEditing.mkFile (lit "cv.pdf")]);
                   FormEditing.Change FormEditing.n_fullName (lit "Ann Lee");
                   FormEditing.Submit offline]
                  FormEditing.initial initial_settled)).
Defined.

(** X11. What is typed is what is sent: after the three text inputs have
    been filled in and a file has been chosen, with well-formed values, a
    submission passes validation whatever errors were on display before,
    and its first request is a POST to [/api/applications], declared as
    JSON, whose body holds the job id, the three typed values, the name of
    the chosen file and the cover letter as it stood. *)
Theorem typed_values_are_sent `{Runtime} (p : ApplicationForm.Props)
    (net : Network) (form : FormEditing.Form)
    (a b c : jsstring) (file : FormEditing.File) :
  let letter :=
    ApplicationForm.coverLetter
      (ApplicationForm.formData (FormEditing.state form)) in
  let fd := ApplicationForm.mkFormData a b c (FormEditing.name file) letter in
  let run :=
    FormEditing.session p
      [FormEditing.Change FormEditing.n_fullName a;
       FormEditing.Change FormEditing.n_email b;
       FormEditing.Change FormEditing.n_phone c;
       FormEditing.ChooseFile (Some [file]);
       FormEditing.Submit net] form in
  well_formed fd ->
  ApplicationForm.id (ApplicationForm.job p) <> [] ->
  head (List.filter is_fetch (trace run))
  = Some (Fetch (lit "/api/applications")
            {| method := Some (lit "POST");
               headers := [ (lit "Content-Type", lit "application/json") ];
               body :=
                 Some (JObj [ (lit "jobId",
                               JStr (ApplicationForm.id (ApplicationForm.job p)));
                              (lit "fullName", JStr a);
                              (lit "email", JStr b);
                              (lit "phone", JStr c);
                              (lit "resume", JStr (FormEditing.name file));
                              (lit "coverLetter", JStr letter) ]) |})
  /\ ApplicationForm.formData (FormEditing.state (final run)) = fd
  /\ forall k, k <> lit "submit" ->
       ApplicationForm.errors (FormEditing.state (final run)) !! k = None.
Proof.
  intros letter fd run Hwf Hid. subst run.
  apply newErrors_empty_iff in Hwf.
  rewrite !session_cons. cbn [FormEditing.session].
  cbn [FormEditing.handle]. cbn [outcome final trace fst snd ret].
  set (f1 := final (FormEditing.handleChange FormEditing.n_fullName a form)).
  set (f2 := final (FormEditing.handleChange FormEditing.n_email b f1)).
  set (f3 := final (FormEditing.handleChange FormEditing.n_phone c f2)).
  set (f4 := final (FormEditing.handleFileChange (Some [file]) f3)).
  assert (Hfd : ApplicationForm.formData (FormEditing.state f4) = fd).
  { subst f4 f3 f2 f1.
    now rewrite formData_after_file, !formData_after_change. }
  rewrite !handleChange_run, handleFileChange_run, handleSubmit_form_run.
  cbn [trace final fst snd app FormEditing.state].
  rewrite app_nil_r. rewrite <- Hfd in Hwf.
  rewrite (handleSubmit_fetches net p _ Hwf Hid), Hfd.
  split; [reflexivity|].
  destruct (handleSubmit_summary net p (FormEditing.state f4)) as (_ & Hd & _).
  split; [now rewrite Hd|].
  intros k Hk. rewrite (handleSubmit_errors net p _ Hwf Hid).
  destruct (outcome _); [|apply lookup_empty].
  now rewrite lookup_singleton_ne.
Qed.

Lemma typed_values_are_sent_witness :
  head (List.filter is_fetch
          (trace (FormEditing.session (H := example_runtime) (ann_applies true)
                    [FormEditing.Change FormEditing.n_fullName (lit "Ann Lee");
                     FormEditing.Change FormEditing.n_email (lit "a@b.com");
                     FormEditing.Change FormEditing.n_phone (lit "555");
                     FormEditing.ChooseFile
                       (Some [FormEditing.mkFile (lit "cv.pdf")]);
                     FormEditing.Submit offline]
                    FormEditing.initial)))
  = Some (Fetch (lit "/api/applications")
            {| method := Some (lit "POST");
               headers := [ (lit "Content-Type", lit "application/json") ];
               body :=
                 Some (JObj [ (lit "jobId", JStr (lit "j1"));
                              (lit "fullName", JStr (lit "Ann Lee"));
                              (lit "email", JStr (lit "a@b.com"));
                              (lit "phone", JStr (lit "555"));
                              (lit "resume", JStr (lit "cv.pdf"));
                              (lit "coverLetter", JStr []) ]) |}).
Proof.
  refine (proj1 (typed_values_are_sent (H := example_runtime)
                   (ann_applies true) offline FormEditing.initial
                   (lit "Ann Lee") (lit "a@b.com") (lit "555")
                   (FormEditing.mkFile (lit "cv.pdf")) _ _)).
  - apply newErrors_empty_iff. vm_compute. reflexivity.
  - vm_compute. discriminate.
Defined.

(** * Further properties of the Viewer *)

Section ViewerOutcomes.
Context `{Runtime}.
Variables (net : Network) (env : ApplicationsPage.Env).
Variable st : ApplicationsPage.State.

Lemma store_quiet data st' f :
  (forall l args, f (Console l args) = false) ->
  List.filter f (trace (ApplicationsPage.store data st')) = [].
Proof.
  intros Hc. rewrite store_run.
  destruct data as [|b|x|s|l|fields]; cbn [get trace snd List.filter];
    rewrite ?Hc; try reflexivity.
  destruct (assoc _ fields) as [[|b|x|s|l|fs]|]; cbn [trace snd List.filter];
    now rewrite ?Hc.
Qed.

Lemma viewer_check_quiet r st' f :
  (forall l args, f (Console l args) = false) ->
  List.filter f (trace (ApplicationsPage.check_response r st')) = [].
Proof.
  intros Hc. rewrite viewer_check_response_run.
  destruct (ok r), (is_json_type (content_type r)), (json_body r);
    cbn [trace snd List.filter]; now rewrite ?Hc.
Qed.

(** A load makes exactly one request. *)
Lemma load_fetches tok st' :
  List.filter is_fetch (trace (ApplicationsPage.load net tok st'))
  = [Fetch ApplicationsPage.applications_url (ApplicationsPage.request tok)].
Proof.
  rewrite load_run. cbv zeta.
  destruct (net ApplicationsPage.applications_url _) as [e|r]; [reflexivity|].
  pose proof (viewer_check_quiet r st' is_fetch (fun _ _ => eq_refl)) as Hq.
  destruct (outcome (ApplicationsPage.check_response r st')) as [e|data];
    cbn [trace snd].
  - cbn [app List.filter is_fetch]. now rewrite Hq.
  - pose proof (store_quiet data st' is_fetch (fun _ _ => eq_refl)) as Hs.
    destruct (ApplicationsPage.store data st') as [[res st''] tr].
    cbn [trace snd] in *. cbn [app List.filter is_fetch].
    now rewrite List.filter_app, Hq, Hs.
Qed.

Lemma has_token_cases :
  (has_token env = false)
  \/ exists tok, ApplicationsPage.token env = Some tok /\ tok <> [].
Proof.
  unfold has_token. destruct (ApplicationsPage.token env) as [[|c tok]|];
    cbn; [now left | | now left].
  right. eexists. split; [reflexivity | discriminate].
Qed.

Lemma fetchApplications_summary :
  let run := ApplicationsPage.fetchApplications net env st in
  outcome run = inr tt
  /\ ApplicationsPage.isLoading (final run) = false
  /\ List.filter is_fetch (trace run)
     = match ApplicationsPage.token env with
       | Some tok =>
           if str_truthy tok
           then [Fetch ApplicationsPage.applications_url
                   (ApplicationsPage.request tok)]
           else []
       | None => []
       end
  /\ List.filter is_push (trace run) = [].
Proof.
  intros run. subst run.
  destruct has_token_cases as [Ht|(tok & Ht & Hne)].
  - unfold has_token in Ht.
    unfold ApplicationsPage.fetchApplications, console, try_finally, try_catch.
    cbv [bind emit modify ret throw]. rewrite Ht. cbn.
    repeat split. now destruct (ApplicationsPage.token env) as [[|]|].
  - rewrite (fetchApplications_run net env tok st Ht Hne). cbv zeta.
    rewrite Ht. apply str_truthy_iff in Hne. rewrite Hne.
    pose proof (load_fetches tok (ApplicationsPage.setIsLoading true st)) as Hf.
    assert (Hp : List.filter is_push
                   (trace (ApplicationsPage.load net tok
                             (ApplicationsPage.setIsLoading true st))) = []).
    { rewrite load_run. cbv zeta.
      destruct (net ApplicationsPage.applications_url _) as [e|r];
        [reflexivity|].
      pose proof (viewer_check_quiet r
                    (ApplicationsPage.setIsLoading true st) is_push
                    (fun _ _ => eq_refl)) as Hq.
      destruct (outcome (ApplicationsPage.check_response r _)) as [e|data];
        cbn [trace snd]; cbn [app List.filter is_push]; [exact Hq|].
      pose proof (store_quiet data (ApplicationsPage.setIsLoading true st)
                    is_push (fun _ _ => eq_refl)) as Hs.
      destruct (ApplicationsPage.store data _) as [[res st''] tr].
      cbn [trace snd] in *. cbn [app List.filter is_push].
      now rewrite List.filter_app, Hq, Hs. }
    destruct (outcome (ApplicationsPage.load net tok
                         (ApplicationsPage.setIsLoading true st)));
      cbn [outcome final trace fst snd];
      cbn [List.filter is_fetch is_push]; rewrite ?List.filter_app, ?Hf, ?Hp;
      now repeat split.
Qed.

End ViewerOutcomes.

(** X12. fetchApplications never throws, always ends with the loading
    flag cleared, never navigates, and makes at most one request: exactly
    one, to the read endpoint with the bearer credential, when a non-empty
    token is stored, and none otherwise. *)
Theorem fetchApplications_always_returns `{Runtime} (net : Network)
    (env : ApplicationsPage.Env) (st : ApplicationsPage.State) :
  let run := ApplicationsPage.fetchApplications net env st in
  outcome run = inr tt
  /\ ApplicationsPage.isLoading (final run) = false
  /\ List.filter is_fetch (trace run)
     = match ApplicationsPage.token env with
       | Some tok =>
           if str_truthy tok
           then [Fetch ApplicationsPage.applications_url
                   {| method := None;
                      headers := [(lit "Authorization", lit "Bearer " ++ tok)];
                      body := None |}]
           else []
       | None => []
       end
  /\ List.filter is_push (trace run) = [].
Proof. apply fetchApplications_summary. Qed.

(** X13. Without a stored credential, or with an empty one, the page
    makes no request at all, keeps its list, shows the page-level error
    message and clears the loading flag; the mock records are not
    substituted. *)
Theorem missing_token_shows_page_error `{Runtime} (net : Network)
    (env : ApplicationsPage.Env) (st : ApplicationsPage.State) :
  let run := ApplicationsPage.fetchApplications net env st in
  ApplicationsPage.token env = None \/ ApplicationsPage.token env = Some [] ->
  List.filter is_fetch (trace run) = []
  /\ ApplicationsPage.error (final run)
     = Some (lit "Failed to load your applications. Please try again later.")
  /\ ApplicationsPage.applications (final run) = ApplicationsPage.applications st
  /\ ApplicationsPage.isLoading (final run) = false
  /\ ~ In (Console Log [AStr (lit "Using mock application data as fallback")])
          (trace run).
Proof.
  intros run Ht. subst run.
  unfold ApplicationsPage.fetchApplications, console, try_finally, try_catch.
  cbv [bind emit modify ret throw].
  destruct Ht as [-> | ->]; cbn; repeat split; intuition discriminate.
Qed.

Lemma missing_token_shows_page_error_witness :
  ApplicationsPage.error
    (final (ApplicationsPage.fetchApplications (H := example_runtime)
              (always (json_response 200 (JObj [])))
              (ApplicationsPage.mkEnv None 0 0) ApplicationsPage.initial))
  = Some (lit "Failed to load your applications. Please try again later.").
Proof.
  destruct (missing_token_shows_page_error (H := example_runtime)
              (always (json_response 200 (JObj [])))
              (ApplicationsPage.mkEnv None 0 0) ApplicationsPage.initial)
    as (_ & He & _).
  - left. reflexivity.
  - exact He.
Defined.

(** X14. When the answer passes the three checks and its body has an
    array under [applications], that array replaces the list in full,
    whatever the list held before and also when the array is empty; the page
    error is left as it was and nothing is logged as an error or a
    warning. *)
Theorem fetched_list_replaces_the_list `{Runtime} (net : Network)
    (env : ApplicationsPage.Env) (st : ApplicationsPage.State)
    (tok : jsstring) (r : Response) (data : json) (l : list json) :
  let run := ApplicationsPage.fetchApplications net env st in
  ApplicationsPage.token env = Some tok ->
  tok <> [] ->
  net ApplicationsPage.applications_url (ApplicationsPage.request tok) = inr r ->
  viewer_verdict r = accepted data ->
  get data (lit "applications") = Some (JArr l) ->
  ApplicationsPage.applications (final run) = l
  /\ ApplicationsPage.error (final run) = ApplicationsPage.error st
  /\ List.filter is_problem (trace run) = [].
Proof.
  intros run Htoken Htok Hr Hv Hl. subst run.
  rewrite (fetchApplications_run net env tok st Htoken Htok). cbv zeta.
  rewrite load_run. cbv zeta. rewrite Hr.
  assert (Hc := viewer_check_response_verdict r
                  (ApplicationsPage.setIsLoading true st)).
  rewrite Hv in Hc. rewrite Hc.
  rewrite viewer_check_response_run. revert Hv. unfold viewer_verdict.
  destruct (ok r); cbn [negb]; [|discriminate].
  destruct (is_json_type (content_type r)); cbn [negb]; [|discriminate].
  destruct (json_body r) as [e|d]; [discriminate|].
  intros E. injection E as ->. rewrite store_run.
  destruct data as [|b|x|s|l'|fields]; try discriminate Hl.
  rewrite Hl. cbn. repeat split.
Qed.

Lemma fetched_list_replaces_the_list_witness :
  ApplicationsPage.applications
    (final (ApplicationsPage.fetchApplications (H := example_runtime)
              (always (json_response 200 (JObj [(lit "applications", JArr [])])))
              signed_in
              (ApplicationsPage.mkState [JNull; JNull] true None)))
  = [].
Proof.
  refine (proj1 (fetched_list_replaces_the_list (H := example_runtime)
                   (always (json_response 200
                              (JObj [(lit "applications", JArr [])])))
                   signed_in
                   (ApplicationsPage.mkState [JNull; JNull] true None)
                   (lit "tok-1")
                   (json_response 200 (JObj [(lit "applications", JArr [])]))
                   (JObj [(lit "applications", JArr [])]) []
                   eq_refl _ eq_refl eq_refl eq_refl)).
  vm_compute. discriminate.
Defined.

(** X15. On mount the page either redirects or loads, never both: a
    visitor who is not authenticated is sent to /login with no request and
    with the state untouched, so the loading flag stays as it was; an
    authenticated visitor is never redirected, and a request goes out
    exactly when a non-empty token is stored. *)
Theorem mount_redirects_or_loads `{Runtime} (authenticated : bool)
    (net : Network) (env : ApplicationsPage.Env)
    (st : ApplicationsPage.State) :
  let run := ApplicationsView.mount authenticated net env st in
  outcome run = inr tt
  /\ List.filter is_push (trace run)
     = (if authenticated then [] else [RouterPush (lit "/login")])
  /\ (List.filter is_fetch (trace run) <> [] <->
      authenticated = true /\ has_token env = true)
  /\ (authenticated = false -> final run = st).
Proof.
  intros run. subst run. unfold ApplicationsView.mount.
  destruct authenticated; cbn [negb].
  - destruct (fetchApplications_summary net env st) as (Ho & _ & Hf & Hp).
    rewrite Ho, Hp, Hf. unfold has_token.
    split; [reflexivity|]. split; [reflexivity|]. split; [|discriminate].
    destruct (ApplicationsPage.token env) as [[|c tok]|]; cbn;
      intuition congruence.
  - cbn. split; [reflexivity|]. split; [reflexivity|].
    split; [|reflexivity]. intuition congruence.
Qed.

Lemma mount_redirects_or_loads_witness :
  final (ApplicationsView.mount (H := example_runtime) false
           (always (json_response 200 (JObj []))) signed_in
           ApplicationsPage.initial)
  = ApplicationsPage.initial.
Proof.
  destruct (mount_redirects_or_loads (H := example_runtime) false
              (always (json_response 200 (JObj []))) signed_in
              ApplicationsPage.initial) as (_ & _ & _ & Hst).
  exact (Hst eq_refl).
Defined.

(** * Rows and filters *)

Section Rows.
Context `{Runtime}.

Lemma or_default_nonempty x d : d <> [] -> ApplicationsPage.or_default x d <> [].
Proof.
  intros Hd. unfold ApplicationsPage.or_default.
  destruct x as [s|]; [|exact Hd].
  destruct (str_truthy s) eqn:E; [now apply str_truthy_iff | exact Hd].
Qed.

Lemma keep_passes f q app :
  ApplicationsPage.keep f q app =
  passes f (ApplicationsPage.mapStatus (ApplicationsPage.status app))
  && ApplicationsPage.keep ApplicationsPage.f_all q app.
Proof.
  unfold ApplicationsPage.keep.
  destruct (ApplicationsPage.mapStatus (ApplicationsPage.status app)), f;
    reflexivity.
Qed.

Lemma keep_all_empty app :
  ApplicationsPage.keep ApplicationsPage.f_all [] app = true.
Proof. reflexivity. Qed.

Lemma passes_iff f u :
  f <> ApplicationsPage.f_all ->
  passes f u = true ->
  ApplicationsPage.UIStatus_str u = ApplicationsPage.Filter_str f.
Proof.
  destruct f, u; intros Hf E; try discriminate E; try reflexivity;
    now elim Hf.
Qed.

Lemma filter_filter {A} (P Q : A -> bool) l :
  List.filter P (List.filter Q l) = List.filter (fun x => Q x && P x) l.
Proof.
  induction l as [|x l IH]; [reflexivity|]. cbn [List.filter].
  destruct (Q x); cbn [List.filter andb]; [|exact IH].
  destruct (P x); now rewrite IH.
Qed.

Lemma includes_refl s : includes s s = true.
Proof. apply includes_iff. exists [], []. now rewrite app_nil_r. Qed.

End Rows.

(** X16. The table has one row per record, in the order of the records
    and with their ids, and none of its title, company and location cells
    is ever blank: a record without a job, and equally a record whose job
    has an empty title, company or location, shows the placeholder. *)
Theorem rows_are_never_blank `{Runtime}
    (apps : list ApplicationsPage.Application) :
  let rows := ApplicationsPage.formatApplicationsForTable apps in
  length rows = length apps
  /\ List.map ApplicationsPage.row_id rows = List.map ApplicationsPage.id apps
  /\ Forall (fun row =>
               ApplicationsPage.row_title row <> []
               /\ ApplicationsPage.row_company row <> []
               /\ ApplicationsPage.row_location row <> []) rows
  /\ (forall app c l,
        ApplicationsPage.job app = Some (ApplicationsPage.mkJob [] c l) ->
        ApplicationsPage.row_title
          <$> ApplicationsPage.formatApplicationsForTable [app]
        = [lit "Unknown Job"]).
Proof.
  intros rows. subst rows. unfold ApplicationsPage.formatApplicationsForTable.
  split; [apply List.length_map|]. split; [now rewrite List.map_map|]. split.
  - apply Forall_forall. intros row Hin.
    apply list_elem_of_In, List.in_map_iff in Hin as (app & <- & _). cbn.
    repeat split; apply or_default_nonempty; discriminate.
  - intros app c l Hj. cbn. now rewrite Hj.
Qed.

(** X17. Under a filter other than "all", every row of the table carries
    the status the filter names. *)
Theorem rows_carry_the_filter_status `{Runtime}
    (apps : list ApplicationsPage.Application)
    (f : ApplicationsPage.Filter) (q : jsstring)
    (row : ApplicationsPage.Row) :
  f <> ApplicationsPage.f_all ->
  In row (ApplicationsView.tableData apps f q) ->
  ApplicationsPage.UIStatus_str (ApplicationsPage.row_status row)
  = ApplicationsPage.Filter_str f.
Proof.
  intros Hf Hin. unfold ApplicationsView.tableData,
    ApplicationsPage.formatApplicationsForTable in Hin.
  apply List.in_map_iff in Hin as (app & <- & Hin).
  apply List.filter_In in Hin as [_ Hk]. rewrite keep_passes in Hk.
  apply andb_true_iff in Hk as [Hp _]. cbn. now apply passes_iff.
Qed.

Lemma rows_carry_the_filter_status_witness :
  Forall (fun row =>
            ApplicationsPage.UIStatus_str (ApplicationsPage.row_status row)
            = lit "offer")
    (ApplicationsView.tableData (H := example_runtime)
       [record_orphan; record_a1] ApplicationsPage.f_offer []).
Proof.
  apply Forall_forall. intros row Hin. apply list_elem_of_In in Hin.
  apply (rows_carry_the_filter_status (H := example_runtime)
           [record_orphan; record_a1] ApplicationsPage.f_offer [] row);
    [discriminate | exact Hin].
Defined.

Section Counting.
Context `{Runtime}.
Variable q : jsstring.

Lemma length_filtered_cons app apps f :
  length (ApplicationsPage.filteredApplications (app :: apps) f q)
  = ((if ApplicationsPage.keep f q app then 1 else 0)
     + length (ApplicationsPage.filteredApplications apps f q))%nat.
Proof.
  unfold ApplicationsPage.filteredApplications. cbn [List.filter].
  now destruct (ApplicationsPage.keep f q app).
Qed.

Lemma filters_add_up apps :
  length (ApplicationsPage.filteredApplications apps ApplicationsPage.f_all q)
  = (length (ApplicationsPage.filteredApplications apps
               ApplicationsPage.f_applied q)
     + length (ApplicationsPage.filteredApplications apps
                 ApplicationsPage.f_interview q)
     + length (ApplicationsPage.filteredApplications apps
                 ApplicationsPage.f_offer q)
     + length (ApplicationsPage.filteredApplications apps
                 ApplicationsPage.f_rejected q))%nat.
Proof.
  induction apps as [|app apps IH]; [reflexivity|].
  rewrite !length_filtered_cons, IH.
  rewrite (keep_passes ApplicationsPage.f_applied),
    (keep_passes ApplicationsPage.f_interview),
    (keep_passes ApplicationsPage.f_offer),
    (keep_passes ApplicationsPage.f_rejected).
  destruct (ApplicationsPage.mapStatus (ApplicationsPage.status app)),
    (ApplicationsPage.keep ApplicationsPage.f_all q app); cbn [passes andb];
    lia.
Qed.

End Counting.

(** X18. For any query, the four status filters split what "all" shows:
    no record is listed under two of them, and the numbers of records they
    list add up to the number listed under "all". *)
Theorem status_filters_partition `{Runtime}
    (apps : list ApplicationsPage.Application) (q : jsstring) :
  length (ApplicationsPage.filteredApplications apps ApplicationsPage.f_all q)
  = (length (ApplicationsPage.filteredApplications apps
               ApplicationsPage.f_applied q)
     + length (ApplicationsPage.filteredApplications apps
                 ApplicationsPage.f_interview q)
     + length (ApplicationsPage.filteredApplications apps
                 ApplicationsPage.f_offer q)
     + length (ApplicationsPage.filteredApplications apps
                 ApplicationsPage.f_rejected q))%nat
  /\ (forall app f1 f2,
        f1 <> ApplicationsPage.f_all -> f2 <> ApplicationsPage.f_all ->
        In app (ApplicationsPage.filteredApplications apps f1 q) ->
        In app (ApplicationsPage.filteredApplications apps f2 q) ->
        f1 = f2).
Proof.
  split; [apply filters_add_up|].
  intros app f1 f2 H1 H2 I1 I2.
  apply List.filter_In in I1 as [_ K1]. apply List.filter_In in I2 as [_ K2].
  rewrite keep_passes in K1, K2.
  apply andb_true_iff in K1 as [K1 _]. apply andb_true_iff in K2 as [K2 _].
  destruct (ApplicationsPage.mapStatus (ApplicationsPage.status app)), f1, f2;
    try discriminate; try reflexivity; now elim H1 || now elim H2.
Qed.

Lemma status_filters_partition_witness :
  ~ (In record_a1
       (ApplicationsPage.filteredApplications (H := example_runtime)
          [record_orphan; record_a1] ApplicationsPage.f_offer [])
     /\ In record_a1
          (ApplicationsPage.filteredApplications (H := example_runtime)
             [record_orphan; record_a1] ApplicationsPage.f_applied [])).
Proof.
  intros [Ho Ha].
  destruct (status_filters_partition (H := example_runtime)
              [record_orphan; record_a1] []) as [_ Hone].
  pose proof (Hone record_a1 ApplicationsPage.f_offer ApplicationsPage.f_applied
                ltac:(discriminate) ltac:(discriminate) Ho Ha) as E.
  discriminate E.
Defined.

(** X19. The status filter and the search are independent and can be
    applied in either order: filtering by status what the search kept, or
    searching in what the status filter kept, gives the list filtered by
    both; with the filter "all" and an empty query nothing is removed. *)
Theorem filters_compose `{Runtime}
    (apps : list ApplicationsPage.Application)
    (f : ApplicationsPage.Filter) (q : jsstring) :
  ApplicationsPage.filteredApplications
    (ApplicationsPage.filteredApplications apps ApplicationsPage.f_all q) f []
  = ApplicationsPage.filteredApplications apps f q
  /\ ApplicationsPage.filteredApplications
       (ApplicationsPage.filteredApplications apps f [])
       ApplicationsPage.f_all q
     = ApplicationsPage.filteredApplications apps f q
  /\ ApplicationsPage.filteredApplications apps ApplicationsPage.f_all [] = apps.
Proof.
  unfold ApplicationsPage.filteredApplications. rewrite !filter_filter.
  repeat split.
  - apply List.filter_ext. intros app.
    rewrite (keep_passes f []), (keep_passes f q), keep_all_empty.
    rewrite andb_true_r. apply andb_comm.
  - apply List.filter_ext. intros app.
    rewrite (keep_passes f []), (keep_passes f q), keep_all_empty.
    now rewrite andb_true_r.
  - induction apps as [|app l IH]; [reflexivity|].
    cbn [List.filter]. rewrite keep_all_empty. now rewrite IH.
Qed.

(** X20. The search does not depend on the case of the query: two
    queries with the same lower-case form select the same records. *)
Theorem search_ignores_the_case_of_the_query `{Runtime}
    (apps : list ApplicationsPage.Application)
    (f : ApplicationsPage.Filter) (q1 q2 : jsstring) :
  toLowerCase q1 = toLowerCase q2 ->
  ApplicationsPage.filteredApplications apps f q1
  = ApplicationsPage.filteredApplications apps f q2.
Proof.
  intros E. unfold ApplicationsPage.filteredApplications.
  apply List.filter_ext. intros app. unfold ApplicationsPage.keep.
  assert (Ht : str_truthy q1 = str_truthy q2).
  { destruct q1 as [|c1 s1], q2 as [|c2 s2]; try reflexivity; exfalso.
    - rewrite toLowerCase_empty in E. symmetry in E. revert E.
      now apply toLowerCase_nonempty.
    - rewrite (toLowerCase_empty) in E. revert E.
      now apply toLowerCase_nonempty. }
  now rewrite Ht, E.
Qed.

Lemma search_ignores_the_case_of_the_query_witness :
  ApplicationsPage.filteredApplications (H := example_runtime)
    [record_orphan; record_a1] ApplicationsPage.f_all (lit "X")
  = ApplicationsPage.filteredApplications (H := example_runtime)
      [record_orphan; record_a1] ApplicationsPage.f_all (lit "x").
Proof.
  apply (search_ignores_the_case_of_the_query (H := example_runtime)).
  reflexivity.
Defined.

(** X21. A record with a job is found by searching for its own title,
    company or location, whenever it passes the status filter. *)
Theorem record_is_found_by_its_own_fields `{Runtime}
    (apps : list ApplicationsPage.Application)
    (f : ApplicationsPage.Filter) (app : ApplicationsPage.Application)
    (j : ApplicationsPage.Job) (q : jsstring) :
  In app apps ->
  ApplicationsPage.job app = Some j ->
  status_ok f app ->
  q <> [] ->
  q = ApplicationsPage.title j \/ q = ApplicationsPage.company j
  \/ q = ApplicationsPage.location j ->
  In app (ApplicationsPage.filteredApplications apps f q).
Proof.
  intros Hin Hj Hs Hq Hfield.
  apply filteredApplications_iff. split; [exact Hin|]. split; [exact Hs|].
  right. unfold searched, occurs_lowered. rewrite Hj.
  destruct Hfield as [E|[E|E]]; rewrite <- E;
    [left | right; left | right; right]; exists [], []; now rewrite app_nil_r.
Qed.

Lemma record_is_found_by_its_own_fields_witness :
  In record_a1
    (ApplicationsPage.filteredApplications (H := example_runtime)
       [record_orphan; record_a1] ApplicationsPage.f_offer (lit "Y")).
Proof.
  apply (record_is_found_by_its_own_fields (H := example_runtime)
           [record_orphan; record_a1] ApplicationsPage.f_offer record_a1
           (ApplicationsPage.mkJob (lit "X") (lit "Y") (lit "Z")) (lit "Y")).
  - right. left. reflexivity.
  - reflexivity.
  - right. reflexivity.
  - vm_compute. discriminate.
  - right. left. reflexivity.
Defined.

(** X22. What the page shows below the filter bar: the spinner as long
    as the loading flag is set, whatever the list holds; otherwise the table
    with the filtered rows when some record passes the filter and the
    search, and the message "You haven't applied to any jobs yet" when none
    does, which is also what a non-empty list shows under a filter or
    query that matches nothing. *)
Theorem body_of_the_page `{Runtime}
    (apps : list ApplicationsPage.Application)
    (f : ApplicationsPage.Filter) (q : jsstring) :
  ApplicationsView.body true apps f q = ApplicationsView.Spinner
  /\ (ApplicationsView.body false apps f q = ApplicationsView.NoApplications
      <-> forall app, In app apps -> ~ (status_ok f app /\ search_ok q app))
  /\ (ApplicationsView.body false apps f q <> ApplicationsView.NoApplications ->
      ApplicationsView.body false apps f q
      = ApplicationsView.JobsTable (ApplicationsView.tableData apps f q)).
Proof.
  split; [reflexivity|].
  unfold ApplicationsView.body, ApplicationsView.tableData,
    ApplicationsPage.formatApplicationsForTable.
  rewrite List.length_map.
  destruct (ApplicationsPage.filteredApplications apps f q) as [|a l] eqn:E;
    cbn [length Nat.ltb Nat.leb].
  - split; [|congruence]. split; [|reflexivity].
    intros _ app Hin Hok.
    assert (Hmem : In app (ApplicationsPage.filteredApplications apps f q))
      by (apply filteredApplications_iff; tauto).
    rewrite E in Hmem. exact Hmem.
  - split; [|reflexivity]. split; [discriminate|].
    intros Hnone. exfalso.
    assert (Hmem : In a (ApplicationsPage.filteredApplications apps f q))
      by (rewrite E; now left).
    apply filteredApplications_iff in Hmem as (Hin & Hok).
    exact (Hnone a Hin Hok).
Qed.

Lemma body_of_the_page_witness :
  ApplicationsView.body (H := example_runtime) false
    [record_orphan; record_a1] ApplicationsPage.f_rejected []
  = ApplicationsView.NoApplications.
Proof.
  apply (body_of_the_page (H := example_runtime)).
  intros app [<-|[<-|[]]] [[E|E] _]; vm_compute in E; discriminate E.
Defined.

(** * The filter on unchecked records *)

Section Raw.
Context `{Runtime}.

Lemma raw_lowered_conforms v a (field : ApplicationsPage.Job -> jsstring) k :
  conforms_field field k ->
  RawRecords.conforms v a ->
  RawRecords.lowered v k = inr (toLowerCase (searched field a)).
Proof.
  intros Hk (Hnull & _ & Hjob). rewrite <- or_default_searched.
  unfold RawRecords.lowered.
  destruct v as [|b|x|s|l|fields]; try congruence;
    unfold RawRecords.job_field;
    (destruct (ApplicationsPage.job a) as [j|];
     [destruct Hjob as (jv & -> & Hjv & Ht & Hc & Hl);
      destruct jv as [|b'|x'|s'|l'|fs]; try congruence;
      destruct Hk as [[-> ->]|[[-> ->]|[-> ->]]];
      rewrite ?Ht, ?Hc, ?Hl; cbn;
      match goal with |- context [str_truthy ?t] => now destruct (str_truthy t) end
     | rewrite Hjob; reflexivity]).
Qed.

Lemma raw_keep_conforms f q v a :
  RawRecords.conforms v a ->
  RawRecords.keep f q v = inr (ApplicationsPage.keep f q a).
Proof.
  intros Hc. pose proof Hc as (Hnull & Hstatus & _).
  unfold RawRecords.keep, ApplicationsPage.keep.
  rewrite (raw_lowered_conforms v a ApplicationsPage.title "title"),
    (raw_lowered_conforms v a ApplicationsPage.company "company"),
    (raw_lowered_conforms v a ApplicationsPage.location "location");
    try exact Hc; try (unfold conforms_field; tauto).
  rewrite Hstatus. cbn [RawRecords.mapStatus]. rewrite <- !or_default_searched.
  destruct v; try congruence;
    destruct (negb (str_eqb (ApplicationsPage.Filter_str f) (lit "all")));
    cbn [andb];
    try destruct (negb (str_eqb _ (ApplicationsPage.Filter_str f)));
    try reflexivity;
    destruct (str_truthy q); try reflexivity;
    repeat match goal with
           | |- context [includes ?s ?t] => destruct (includes s t)
           end; reflexivity.
Qed.

Lemma raw_keep_no_query f v :
  RawRecords.keep f [] v =
  if negb (str_eqb (ApplicationsPage.Filter_str f) (lit "all")) then
    match v with
    | JNull => inl (mkError (RawRecords.msg_null "status"))
    | _ =>
        inr (negb (negb (str_eqb
                           (ApplicationsPage.UIStatus_str
                              (RawRecords.mapStatus (get v (lit "status"))))
                           (ApplicationsPage.Filter_str f))))
    end
  else inr true.
Proof.
  unfold RawRecords.keep. cbn [str_truthy].
  destruct (negb (str_eqb (ApplicationsPage.Filter_str f) (lit "all")));
    [|reflexivity].
  destruct v; try reflexivity;
    now destruct (negb (str_eqb _ (ApplicationsPage.Filter_str f))).
Qed.

Lemma raw_keep_null f q :
  f <> ApplicationsPage.f_all \/ q <> [] ->
  exists e, RawRecords.keep f q JNull = inl e.
Proof.
  intros Hfq. unfold RawRecords.keep.
  destruct f; cbn; eauto.
  destruct Hfq as [Hf|Hq]; [now elim Hf|].
  apply str_truthy_iff in Hq. rewrite Hq. eauto.
Qed.

End Raw.

(** X23. On an array whose entries have the status and the job that
    [interface Application] declares, the filter never throws and keeps
    exactly the entries that the filter on typed records keeps, in the same
    order. *)
Theorem raw_filter_agrees_on_typed_records `{Runtime}
    (vs : list json) (apps : list ApplicationsPage.Application)
    (f : ApplicationsPage.Filter) (q : jsstring) :
  Forall2 RawRecords.conforms vs apps ->
  exists kept,
    RawRecords.filteredApplications vs f q = inr kept
    /\ Forall2 RawRecords.conforms kept
         (ApplicationsPage.filteredApplications apps f q).
Proof.
  induction 1 as [|v a vs apps Hc _ (kept & Hk & Hall)].
  - exists []. split; [reflexivity | constructor].
  - cbn [RawRecords.filteredApplications]. rewrite (raw_keep_conforms f q v a Hc), Hk.
    unfold ApplicationsPage.filteredApplications in *. cbn [List.filter].
    destruct (ApplicationsPage.keep f q a); eexists; split; try reflexivity;
      [now constructor | exact Hall].
Qed.

(** The first mock record of the page conforms to the typed record with
    its status and job. *)
Lemma raw_filter_agrees_on_typed_records_witness :
  exists kept,
    RawRecords.filteredApplications (H := example_runtime)
      [JObj [ (lit "id", JStr (lit "a1"));
              (lit "status", JStr (lit "accepted"));
              (lit "job", JObj [ (lit "title", JStr (lit "X"));
                                 (lit "company", JStr (lit "Y"));
                                 (lit "location", JStr (lit "Z")) ]) ]]
      ApplicationsPage.f_offer (lit "x")
    = inr kept
    /\ Forall2 RawRecords.conforms kept
         (ApplicationsPage.filteredApplications (H := example_runtime)
            [record_a1] ApplicationsPage.f_offer (lit "x")).
Proof.
  apply (raw_filter_agrees_on_typed_records (H := example_runtime)).
  constructor; [|constructor].
  split; [discriminate|]. split; [reflexivity|].
  eexists. split; [reflexivity|]. split; [discriminate|].
  repeat split.
Defined.

Section RawNull.
Context `{Runtime}.

Lemma raw_filter_all vs :
  RawRecords.filteredApplications vs ApplicationsPage.f_all [] = inr vs.
Proof.
  induction vs as [|v vs IH]; [reflexivity|].
  cbn [RawRecords.filteredApplications]. rewrite raw_keep_no_query, IH.
  reflexivity.
Qed.

Lemma raw_filter_throws_on_null vs f q :
  In JNull vs ->
  f <> ApplicationsPage.f_all \/ q <> [] ->
  exists e, RawRecords.filteredApplications vs f q = inl e.
Proof.
  intros Hin Hfq. induction vs as [|v vs IH]; [destruct Hin|].
  cbn [RawRecords.filteredApplications].
  destruct Hin as [->|Hin].
  - destruct (raw_keep_null f q Hfq) as [e ->]. eauto.
  - destruct (RawRecords.keep f q v) as [e|b]; [eauto|].
    destruct (IH Hin) as [e ->]. eauto.
Qed.

Lemma raw_filter_no_query_throws vs f e :
  RawRecords.filteredApplications vs f [] = inl e ->
  f <> ApplicationsPage.f_all /\ In JNull vs.
Proof.
  induction vs as [|v vs IH]; [discriminate|].
  cbn [RawRecords.filteredApplications]. rewrite raw_keep_no_query.
  destruct (negb (str_eqb (ApplicationsPage.Filter_str f) (lit "all"))) eqn:Ef.
  - assert (Hf : f <> ApplicationsPage.f_all) by (intros ->; discriminate Ef).
    destruct v;
      try (destruct (RawRecords.filteredApplications vs f []) eqn:E;
           [|discriminate];
           intros E'; destruct (IH E') as [_ Hin]; split;
           [exact Hf | now right]).
    intros _. split; [exact Hf | now left].
  - destruct (RawRecords.filteredApplications vs f []) eqn:E; [|discriminate].
    intros E'. destruct (IH E') as [Hf Hin]. split; [exact Hf | now right].
Qed.

End RawNull.

(** X24. A [null] entry in the stored array is passed through as long
    as the filter is "all" and the query is empty, and makes the filter
    throw as soon as a status filter is chosen or a query is typed; with an
    empty query it is the only kind of entry that can make the filter
    throw. *)
Theorem null_entry_breaks_the_filter `{Runtime} (vs : list json)
    (f : ApplicationsPage.Filter) (q : jsstring) :
  RawRecords.filteredApplications vs ApplicationsPage.f_all [] = inr vs
  /\ (In JNull vs ->
      f <> ApplicationsPage.f_all \/ q <> [] ->
      exists e, RawRecords.filteredApplications vs f q = inl e)
  /\ ((exists e, RawRecords.filteredApplications vs f [] = inl e)
      <-> f <> ApplicationsPage.f_all /\ In JNull vs).
Proof.
  split; [apply raw_filter_all|]. split; [apply raw_filter_throws_on_null|].
  split.
  - intros [e He]. exact (raw_filter_no_query_throws vs f e He).
  - intros [Hf Hin]. apply raw_filter_throws_on_null; tauto.
Qed.

Lemma null_entry_breaks_the_filter_witness :
  exists e,
    RawRecords.filteredApplications (H := example_runtime)
      [JObj [(lit "status", JStr (lit "pending"))]; JNull]
      ApplicationsPage.f_applied []
    = inl e.
Proof.
  destruct (null_entry_breaks_the_filter (H := example_runtime)
              [JObj [(lit "status", JStr (lit "pending"))]; JNull]
              ApplicationsPage.f_applied []) as (_ & Hnull & _).
  apply Hnull; [right; left; reflexivity | left; discriminate].
Defined.

(** * The job card *)

Section Card.
Context `{Runtime}.
Variables (env : JobCard.Env) (job : ApplicationForm.JobPost).

(** The service that a click on Save calls: [removeSavedJob] for a saved
    job, [saveJob] otherwise. *)
Lemma handleSaveJob_run st :
  JobCard.handleSaveJob env job st =
  if JobCard.isUserLoggedIn st then
    let service :=
      if JobCard.isSaved st
      then JobCard.removeSavedJob env (ApplicationForm.id job)
      else JobCard.saveJob env (JobCard.saved_job env job) in
    (inr tt,
     JobCard.setIsSaving false
       (match service with
        | inr true =>
            JobCard.setIsSaved (negb (JobCard.isSaved st))
              (JobCard.setIsSaving true st)
        | _ => JobCard.setIsSaving true st
        end),
     match service with
     | inl e => [Console Err [AStr (lit "Error saving/removing job:"); AError e]]
     | inr _ => []
     end)
  else (inr tt, JobCard.setHref (lit "/login") st, []).
Proof.
  unfold JobCard.handleSaveJob, console, try_finally, try_catch, await.
  cbv [bind read emit modify ret throw].
  destruct (JobCard.isUserLoggedIn st); [|reflexivity]. cbn [negb].
  destruct (JobCard.isSaved st); cbn [negb].
  - destruct (JobCard.removeSavedJob env _) as [e|[]]; reflexivity.
  - destruct (JobCard.saveJob env _) as [e|[]]; reflexivity.
Qed.

Lemma some_saved_spec id entries :
  Forall (fun entry => entry <> JNull) entries ->
  exists b,
    JobCard.some_saved id entries = inr b
    /\ (b = true <->
        exists entry, In entry entries
                      /\ get entry (lit "jobId") = Some (JStr id)).
Proof.
  induction 1 as [|entry entries Hne _ (b & Hb & Hiff)].
  - exists false. split; [reflexivity|]. split; [discriminate|].
    intros (entry & [] & _).
  - assert (Hstep :
      JobCard.some_saved id (entry :: entries) =
      match get entry (lit "jobId") with
      | Some (JStr s) =>
          if str_eqb s id then inr true else JobCard.some_saved id entries
      | _ => JobCard.some_saved id entries
      end).
    { destruct entry; try reflexivity. congruence. }
    rewrite Hstep.
    assert (Hrest : forall other,
              get entry (lit "jobId") = other ->
              other <> Some (JStr id) ->
              exists b0,
                JobCard.some_saved id entries = inr b0
                /\ (b0 = true <->
                    exists e0, In e0 (entry :: entries)
                               /\ get e0 (lit "jobId") = Some (JStr id))).
    { intros other Ho Hdiff. exists b. split; [exact Hb|].
      rewrite Hiff. split.
      - intros (e0 & Hin & He). exists e0. split; [now right | exact He].
      - intros (e0 & [<-|Hin] & He); [congruence | eauto]. }
    destruct (get entry (lit "jobId")) as [[|b'|x|s|l|fs]|] eqn:Eg;
      try (apply (Hrest _ eq_refl); discriminate).
    destruct (str_eqb s id) eqn:Es.
    + apply bool_decide_eq_true in Es as ->.
      exists true. split; [reflexivity|]. split; [|reflexivity].
      intros _. exists entry. split; [now left | exact Eg].
    + apply (Hrest _ eq_refl). intros E. injection E as ->.
      unfold str_eqb in Es. now rewrite bool_decide_eq_false in Es.
Qed.

End Card.

Section CardMount.
Variables (net : Network) (env : JobCard.Env) (id : jsstring).

Lemma record_saved_run data st :
  JobCard.record_saved id data st =
  match data with
  | JNull => (inl (mkError (JobCard.msg_null "success")), st, [])
  | _ =>
      if truthy_opt (get data (lit "success"))
         && truthy_opt (get data (lit "savedJobs"))
      then
        match get data (lit "savedJobs") with
        | Some (JArr entries) =>
            match JobCard.some_saved id entries with
            | inl e => (inl e, st, [])
            | inr b => (inr tt, JobCard.setIsSaved b st, [])
            end
        | _ => (inl (mkError JobCard.msg_some), st, [])
        end
      else (inr tt, st, [])
  end.
Proof.
  unfold JobCard.record_saved, await. cbv [bind modify ret throw].
  destruct data as [|b|x|s|l|fields]; try reflexivity.
  destruct (truthy_opt _ && truthy_opt _); [|reflexivity].
  destruct (get _ _) as [[|b|x|s|l|fs]|]; try reflexivity.
  destruct (JobCard.some_saved id l); reflexivity.
Qed.

Lemma record_saved_failed data st e :
  outcome (JobCard.record_saved id data st) = inl e ->
  final (JobCard.record_saved id data st) = st.
Proof.
  rewrite record_saved_run.
  destruct data as [|b|x|s|l|fields]; try reflexivity;
    try (destruct (truthy_opt _ && truthy_opt _); [|discriminate];
         destruct (get _ _) as [[|b'|x'|s'|l'|fs]|]; try reflexivity;
         destruct (JobCard.some_saved id _); [reflexivity | discriminate]).
Qed.

Lemma record_saved_trace data st : trace (JobCard.record_saved id data st) = [].
Proof.
  rewrite record_saved_run.
  destruct data as [|b|x|s|l|fields]; try reflexivity;
    try (destruct (truthy_opt _ && truthy_opt _); [|reflexivity];
         destruct (get _ _) as [[|b'|x'|s'|l'|fs]|]; try reflexivity;
         destruct (JobCard.some_saved id _); reflexivity).
Qed.

(** The check of a logged-in visitor: one request, and either the
    recorded answer or one logged error. *)
Lemma checkIfJobIsSaved_run st :
  JobCard.checkIfJobIsSaved net env id true st =
  let sent := Fetch JobCard.saved_jobs_url (JobCard.request env) in
  let failed e :=
    (inr tt, st,
     [sent; Console Err [AStr (lit "Error checking if job is saved:");
                         AError e]]) in
  match net JobCard.saved_jobs_url (JobCard.request env) with
  | inl e => failed e
  | inr res =>
      match json_body res with
      | inl e => failed e
      | inr data =>
          match outcome (JobCard.record_saved id data st) with
          | inl e => failed e
          | inr _ => (inr tt, final (JobCard.record_saved id data st), [sent])
          end
      end
  end.
Proof.
  unfold JobCard.checkIfJobIsSaved, fetch, console, try_catch, await.
  cbv [bind emit ret throw].
  destruct (net JobCard.saved_jobs_url _) as [e|res]; [reflexivity|].
  destruct (json_body res) as [e|data]; [reflexivity|].
  pose proof (record_saved_trace data st) as Ht.
  pose proof (record_saved_failed data st) as Hf.
  destruct (JobCard.record_saved id data st) as [[[e|[]] st'] tr];
    cbn in Ht, Hf |- *; subst tr; [|reflexivity].
  now rewrite (Hf e eq_refl).
Qed.

Lemma mount_run st :
  JobCard.mount net env id st =
  if JobCard.isAuthenticated env then
    let '(r, st', tr) :=
      JobCard.checkIfJobIsSaved net env id true
        (JobCard.setIsUserLoggedIn true st) in
    (r, st', tr)
  else (inr tt, JobCard.setIsUserLoggedIn false st, []).
Proof.
  unfold JobCard.mount. cbv [bind modify].
  destruct (JobCard.isAuthenticated env); [|reflexivity].
  now destruct (JobCard.checkIfJobIsSaved net env id true _) as [[r st'] tr].
Qed.

End CardMount.

(** The mount of an authenticated visitor, by what the check makes of
    the answer. *)
Lemma mount_authenticated (net : Network) (env : JobCard.Env) (id : jsstring)
    (st : JobCard.State) :
  JobCard.isAuthenticated env = true ->
  JobCard.mount net env id st =
  (inr tt,
   match saved_answer net env id with
   | inr (Some b) => JobCard.setIsSaved b (JobCard.setIsUserLoggedIn true st)
   | _ => JobCard.setIsUserLoggedIn true st
   end,
   Fetch JobCard.saved_jobs_url (JobCard.request env)
     :: match saved_answer net env id with
        | inl e => [Console Err [AStr (lit "Error checking if job is saved:");
                                 AError e]]
        | inr _ => []
        end).
Proof.
  intros Ha. rewrite mount_run, Ha, checkIfJobIsSaved_run. cbv zeta.
  unfold saved_answer.
  destruct (net JobCard.saved_jobs_url _) as [e|res]; [reflexivity|].
  destruct (json_body res) as [e|data]; [reflexivity|].
  rewrite record_saved_run.
  destruct data as [|b|x|s|l|fields]; try reflexivity;
    try (destruct (truthy_opt _ && truthy_opt _); [|reflexivity];
         destruct (get _ _) as [[|b'|x'|s'|l'|fs]|]; try reflexivity;
         destruct (JobCard.some_saved id _); reflexivity).
Qed.

(** X25. For an authenticated visitor, when the saved-jobs answer parses
    to an object with a truthy [success] and an array [savedJobs] without
    [null] entries, the card is marked as saved exactly when some entry has
    this job's id as its [jobId]; the HTTP status of the answer is never
    looked at. *)
Theorem saved_flag_follows_the_answer (net : Network) (env : JobCard.Env)
    (id : jsstring) (st : JobCard.State) (res : Response)
    (fields : list (jsstring * json)) (entries : list json) :
  let run := JobCard.mount net env id st in
  JobCard.isAuthenticated env = true ->
  net JobCard.saved_jobs_url (JobCard.request env) = inr res ->
  json_body res = inr (JObj fields) ->
  truthy_opt (assoc (lit "success") fields) = true ->
  assoc (lit "savedJobs") fields = Some (JArr entries) ->
  Forall (fun entry => entry <> JNull) entries ->
  (JobCard.isSaved (final run) = true <->
   exists entry, In entry entries /\ get entry (lit "jobId") = Some (JStr id))
  /\ trace run = [Fetch JobCard.saved_jobs_url (JobCard.request env)].
Proof.
  intros run Ha Hn Hb Hs Hl Hnn. subst run.
  destruct (some_saved_spec id entries Hnn) as (b & Hsome & Hiff).
  rewrite mount_run, Ha, checkIfJobIsSaved_run. cbv zeta.
  rewrite Hn, Hb, record_saved_run. cbn [get]. rewrite Hs, Hl.
  cbn [truthy_opt truthy andb]. rewrite Hsome.
  cbn [outcome final trace fst snd]. split; [|reflexivity].
  rewrite <- Hiff. reflexivity.
Qed.

Lemma saved_flag_follows_the_answer_witness :
  JobCard.isSaved
    (final (JobCard.mount
              (always (json_response 500
                         (JObj [ (lit "success", JBool true);
                                 (lit "savedJobs",
                                  JArr [JObj [(lit "jobId", JStr (lit "j1"))]]) ])))
              (JobCard.mkEnv true (Some (lit "tok-1")) 0
                 (fun _ => inr true) (fun _ => inr true))
              (lit "j1")
              (JobCard.mkState false false false [])))
  = true.
Proof.
  apply (saved_flag_follows_the_answer
           (always (json_response 500
                      (JObj [ (lit "success", JBool true);
                              (lit "savedJobs",
                               JArr [JObj [(lit "jobId", JStr (lit "j1"))]]) ])))
           (JobCard.mkEnv true (Some (lit "tok-1")) 0
              (fun _ => inr true) (fun _ => inr true))
           (lit "j1") (JobCard.mkState false false false [])
           (json_response 500
              (JObj [ (lit "success", JBool true);
                      (lit "savedJobs",
                       JArr [JObj [(lit "jobId", JStr (lit "j1"))]]) ]))
           [ (lit "success", JBool true);
             (lit "savedJobs", JArr [JObj [(lit "jobId", JStr (lit "j1"))]]) ]
           [JObj [(lit "jobId", JStr (lit "j1"))]]);
    try reflexivity.
  - repeat constructor. discriminate.
  - eexists. split; [left; reflexivity | reflexivity].
Defined.

(** X26. The saved-jobs check never throws and touches neither the
    busy flag nor the location.  For an authenticated visitor it leaves the
    saved flag as it was, and logs the error, when the request throws, when
    the body does not parse, when the body is [null], and when [savedJobs]
    is truthy but not an array; and it leaves the flag as it was without
    logging anything when [success] or [savedJobs] is missing or falsy, so
    such an answer does not reset a card that is marked as saved. *)
Theorem saved_check_keeps_the_flag_on_failure (net : Network)
    (env : JobCard.Env) (id : jsstring) (st : JobCard.State) :
  let run := JobCard.mount net env id st in
  let answer := net JobCard.saved_jobs_url (JobCard.request env) in
  let logged e :=
    In (Console Err [AStr (lit "Error checking if job is saved:"); AError e])
       (trace run) in
  JobCard.isAuthenticated env = true ->
  outcome run = inr tt
  /\ JobCard.isSaving (final run) = JobCard.isSaving st
  /\ JobCard.href (final run) = JobCard.href st
  /\ JobCard.isUserLoggedIn (final run) = true
  /\ (forall e, answer = inl e ->
        JobCard.isSaved (final run) = JobCard.isSaved st /\ logged e)
  /\ (forall res e, answer = inr res -> json_body res = inl e ->
        JobCard.isSaved (final run) = JobCard.isSaved st /\ logged e)
  /\ (forall res, answer = inr res -> json_body res = inr JNull ->
        JobCard.isSaved (final run) = JobCard.isSaved st
        /\ logged (mkError (JobCard.msg_null "success")))
  /\ (forall res fields v,
        answer = inr res -> json_body res = inr (JObj fields) ->
        truthy_opt (assoc (lit "success") fields) = true ->
        assoc (lit "savedJobs") fields = Some v ->
        truthy v = true -> isArray v = false ->
        JobCard.isSaved (final run) = JobCard.isSaved st
        /\ logged (mkError JobCard.msg_some))
  /\ (forall res fields,
        answer = inr res -> json_body res = inr (JObj fields) ->
        truthy_opt (assoc (lit "success") fields)
        && truthy_opt (assoc (lit "savedJobs") fields) = false ->
        JobCard.isSaved (final run) = JobCard.isSaved st
        /\ trace run = [Fetch JobCard.saved_jobs_url (JobCard.request env)]).
Proof.
  intros run answer logged Ha. subst run answer logged.
  rewrite (mount_authenticated net env id st Ha). cbn [outcome final trace fst snd].
  split; [reflexivity|].
  split; [now destruct (saved_answer net env id) as [|[|]]|].
  split; [now destruct (saved_answer net env id) as [|[|]]|].
  split; [now destruct (saved_answer net env id) as [|[|]]|].
  unfold saved_answer. split; [|split; [|split; [|split]]].
  - intros e ->. cbn. tauto.
  - intros res e -> ->. cbn. tauto.
  - intros res -> ->. cbn. tauto.
  - intros res fields v -> -> Hs Hv Ht Harr. cbn [get]. rewrite Hs, Hv.
    cbn [truthy_opt andb]. rewrite Ht.
    destruct v; try discriminate Harr; cbn; tauto.
  - intros res fields -> -> Hfalsy. cbn [get]. rewrite Hfalsy. cbn. tauto.
Qed.

Lemma saved_check_keeps_the_flag_on_failure_witness :
  JobCard.isSaved
    (final (JobCard.mount
              (always (json_response 200 (JObj [(lit "success", JBool false)])))
              (JobCard.mkEnv true None 0 (fun _ => inr true) (fun _ => inr true))
              (lit "j1")
              (JobCard.mkState true false false [])))
  = true.
Proof.
  destruct (saved_check_keeps_the_flag_on_failure
              (always (json_response 200 (JObj [(lit "success", JBool false)])))
              (JobCard.mkEnv true None 0 (fun _ => inr true) (fun _ => inr true))
              (lit "j1") (JobCard.mkState true false false []) eq_refl)
    as (_ & _ & _ & _ & _ & _ & _ & _ & Hquiet).
  exact (proj1 (Hquiet _ _ eq_refl eq_refl eq_refl)).
Defined.

(** X27. A click on Save by a logged-in visitor calls [removeSavedJob]
    for a saved job and [saveJob] otherwise, and flips the saved flag
    exactly when that service settles with true; when the service settles
    with false the flag stays, when it throws the flag stays and the error
    is logged.  In every case the handler returns, the busy flag ends
    cleared and the location is not touched. *)
Theorem handleSaveJob_toggles `{Runtime} (env : JobCard.Env)
    (job : ApplicationForm.JobPost) (st : JobCard.State) :
  let run := JobCard.handleSaveJob env job st in
  let service :=
    if JobCard.isSaved st
    then JobCard.removeSavedJob env (ApplicationForm.id job)
    else JobCard.saveJob env (JobCard.saved_job env job) in
  JobCard.isUserLoggedIn st = true ->
  outcome run = inr tt
  /\ JobCard.isSaving (final run) = false
  /\ JobCard.href (final run) = JobCard.href st
  /\ JobCard.isSaved (final run)
     = match service with
       | inr true => negb (JobCard.isSaved st)
       | _ => JobCard.isSaved st
       end
  /\ trace run
     = match service with
       | inl e => [Console Err [AStr (lit "Error saving/removing job:");
                                AError e]]
       | inr _ => []
       end.
Proof.
  intros run service Hl. subst run service.
  rewrite handleSaveJob_run, Hl. cbv zeta.
  destruct (JobCard.isSaved st) eqn:E;
    [destruct (JobCard.removeSavedJob env _) as [e|[]]
    |destruct (JobCard.saveJob env _) as [e|[]]];
    cbn; rewrite ?E; now repeat split.
Qed.

Lemma handleSaveJob_toggles_witness :
  JobCard.isSaved
    (final (JobCard.handleSaveJob (H := example_runtime)
              (JobCard.mkEnv true None 0 (fun _ => inr true) (fun _ => inr false))
              job_j1 (JobCard.mkState false false true [])))
  = true.
Proof.
  destruct (handleSaveJob_toggles (H := example_runtime)
              (JobCard.mkEnv true None 0 (fun _ => inr true) (fun _ => inr false))
              job_j1 (JobCard.mkState false false true []) eq_refl)
    as (_ & _ & _ & Hflag & _).
  exact Hflag.
Defined.

(** X28. With both services answering true, two clicks on Save by a
    logged-in visitor bring an idle card back to the state it was in. *)
Theorem two_clicks_restore_the_card `{Runtime} (env : JobCard.Env)
    (job : ApplicationForm.JobPost) (st : JobCard.State) :
  JobCard.isUserLoggedIn st = true ->
  JobCard.isSaving st = false ->
  JobCard.saveJob env (JobCard.saved_job env job) = inr true ->
  JobCard.removeSavedJob env (ApplicationForm.id job) = inr true ->
  final (JobCard.handleSaveJob env job
           (final (JobCard.handleSaveJob env job st)))
  = st.
Proof.
  intros Hl Hidle Hs Hr. rewrite !handleSaveJob_run. cbv zeta.
  destruct st as [saved saving logged url]. cbn in Hl, Hidle. subst.
  cbn [JobCard.isUserLoggedIn JobCard.isSaved final fst snd].
  destruct saved; rewrite ?Hs, ?Hr; cbn; now rewrite ?Hs, ?Hr.
Qed.

Lemma two_clicks_restore_the_card_witness :
  final (JobCard.handleSaveJob (H := example_runtime)
           (JobCard.mkEnv true None 0 (fun _ => inr true) (fun _ => inr true))
           job_j1
           (final (JobCard.handleSaveJob (H := example_runtime)
                     (JobCard.mkEnv true None 0
                        (fun _ => inr true) (fun _ => inr true))
                     job_j1 (JobCard.mkState false false true []))))
  = JobCard.mkState false false true [].
Proof.
  apply (two_clicks_restore_the_card (H := example_runtime)); reflexivity.
Defined.

(** X29. A visitor who is not authenticated causes no request when the
    card mounts, and a click on Save then only sets the location to /login:
    neither service is consulted, nothing is logged, and the saved and busy
    flags stay as they were. *)
Theorem logged_out_click_goes_to_login `{Runtime} (net : Network)
    (env : JobCard.Env) (job : ApplicationForm.JobPost) (st : JobCard.State) :
  let mounted := JobCard.mount net env (ApplicationForm.id job) st in
  let clicked := JobCard.handleSaveJob env job (final mounted) in
  JobCard.isAuthenticated env = false ->
  trace mounted = []
  /\ trace clicked = []
  /\ outcome clicked = inr tt
  /\ final clicked
     = JobCard.mkState (JobCard.isSaved st) (JobCard.isSaving st) false
         (lit "/login")
  /\ (forall save remove,
        final (JobCard.handleSaveJob
                 (JobCard.mkEnv false (JobCard.authToken env)
                    (JobCard.date_new env) save remove)
                 job (final mounted))
        = final clicked).
Proof.
  intros mounted clicked Ha. subst mounted clicked.
  rewrite mount_run, Ha. cbn [final trace fst snd].
  rewrite !handleSaveJob_run. cbn. repeat split.
Qed.

Lemma logged_out_click_goes_to_login_witness :
  JobCard.href
    (final (JobCard.handleSaveJob (H := example_runtime)
              (JobCard.mkEnv false None 0 (fun _ => inr true) (fun _ => inr true))
              job_j1
              (final (JobCard.mount offline
                        (JobCard.mkEnv false None 0
                           (fun _ => inr true) (fun _ => inr true))
                        (lit "j1") (JobCard.mkState false false true [])))))
  = lit "/login".
Proof.
  destruct (logged_out_click_goes_to_login (H := example_runtime) offline
              (JobCard.mkEnv false None 0 (fun _ => inr true) (fun _ => inr true))
              job_j1 (JobCard.mkState false false true []) eq_refl)
    as (_ & _ & _ & Hfinal & _).
  change (lit "j1") with (ApplicationForm.id job_j1).
  now rewrite Hfinal.
Defined.
